(** * Crawl-and-merge orchestrators of the car-parts catalogue scraper

    A shallow embedding of [src/scraper.ts] (two single-catalogue crawlers:
    the name-SKU one and the URL-SKU one) and of
    [src/category-specific-scraper.ts] (the crawler grouped by
    brand / model / year range), with the properties of the pagination
    walker, the detail merge stage, the global budget and the batch writer.

    Conventions of the embedding.
    - JavaScript strings are [string]; [null] and [undefined] are [None].
    - The remote site and the Node runtime are a record [Env]: what the
      HTML selectors give on a fetched document, and the host functions
      whose semantics live outside the repository (URL parsing, [trim],
      [parseFloat], the two text regular expressions, the file-system
      outcome).  A fetch or a host call that throws is [None].
    - Effects (console, network, timers, the single output file) are
      threaded through a state monad [M] over [Sys]; every effect leaves an
      [Event] in the trace, newest first.
    - [async]/[await] is sequential here: one control flow, no interleaving. *)

From Stdlib Require Import String Ascii List Arith Bool Lia.
From Stdlib Require Import DecimalString DecimalNat.
Import ListNotations.
Open Scope list_scope.
Open Scope string_scope.

(* ================================================================== *)
(** * JavaScript values and string helpers *)
(* ================================================================== *)

Module Js.

(** [!!s] for a string: only the empty string is falsy. *)
Definition truthy (s : string) : bool := negb (s =? "").

(** [!!v] for [string | null | undefined]. *)
Definition otruthy (o : option string) : bool :=
  match o with
  | Some s => truthy s
  | None => false
  end.

(** [s || null]. *)
Definition orNull (s : string) : option string :=
  if truthy s then Some s else None.

(** [v || null] for [string | null]. *)
Definition oOrNull (o : option string) : option string :=
  match o with
  | Some s => orNull s
  | None => None
  end.

(** [v || d] for [string | null] and a string default. *)
Definition orElse (o : option string) (d : string) : string :=
  match o with
  | Some s => if truthy s then s else d
  | None => d
  end.

(** A string made of one double quote, and one made of a line feed. *)
Definition dq : string := String "034"%char "".
Definition nl : string := String "010"%char "".

(** Template interpolation of [string | null]. *)
Definition show (o : option string) : string :=
  match o with
  | Some s => s
  | None => "null"
  end.

Definition showBool (b : bool) : string := if b then "true" else "false".

(** [n.toString()] for a non-negative integer. *)
Definition showNat (n : nat) : string := NilEmpty.string_of_uint (Nat.to_uint n).

(** [a === b] on [string | null]. *)
Definition strictEq (a b : option string) : bool :=
  match a, b with
  | Some x, Some y => x =? y
  | None, None => true
  | _, _ => false
  end.

Definition isDigit (c : ascii) : bool :=
  let n := nat_of_ascii c in ((48 <=? n)%nat && (n <=? 57)%nat)%bool.

(** [/\d+/.test(s)]: some character is a decimal digit. *)
Fixpoint hasDigit (s : string) : bool :=
  match s with
  | EmptyString => false
  | String c r => isDigit c || hasDigit r
  end.

Fixpoint onlyDigits (s : string) : bool :=
  match s with
  | EmptyString => true
  | String c r => isDigit c && onlyDigits r
  end.

(** [/^\d+$/.test(s)]. *)
Definition allDigits (s : string) : bool := truthy s && onlyDigits s.

(** [s.includes(sub)]. *)
Fixpoint includes (s sub : string) : bool :=
  String.prefix sub s ||
  match s with
  | EmptyString => false
  | String _ r => includes r sub
  end.

(** [s.split(sep)] for a one-character separator; [cur] is the piece being
    read. *)
Fixpoint splitOn (sep : ascii) (cur s : string) : list string :=
  match s with
  | EmptyString => [cur]
  | String c r =>
      if Ascii.eqb c sep then cur :: splitOn sep "" r
      else splitOn sep (cur ++ String c "") r
  end.

Definition split (sep : ascii) (s : string) : list string := splitOn sep "" s.

(** [arr[i]] with [undefined] out of range; [i] may be negative in the
    source ([arr.length - 2] on a one-element array), which is [None] here
    through the guard on the length. *)
Definition fromEnd {A} (l : list A) (k : nat) : option A :=
  if (k <=? List.length l)%nat then
    match k with
    | 0 => None
    | S _ => nth_error l (List.length l - k)
    end
  else None.

Fixpoint dropDigits (s : string) : string :=
  match s with
  | EmptyString => EmptyString
  | String c r => if isDigit c then dropDigits r else s
  end.

(** The rest of [s] after a match of [/__\d+\//] anchored at its start. *)
Definition sizeSegmentAt (s : string) : option string :=
  match s with
  | String "_" (String "_" (String d r)) =>
      if isDigit d then
        match dropDigits r with
        | String "/" rest => Some rest
        | _ => None
        end
      else None
  | _ => None
  end.

(** [s.replace(/__\d+\//, "")]: the leftmost match is removed. *)
Fixpoint dropSizeSegment (s : string) : string :=
  match sizeSegmentAt s with
  | Some rest => rest
  | None =>
      match s with
      | EmptyString => EmptyString
      | String c r => String c (dropSizeSegment r)
      end
  end.

(** [s.replace(a, b)] for string patterns: the first occurrence only. *)
Fixpoint replaceFirst (a b s : string) : string :=
  if truthy a && String.prefix a s then
    b ++ String.substring (String.length a) (String.length s - String.length a) s
  else
    match s with
    | EmptyString => EmptyString
    | String c r => String c (replaceFirst a b r)
    end.

(** A JavaScript number that is not [NaN], held by its canonical rendering
    ([Number.prototype.toString]); prices are only parsed, tested against
    [null] and rendered. *)
Record number := { toString : string }.

(** A [number] that may be [Infinity], for the configured caps. *)
Inductive limit :=
| Finite (n : nat)
| Infinity.

(** [count >= cap]. *)
Definition reached (count : nat) (cap : limit) : bool :=
  match cap with
  | Finite n => (n <=? count)%nat
  | Infinity => false
  end.

Definition showLimit (cap : limit) : string :=
  match cap with
  | Finite n => showNat n
  | Infinity => "Infinity"
  end.

(** [arr.slice(0, cap - count)], used where [count < cap] has just been
    tested, so the end index is positive. *)
Definition sliceTo {A} (l : list A) (cap : limit) (count : nat) : list A :=
  match cap with
  | Finite n => firstn (n - count) l
  | Infinity => l
  end.

End Js.

(* ================================================================== *)
(** * The WHATWG [URL] object, as far as the crawlers use it *)
(* ================================================================== *)

Module Url.

Definition Params := list (string * string).

(** A URL object: [url_search] is the search string without its question
    mark, [url_params] the list behind [searchParams], [url_fragment] keeps
    its hash sign. *)
Record URL := {
  url_prefix : string;
  url_search : string;
  url_params : Params;
  url_fragment : string
}.

(** [u.toString()]. *)
Definition href (u : URL) : string :=
  url_prefix u ++ (if Js.truthy (url_search u) then "?" ++ url_search u else "")
             ++ url_fragment u.

Fixpoint lookup (ps : Params) (k : string) : option string :=
  match ps with
  | [] => None
  | (k', v) :: r => if k' =? k then Some v else lookup r k
  end.

(** [u.searchParams.has(k)] and [u.searchParams.get(k)]. *)
Definition has (u : URL) (k : string) : bool :=
  match lookup (url_params u) k with Some _ => true | None => false end.

Definition get (u : URL) (k : string) : option string := lookup (url_params u) k.

Definition remove (ps : Params) (k : string) : Params :=
  filter (fun kv => negb (fst kv =? k)) ps.

(** The list after [set]: the first pair named [k] takes the value, the
    others named [k] go; appended when there is none. *)
Fixpoint update (ps : Params) (k v : string) : Params :=
  match ps with
  | [] => [(k, v)]
  | (k', v') :: r =>
      if k' =? k then (k, v) :: remove r k else (k', v') :: update r k v
  end.

(** [u.searchParams.set(k, v)]: the list changes and the search string is
    written anew from it by the host's serializer. *)
Definition set (serialize : Params -> string) (u : URL) (k v : string) : URL :=
  let ps := update (url_params u) k v in
  {| url_prefix := url_prefix u; url_search := serialize ps;
     url_params := ps; url_fragment := url_fragment u |}.

End Url.

(* ================================================================== *)
(** * The environment: remote site and host runtime *)
(* ================================================================== *)

(** What the selectors of the listing extractor give on one
    [.product-grid .item] element. *)
Record ItemElement := {
  productNameText : string;                (* .product-name, text() *)
  detailCodeText : string;                 (* .detail-code, text() *)
  priceDataOrig : option string;           (* .price .currency, data-orig *)
  productHref : option string;             (* .product_info a, href *)
  imgSrc : option string;                  (* .img-holder img, src *)
  availabilityGreen : option (list string) (* .availability: its span.green texts *)
}.

Record ListingDoc := {
  items : list ItemElement;
  nextHref : option string                 (* .pagination .next a, href *)
}.

(** What the selectors of the detail extractor give on an item page. *)
Record DetailDoc := {
  tabsText : string;                       (* #tabs2-horizontal, text() *)
  stockGreen : option (list string);       (* availability div: its span.green texts *)
  mainImgSrc : option string;              (* main picture img, src *)
  thumbs : list (option string * option string) (* data-path, data-filename *)
}.

(** The parsed [brandModels] object as [for ... in] enumerates it. *)
Definition BrandModelsData := list (string * list (string * list string)).

Record Env := {
  (* host runtime *)
  trim : string -> string;
  parseFloat : string -> option Js.number;          (* None: NaN *)
  dashWhitespace : string -> string;                (* s.replace(/\s+/g, "-") *)
  matchDetailCode : string -> option string;        (* group 1 of the part-code regex *)
  encodeURIComponent : string -> string;
  newURL : string -> option string -> option Url.URL;  (* None: throws *)
  serialize : Url.Params -> string;                 (* of a URLSearchParams list *)
  (* remote site *)
  listingPage : string -> option ListingDoc;        (* None: the request or the parse throws *)
  detailPage : string -> option DetailDoc;
  brandPage : option (option string);               (* the page, then the script regex's group 1 *)
  runScript : string -> option BrandModelsData;     (* vm evaluation; None: throws *)
  (* file system: does the n-th operation of the run succeed *)
  fsOk : nat -> bool
}.

(* ================================================================== *)
(** * Effects *)
(* ================================================================== *)

Inductive Level := Log | Warn | Error.

Inductive Event :=
| Console (lvl : Level) (msg : string)
| GetListing (url : string)
| GetDetail (url : string)
| GetBrandData (url : string)
| Sleep (ms : nat)
| WriteFile (data : string) (ok : bool)
| AppendFile (data : string) (ok : bool)
| Stat (size : option nat).

(** [file] is the content of the crawler's output file ([None]: absent),
    [fsOps] counts the file-system operations issued so far. *)
Record Sys := {
  file : option string;
  fsOps : nat;
  trace : list Event
}.

Definition M (A : Type) : Type := Sys -> A * Sys.

Definition ret {A} (a : A) : M A := fun s => (a, s).

Definition bind {A B} (m : M A) (k : A -> M B) : M B :=
  fun s => let (a, s') := m s in k a s'.

Declare Scope m_scope.
Delimit Scope m_scope with m.
Notation "x <- m ;; k" := (bind m (fun x => k))
  (at level 61, m at next level, right associativity) : m_scope.
Notation "' pat <- m ;; k" := (bind m (fun x => match x with pat => k end))
  (at level 61, pat pattern, m at next level, right associativity) : m_scope.
Notation "m ;; k" := (bind m (fun _ => k))
  (at level 61, right associativity) : m_scope.
Open Scope m_scope.

Definition emit (e : Event) : M unit :=
  fun s => (tt, {| file := file s; fsOps := fsOps s; trace := e :: trace s |}).

Definition console (lvl : Level) (msg : string) : M unit := emit (Console lvl msg).

Definition sleep (ms : nat) : M unit := emit (Sleep ms).

Section Effects.
Variable E : Env.

(** [fs.writeFile(OUTPUT_CSV_FILE, data)]; [false] when it throws, the file
    then being left as it was. *)
Definition writeFile (data : string) : M bool :=
  fun s =>
    let ok := fsOk E (fsOps s) in
    (ok, {| file := if ok then Some data else file s;
            fsOps := S (fsOps s);
            trace := WriteFile data ok :: trace s |}).

(** [fs.appendFile(OUTPUT_CSV_FILE, data)]; creates the file when absent. *)
Definition appendFile (data : string) : M bool :=
  fun s =>
    let ok := fsOk E (fsOps s) in
    (ok, {| file := if ok
                    then Some (match file s with Some c => (c ++ data)%string | None => data end)
                    else file s;
            fsOps := S (fsOps s);
            trace := AppendFile data ok :: trace s |}).

(** [fs.stat(OUTPUT_CSV_FILE).catch(() => null)], reduced to the size. *)
Definition stat : M (option nat) :=
  fun s =>
    let r := if fsOk E (fsOps s)
             then option_map String.length (file s) else None in
    (r, {| file := file s; fsOps := S (fsOps s); trace := Stat r :: trace s |}).

Definition getListing (url : string) : M (option ListingDoc) :=
  emit (GetListing url) ;; ret (listingPage E url).

Definition getDetail (url : string) : M (option DetailDoc) :=
  emit (GetDetail url) ;; ret (detailPage E url).

Definition getBrandPage (url : string) : M (option (option string)) :=
  emit (GetBrandData url) ;; ret (brandPage E).

(** [new URL(input, base).toString()]. *)
Definition resolve (input base : string) : option string :=
  option_map Url.href (newURL E input (Some base)).

(** [/\d+/.test($(el).text().trim())] on the spans until the first hit. *)
Definition anyStockNumber (spans : list string) : bool :=
  existsb (fun t => Js.hasDigit (trim E t)) spans.

End Effects.

(** Events that are listing-page requests. *)
Definition isGetListing (e : Event) : bool :=
  match e with GetListing _ => true | _ => false end.


(** Events of a trace that write to the output file. *)
Definition isFileWrite (e : Event) : bool :=
  match e with WriteFile _ _ | AppendFile _ _ => true | _ => false end.

Definition initial (previous : option string) : Sys :=
  {| file := previous; fsOps := 0; trace := [] |}.

(* ================================================================== *)
(** * Tabular serialization: [Papa.unparse] with the crawlers' options *)
(* ================================================================== *)

Module Csv.

Definition dquote : ascii := "034"%char.
Definition CR : ascii := "013"%char.
Definition LF : ascii := "010"%char.

(** The [newline] option: carriage return, line feed. *)
Definition CRLF : string := String CR (String LF "").

(** [escapeChar] before every [quoteChar] of a field. *)
Fixpoint escape (s : string) : string :=
  match s with
  | EmptyString => EmptyString
  | String c r =>
      if Ascii.eqb c dquote then String dquote (String dquote (escape r))
      else String c (escape r)
  end.

(** [quotes: true]: every field is wrapped in quotes. *)
Definition quote (f : string) : string :=
  String dquote (escape f ++ String dquote "").

Definition line (fields : list string) : string :=
  String.concat "," (map quote fields).

(** [Papa.unparse(rows, { header, quotes: true, delimiter, newline })] on an
    array of objects which all have the keys [columns] in this order; the
    crawlers only call it on a non-empty array. *)
Definition unparse (columns : list string) (rows : list (list string))
    (header : bool) : string :=
  String.concat CRLF ((if header then [line columns] else []) ++ map line rows).

(** The keys of [WooCommerceProductRow], in declaration order. *)
Definition COLUMNS : list string :=
  [ "ID"; "Type"; "SKU"; "Name"; "Published"; "Is featured?";
    "Visibility in catalog"; "Short description"; "Description";
    "Date sale price starts"; "Date sale price ends"; "Tax status";
    "Tax class"; "In stock?"; "Stock"; "Low stock amount";
    "Backorders allowed?"; "Sold individually?"; "Weight (kg)";
    "Length (cm)"; "Width (cm)"; "Height (cm)"; "Allow customer reviews?";
    "Purchase note"; "Sale price"; "Regular price"; "Categories"; "Tags";
    "Shipping class"; "Images"; "Download limit"; "Download expiry days";
    "Parent"; "Grouped products"; "Upsells"; "Cross-sells"; "External URL";
    "Button text"; "Position" ].

(** A [WooCommerceProductRow] whose constant columns are filled in; the
    values are listed in the order of [COLUMNS]. *)
Definition row (id sku name description inStock regularPrice categories
    images : string) : list string :=
  [ id; "simple"; sku; name; "1"; "0"; "visible"; ""; description; ""; "";
    "taxable"; ""; inStock; ""; ""; "0"; "0"; ""; ""; ""; ""; "1"; ""; "";
    regularPrice; categories; ""; ""; images; ""; ""; ""; ""; ""; ""; "";
    ""; "0" ].

(** The template of the Description column. *)
Definition description (manufacturerCode siteCode : option string) : string :=
  "Manufacturer Code: " ++ Js.orElse manufacturerCode "N/A" ++ String LF ""
    ++ "Site Code: " ++ Js.orElse siteCode "N/A".

(** [product.price?.toString() || ""]. *)
Definition priceText (price : option Js.number) : string :=
  Js.orElse (option_map Js.toString price) "".

(** The header line of every output file. *)
Definition HEADER_LINE : string := line COLUMNS.

(** Reading a file back: the records of a CSV text, cut at each CRLF that
    stands outside quotes.  [inq] tells whether the reader is inside a
    quoted field, [cur] is the record read so far. *)
Fixpoint recordsFrom (inq : bool) (cur s : string) : list string :=
  match s with
  | EmptyString => [cur]
  | String c r =>
      if Ascii.eqb c dquote then recordsFrom (negb inq) (cur ++ String c "") r
      else if inq then recordsFrom inq (cur ++ String c "") r
      else
        match r with
        | String c2 r2 =>
            if Ascii.eqb c CR && Ascii.eqb c2 LF then cur :: recordsFrom false "" r2
            else recordsFrom inq (cur ++ String c "") r
        | EmptyString => recordsFrom inq (cur ++ String c "") r
        end
  end.

Definition records (content : string) : list string :=
  if Js.truthy content then recordsFrom false "" content else [].

(** How often the header row occurs among the records of a file. *)
Definition headerCount (content : string) : nat :=
  count_occ string_dec (records content) HEADER_LINE.

(** The records of a file that are not its header row. *)
Definition dataRows (content : string) : list string :=
  filter (fun r => negb (r =? HEADER_LINE)) (records content).

End Csv.

(* ================================================================== *)
(** * [src/scraper.ts], first crawler: SKU from the product name *)
(* ================================================================== *)

Module NameSku.

Record Product := {
  sku : option string;
  siteCode : option string;
  name : option string;
  price : option Js.number;
  imageUrl : option string;
  productPageUrl : option string;
  manufacturerCode : option string;
  isInStock : bool
}.

(** [Omit<Product, "manufacturerCode">]. *)
Record BaseInfo := {
  b_sku : option string;
  b_siteCode : option string;
  b_name : option string;
  b_price : option Js.number;
  b_imageUrl : option string;
  b_productPageUrl : option string;
  b_isInStock : bool
}.

(** [{ ...baseInfo, manufacturerCode }]. *)
Definition withDetails (b : BaseInfo) (manufacturerCode : option string) : Product :=
  {| sku := b_sku b; siteCode := b_siteCode b; name := b_name b;
     price := b_price b; imageUrl := b_imageUrl b;
     productPageUrl := b_productPageUrl b;
     manufacturerCode := manufacturerCode; isInStock := b_isInStock b |}.

Definition BASE_URL : string := "https://www.fastdeliverycarparts.com".
Definition START_URL : string :=
  "https://www.fastdeliverycarparts.com/katalogs/?cat=38,4,23,95,1107,98,8,9,13,35,70,76,40,1103,1101,3,11,5,9000000423,9000000421,9000000422,32,14,19,16,15,31,20,99,97,46,47,71,41,80,85,79,78,84,81,1106,39,49,37,50,1116,54,51,105,57,52,58,59,60,67,68,30,1102,75,1104,66,101,102,64,109,36,18,34,1109,69,65,72,1108,2,104,42,6,1117,29,1118,43,17,7,45,10,44,24,28,22,106,108,55,96,92,1105,93,12,1112,94,86,88,89,87,91,77,63,21,103,27,61,107,25,1110,1113,1111,1114,56,1115".
Definition OUTPUT_CSV_FILE : string := "woocommerce_products.csv".
Definition MAX_CATALOG_PAGES : nat := 1000.
Definition DELAY_BETWEEN_PRODUCT_REQUESTS_MS : nat := 100.

Section Crawler.
Variable E : Env.

(** [scrapeProductDetails]: the manufacturer code of an item page. *)
Definition scrapeProductDetails (url : string) : M (option string) :=
  if negb (Js.truthy url) then
    console Warn "Skipping detail scraping due to missing URL." ;;
    ret None
  else
    console Log (" -> Fetching details from: " ++ url) ;;
    r <- getDetail E url ;;
    match r with
    | Some doc => ret (Js.orNull (trim E (tabsText doc)))
    | None =>
        console Error (" -> Error fetching/parsing product details page " ++ url) ;;
        ret None
    end.

(** The body of the [.each] callback of [scrapeCatalogPage]. *)
Definition scrapeItem (el : ItemElement) : M BaseInfo :=
  let name := Js.orNull (trim E (productNameText el)) in
  let sku := option_map (dashWhitespace E) name in
  let codeText := trim E (detailCodeText el) in
  let siteCode :=
    if Js.truthy codeText then
      match Js.oOrNull (matchDetailCode E codeText) with
      | Some group1 => Some (trim E group1)
      | None => None
      end
    else None in
  let price :=
    match Js.oOrNull (priceDataOrig el) with
    | Some priceStr => parseFloat E priceStr
    | None => None
    end in
  productPageUrl <-
    match Js.oOrNull (productHref el) with
    | Some relativeProductUrl =>
        match resolve E relativeProductUrl BASE_URL with
        | Some u => ret (Some u)
        | None =>
            console Warn ("Could not construct absolute URL for product page: "
                          ++ relativeProductUrl) ;;
            ret None
        end
    | None => ret None
    end ;;
  imageUrl <-
    match Js.oOrNull (imgSrc el) with
    | Some relativeImageUrl =>
        match resolve E relativeImageUrl BASE_URL with
        | Some u => ret (Some u)
        | None =>
            console Warn ("Could not construct absolute URL for image: "
                          ++ relativeImageUrl) ;;
            ret None
        end
    | None => ret None
    end ;;
  let imageUrl :=
    if negb (Js.otruthy imageUrl) then
      match resolve E "/img/default-image.png" BASE_URL with
      | Some u => Some u
      | None => imageUrl
      end
    else imageUrl in
  let isInStock :=
    match availabilityGreen el with
    | Some spans => anyStockNumber E spans
    | None => false
    end in
  ret {| b_sku := sku; b_siteCode := siteCode; b_name := name; b_price := price;
         b_imageUrl := imageUrl; b_productPageUrl := productPageUrl;
         b_isInStock := isInStock |}.

Fixpoint scrapeItems (els : list ItemElement) : M (list BaseInfo) :=
  match els with
  | [] => ret []
  | el :: rest =>
      b <- scrapeItem el ;;
      bs <- scrapeItems rest ;;
      ret (b :: bs)
  end.

(** The next-page locator: the link resolved against the site, with the
    [cat] and [pp] parameters of the current URL copied on it. *)
Definition nextPage (url nextLink : string) : option string :=
  match newURL E url None with
  | Some currentUrl =>
      match newURL E nextLink (Some BASE_URL) with
      | Some nextUrl =>
          let copy (k : string) (nextUrl : Url.URL) : Url.URL :=
            match Url.get currentUrl k with
            | Some v => Url.set (serialize E) nextUrl k v
            | None => nextUrl
            end in
          Some (Url.href (copy "pp" (copy "cat" nextUrl)))
      | None => None
      end
  | None => None
  end.

(** [scrapeCatalogPage]: the summaries of a listing page and the URL of the
    next one; [readCatalogPage] is what it does with the response, [None]
    when the request or the parse threw. *)
Definition readCatalogPage (url : string) (response : option ListingDoc)
    : M (list BaseInfo * option string) :=
  match response with
  | Some doc =>
      productsBaseInfo <- scrapeItems (items doc) ;;
      nextPageUrl <-
        match Js.oOrNull (nextHref doc) with
        | Some nextLink =>
            match nextPage url nextLink with
            | Some u => ret (Some u)
            | None =>
                console Warn ("Could not construct absolute URL for next page: "
                              ++ nextLink) ;;
                ret None
            end
        | None => ret None
        end ;;
      ret (productsBaseInfo, nextPageUrl)
  | None =>
      console Error ("Error fetching or parsing catalog page " ++ url) ;;
      ret ([], None)
  end.

Definition scrapeCatalogPage (url : string) : M (list BaseInfo * option string) :=
  console Log ("Fetching catalog page: " ++ url) ;;
  response <- getListing E url ;;
  readCatalogPage url response.

(** The row of one product; [index] is its position in the array. *)
Definition toRow (index : nat) (p : Product) : list string :=
  Csv.row (Js.showNat (index + 1))
    (Js.orElse (sku p) ("MISSING-SKU-" ++ Js.showNat (index + 1)))
    (Js.orElse (name p) ("Unnamed Product " ++ Js.showNat (index + 1)))
    (Csv.description (manufacturerCode p) (siteCode p))
    (if isInStock p then "1" else "0")
    (Csv.priceText (price p))
    ""
    (Js.orElse (imageUrl p) "").

Fixpoint mapIndexed {A B} (f : nat -> A -> B) (i : nat) (l : list A) : list B :=
  match l with
  | [] => []
  | a :: r => f i a :: mapIndexed f (S i) r
  end.

Definition convertToWooCommerceCSV (products : list Product) : string :=
  Csv.unparse Csv.COLUMNS (mapIndexed toRow 0 products) true.

(** The [for] loop over the summaries of one page; [i] is the index. *)
Fixpoint productsLoop (catalogPageCount len i : nat) (infos : list BaseInfo)
    (allProducts : list Product) : M (list Product) :=
  match infos with
  | [] => ret allProducts
  | baseInfo :: rest =>
      console Log (" [" ++ Js.showNat catalogPageCount ++ "-" ++ Js.showNat (i + 1)
                   ++ "/" ++ Js.showNat len ++ "] Processing SKU: "
                   ++ Js.show (b_sku baseInfo) ++ " (Stock: "
                   ++ Js.showBool (b_isInStock baseInfo) ++ ")") ;;
      match Js.oOrNull (b_productPageUrl baseInfo) with
      | None =>
          console Warn (" -> Skipping detail fetch for product " ++ Js.dq
                        ++ Js.show (b_name baseInfo) ++ Js.dq ++ " (SKU: "
                        ++ Js.show (b_sku baseInfo)
                        ++ ") due to missing product page URL.") ;;
          productsLoop catalogPageCount len (S i) rest
            (allProducts ++ [withDetails baseInfo None])
      | Some url =>
          manufacturerCode <- scrapeProductDetails url ;;
          let fullProductInfo := withDetails baseInfo manufacturerCode in
          sleep DELAY_BETWEEN_PRODUCT_REQUESTS_MS ;;
          productsLoop catalogPageCount len (S i) rest
            (allProducts ++ [fullProductInfo])
      end
  end.

(** The [while] loop of [scrapeAllPages].  It runs as long as
    [catalogPageCount < MAX_CATALOG_PAGES]; [fuel] only makes the recursion
    structural, and [MAX_CATALOG_PAGES] of it is never used up. *)
Fixpoint pagesLoop (fuel : nat) (currentCatalogPageUrl : option string)
    (catalogPageCount : nat) (allProducts : list Product)
    : M (list Product * nat) :=
  match currentCatalogPageUrl with
  | Some url =>
      if Js.truthy url && (catalogPageCount <? MAX_CATALOG_PAGES)%nat then
        match fuel with
        | 0 => ret (allProducts, catalogPageCount)
        | S fuel' =>
            let catalogPageCount := S catalogPageCount in
            '(productsBaseInfo, nextPageUrl) <- scrapeCatalogPage url ;;
            if (List.length productsBaseInfo =? 0)%nat && (1 <? catalogPageCount)%nat then
              console Log ("No products found on catalog page "
                           ++ Js.showNat catalogPageCount
                           ++ ", stopping catalog pagination.") ;;
              ret (allProducts, catalogPageCount)
            else
              console Log ("Found " ++ Js.showNat (List.length productsBaseInfo)
                           ++ " products on catalog page "
                           ++ Js.showNat catalogPageCount ++ ". Fetching details...") ;;
              allProducts <- productsLoop catalogPageCount
                               (List.length productsBaseInfo) 0 productsBaseInfo
                               allProducts ;;
              if Js.strictEq nextPageUrl currentCatalogPageUrl then
                console Log "Next catalog page URL is the same as current, stopping." ;;
                ret (allProducts, catalogPageCount)
              else pagesLoop fuel' nextPageUrl catalogPageCount allProducts
        end
      else ret (allProducts, catalogPageCount)
  | None => ret (allProducts, catalogPageCount)
  end.

Definition ceilingMessage : string :=
  "Reached maximum catalog page limit (" ++ Js.showNat MAX_CATALOG_PAGES
    ++ "). Stopping.".

(** [scrapeAllPages], with the products and the page count it reports. *)
Definition scrapeAllPages : M (list Product * nat) :=
  console Log "Starting scraper..." ;;
  '(allProducts, catalogPageCount) <-
    pagesLoop MAX_CATALOG_PAGES (Some START_URL) 0 [] ;;
  (if (MAX_CATALOG_PAGES <=? catalogPageCount)%nat
   then console Warn ceilingMessage else ret tt) ;;
  console Log (Js.nl ++ "Scraping finished. Scraped details for "
               ++ Js.showNat (List.length allProducts) ++ " products from "
               ++ Js.showNat catalogPageCount ++ " catalog pages.") ;;
  (if (0 <? List.length allProducts)%nat then
     console Log "Converting data to WooCommerce CSV format..." ;;
     ok <- writeFile E (convertToWooCommerceCSV allProducts) ;;
     if ok then
       console Log ("Successfully wrote " ++ Js.showNat (List.length allProducts)
                    ++ " products to " ++ OUTPUT_CSV_FILE)
     else
       console Error ("Error converting or writing CSV to file " ++ OUTPUT_CSV_FILE)
   else console Log "No products were scraped, skipping CSV file generation.") ;;
  ret (allProducts, catalogPageCount).

End Crawler.

End NameSku.

(* ================================================================== *)
(** * [src/scraper.ts], second crawler: SKU from the product URL *)
(* ================================================================== *)

Module UrlSku.

Record Product := {
  sku : option string;
  siteCode : option string;
  name : option string;
  price : option Js.number;
  imageUrls : list string;
  productPageUrl : option string;
  manufacturerCode : option string;
  isInStock : bool
}.

(** [Omit<Product, "manufacturerCode" | "isInStock" | "imageUrls">]. *)
Record BaseInfo := {
  b_sku : option string;
  b_siteCode : option string;
  b_name : option string;
  b_price : option Js.number;
  b_productPageUrl : option string
}.

(** What [scrapeProductDetails] returns. *)
Record Details := {
  d_manufacturerCode : option string;
  d_isInStock : bool;
  d_imageUrls : list string
}.

(** [{ ...baseInfo, manufacturerCode, isInStock, imageUrls }]. *)
Definition withDetails (b : BaseInfo) (d : Details) : Product :=
  {| sku := b_sku b; siteCode := b_siteCode b; name := b_name b;
     price := b_price b; imageUrls := d_imageUrls d;
     productPageUrl := b_productPageUrl b;
     manufacturerCode := d_manufacturerCode d; isInStock := d_isInStock d |}.

Definition BASE_URL : string := "https://www.fastdeliverycarparts.com".
Definition START_URL : string := NameSku.START_URL.
Definition OUTPUT_CSV_FILE : string := "woocommerce_products.csv".
Definition MAX_CATALOG_PAGES : nat := 1000.
Definition DELAY_BETWEEN_PRODUCT_REQUESTS_MS : nat := 500.

(** The file name that marks the site's placeholder picture. *)
Definition PLACEHOLDER_NAME : string := "default-image.png".

Section Crawler.
Variable E : Env.

(** The main picture: its URL (or [null]) and the image list after it. *)
Definition mainImage (doc : DetailDoc) : M (option string * list string) :=
  match Js.oOrNull (mainImgSrc doc) with
  | Some src =>
      match resolve E src BASE_URL with
      | Some u =>
          let mainImageUrl := Js.dropSizeSegment u in
          if negb (Js.includes mainImageUrl PLACEHOLDER_NAME)
          then ret (Some mainImageUrl, [mainImageUrl])
          else ret (None, [])
      | None =>
          console Warn (" -> Could not parse main image URL: " ++ src) ;;
          ret (None, [])
      end
  | None => ret (None, [])
  end.

(** [imageUrls.includes(u)]. *)
Definition listIncludes (l : list string) (u : string) : bool :=
  existsb (String.eqb u) l.

(** The [.each] loop over the thumbnails. *)
Fixpoint thumbImages (mainImageUrl : option string)
    (ts : list (option string * option string)) (imageUrls : list string)
    : M (list string) :=
  match ts with
  | [] => ret imageUrls
  | (thumbDataPath, thumbFilename) :: rest =>
      match Js.oOrNull thumbDataPath, Js.oOrNull thumbFilename with
      | Some path, Some filename =>
          match resolve E (path ++ filename) BASE_URL with
          | Some fullImageUrl =>
              if negb (Js.includes fullImageUrl PLACEHOLDER_NAME)
                 && negb (Js.strictEq (Some fullImageUrl) mainImageUrl)
                 && negb (listIncludes imageUrls fullImageUrl)
              then thumbImages mainImageUrl rest (imageUrls ++ [fullImageUrl])
              else thumbImages mainImageUrl rest imageUrls
          | None =>
              console Warn (" -> Could not construct thumb image URL from path: "
                            ++ path ++ " and file: " ++ filename) ;;
              thumbImages mainImageUrl rest imageUrls
          end
      | _, _ => thumbImages mainImageUrl rest imageUrls
      end
  end.

(** The placeholder is pushed on an empty image list. *)
Definition withPlaceholder (imageUrls : list string) : list string :=
  if (List.length imageUrls =? 0)%nat then
    match resolve E "/img/default-image.png" BASE_URL with
    | Some u => imageUrls ++ [u]
    | None => imageUrls
    end
  else imageUrls.

(** [scrapeProductDetails]: manufacturer code, stock flag and pictures of an
    item page. *)
Definition scrapeProductDetails (url : string) : M Details :=
  if negb (Js.truthy url) then
    console Warn "Skipping detail scraping due to missing URL." ;;
    ret {| d_manufacturerCode := None; d_isInStock := false; d_imageUrls := [] |}
  else
    console Log (" -> Fetching details from: " ++ url) ;;
    r <- getDetail E url ;;
    match r with
    | Some doc =>
        let manufacturerCode := Js.orNull (trim E (tabsText doc)) in
        isInStock <-
          match stockGreen doc with
          | Some spans => ret (anyStockNumber E spans)
          | None =>
              console Warn (" -> Availability info div not found on " ++ url) ;;
              ret false
          end ;;
        '(mainImageUrl, imageUrls) <- mainImage doc ;;
        imageUrls <- thumbImages mainImageUrl (thumbs doc) imageUrls ;;
        ret {| d_manufacturerCode := manufacturerCode; d_isInStock := isInStock;
               d_imageUrls := withPlaceholder imageUrls |}
    | None =>
        console Error (" -> Error fetching/parsing product details page " ++ url) ;;
        ret {| d_manufacturerCode := None; d_isInStock := false; d_imageUrls := [] |}
    end.

(** The numeric identifier at the end of a product URL. *)
Definition potentialId (productPageUrl : string) : option string :=
  let urlParts := Js.split "/" productPageUrl in
  match Js.oOrNull (Js.fromEnd urlParts 1) with
  | Some last => Some last
  | None => Js.fromEnd urlParts 2
  end.

(** Template interpolation of [number | null]. *)
Definition showPrice (p : option Js.number) : string :=
  Js.show (option_map Js.toString p).

(** The name, the site code and the price the callback of
    [scrapeCatalogPage] reads off an item. *)
Definition itemName (el : ItemElement) : option string :=
  Js.orNull (trim E (productNameText el)).

Definition itemSiteCode (el : ItemElement) : option string :=
  let codeText := trim E (detailCodeText el) in
  if Js.truthy codeText then
    match Js.oOrNull (matchDetailCode E codeText) with
    | Some group1 => Some (trim E group1)
    | None => None
    end
  else None.

Definition itemPrice (el : ItemElement) : option Js.number :=
  match Js.oOrNull (priceDataOrig el) with
  | Some priceStr => parseFloat E priceStr
  | None => None
  end.

(** The product page URL and the SKU taken from it. *)
Definition itemLink (el : ItemElement) : M (option string * option string) :=
  match Js.oOrNull (productHref el) with
  | Some relativeProductUrl =>
      match resolve E relativeProductUrl BASE_URL with
      | Some productPageUrl =>
          match Js.oOrNull (potentialId productPageUrl) with
          | Some id =>
              if Js.allDigits id then ret (Some productPageUrl, Some id)
              else
                console Warn ("Could not extract numeric ID from product URL: "
                              ++ productPageUrl) ;;
                ret (Some productPageUrl, None)
          | None =>
              console Warn ("Could not extract numeric ID from product URL: "
                            ++ productPageUrl) ;;
              ret (Some productPageUrl, None)
          end
      | None =>
          console Warn ("Could not construct absolute URL or extract SKU for product page: "
                        ++ relativeProductUrl) ;;
          ret (None, None)
      end
  | None => ret (None, None)
  end.

(** [price !== null]. *)
Definition hasPrice (price : option Js.number) : bool :=
  match price with Some _ => true | None => false end.

Definition missingDataMessage (name sku siteCode : option string)
    (price : option Js.number) (productPageUrl : option string) : string :=
  "Product has missing base data but will still be included: Name="
    ++ Js.show name ++ ", SKU=" ++ Js.show sku
    ++ ", SiteCode=" ++ Js.show siteCode
    ++ ", Price=" ++ showPrice price
    ++ ", PageURL=" ++ Js.show productPageUrl.

(** The body of the [.each] callback of [scrapeCatalogPage]: the summary
    pushed for the item, if any. *)
Definition scrapeItem (el : ItemElement) : M (option BaseInfo) :=
  let name := itemName el in
  let siteCode := itemSiteCode el in
  let price := itemPrice el in
  '(productPageUrl, sku) <- itemLink el ;;
  if Js.otruthy name || Js.otruthy siteCode || Js.otruthy sku || hasPrice price
     || Js.otruthy productPageUrl
  then
    (if negb (Js.otruthy name && Js.otruthy siteCode && Js.otruthy sku
              && hasPrice price && Js.otruthy productPageUrl)
     then console Warn (missingDataMessage name sku siteCode price productPageUrl)
     else ret tt) ;;
    ret (Some {| b_sku := Js.oOrNull sku; b_siteCode := Js.oOrNull siteCode;
                 b_name := Js.oOrNull name; b_price := price;
                 b_productPageUrl := Js.oOrNull productPageUrl |})
  else ret None.

Fixpoint scrapeItems (els : list ItemElement) : M (list BaseInfo) :=
  match els with
  | [] => ret []
  | el :: rest =>
      b <- scrapeItem el ;;
      bs <- scrapeItems rest ;;
      ret (match b with Some b => b :: bs | None => bs end)
  end.

(** The next-page locator, as in the first crawler. *)
Definition nextPage (url nextLink : string) : option string :=
  match newURL E url None with
  | Some currentUrl =>
      match newURL E nextLink (Some BASE_URL) with
      | Some nextUrl =>
          let copy (k : string) (nextUrl : Url.URL) : Url.URL :=
            match Url.get currentUrl k with
            | Some v => Url.set (serialize E) nextUrl k v
            | None => nextUrl
            end in
          Some (Url.href (copy "pp" (copy "cat" nextUrl)))
      | None => None
      end
  | None => None
  end.

Definition readCatalogPage (url : string) (response : option ListingDoc)
    : M (list BaseInfo * option string) :=
  match response with
  | Some doc =>
      productsBaseInfo <- scrapeItems (items doc) ;;
      nextPageUrl <-
        match Js.oOrNull (nextHref doc) with
        | Some nextLink =>
            match nextPage url nextLink with
            | Some u => ret (Some u)
            | None =>
                console Warn ("Could not construct absolute URL for next page: "
                              ++ nextLink) ;;
                ret None
            end
        | None => ret None
        end ;;
      ret (productsBaseInfo, nextPageUrl)
  | None =>
      console Error ("Error fetching or parsing catalog page " ++ url) ;;
      ret ([], None)
  end.

Definition scrapeCatalogPage (url : string) : M (list BaseInfo * option string) :=
  console Log ("Fetching catalog page: " ++ url) ;;
  response <- getListing E url ;;
  readCatalogPage url response.

Definition toRow (p : Product) : list string :=
  Csv.row ""
    (Js.orElse (sku p) "")
    (Js.orElse (name p) "")
    (Csv.description (manufacturerCode p) (siteCode p))
    (if isInStock p then "1" else "0")
    (Csv.priceText (price p))
    ""
    (String.concat "," (imageUrls p)).

Definition convertToWooCommerceCSV (products : list Product) : string :=
  Csv.unparse Csv.COLUMNS (map toRow products) true.

(** The [for] loop over the summaries of one page. *)
Fixpoint productsLoop (catalogPageCount len i : nat) (infos : list BaseInfo)
    (allProducts : list Product) : M (list Product) :=
  match infos with
  | [] => ret allProducts
  | baseInfo :: rest =>
      console Log (" [" ++ Js.showNat catalogPageCount ++ "-" ++ Js.showNat (i + 1)
                   ++ "/" ++ Js.showNat len ++ "] Processing SKU: "
                   ++ Js.show (b_sku baseInfo) ++ " ("
                   ++ Js.show (b_name baseInfo) ++ ")") ;;
      match Js.oOrNull (b_productPageUrl baseInfo) with
      | None =>
          console Warn (" -> Skipping detail fetch for product " ++ Js.dq
                        ++ Js.show (b_name baseInfo) ++ Js.dq ++ " (SKU: "
                        ++ Js.show (b_sku baseInfo)
                        ++ ") due to missing product page URL.") ;;
          productsLoop catalogPageCount len (S i) rest allProducts
      | Some url =>
          details <- scrapeProductDetails url ;;
          let fullProductInfo := withDetails baseInfo details in
          sleep DELAY_BETWEEN_PRODUCT_REQUESTS_MS ;;
          productsLoop catalogPageCount len (S i) rest
            (allProducts ++ [fullProductInfo])
      end
  end.

(** The [while] loop of [scrapeAllPages]; [fuel] as in the first crawler. *)
Fixpoint pagesLoop (fuel : nat) (currentCatalogPageUrl : option string)
    (catalogPageCount : nat) (allProducts : list Product)
    : M (list Product * nat) :=
  match currentCatalogPageUrl with
  | Some url =>
      if Js.truthy url && (catalogPageCount <? MAX_CATALOG_PAGES)%nat then
        match fuel with
        | 0 => ret (allProducts, catalogPageCount)
        | S fuel' =>
            let catalogPageCount := S catalogPageCount in
            '(productsBaseInfo, nextPageUrl) <- scrapeCatalogPage url ;;
            if (List.length productsBaseInfo =? 0)%nat && (1 <? catalogPageCount)%nat then
              console Log ("No products found on catalog page "
                           ++ Js.showNat catalogPageCount
                           ++ ", stopping catalog pagination.") ;;
              ret (allProducts, catalogPageCount)
            else
              console Log ("Found " ++ Js.showNat (List.length productsBaseInfo)
                           ++ " products on catalog page "
                           ++ Js.showNat catalogPageCount ++ ". Fetching details...") ;;
              allProducts <- productsLoop catalogPageCount
                               (List.length productsBaseInfo) 0 productsBaseInfo
                               allProducts ;;
              if Js.strictEq nextPageUrl currentCatalogPageUrl then
                console Log "Next catalog page URL is the same as current, stopping." ;;
                ret (allProducts, catalogPageCount)
              else pagesLoop fuel' nextPageUrl catalogPageCount allProducts
        end
      else ret (allProducts, catalogPageCount)
  | None => ret (allProducts, catalogPageCount)
  end.

Definition ceilingMessage : string :=
  "Reached maximum catalog page limit (" ++ Js.showNat MAX_CATALOG_PAGES
    ++ "). Stopping.".

(** [scrapeAllPages], with the products and the page count it reports. *)
Definition scrapeAllPages : M (list Product * nat) :=
  console Log "Starting scraper..." ;;
  '(allProducts, catalogPageCount) <-
    pagesLoop MAX_CATALOG_PAGES (Some START_URL) 0 [] ;;
  (if (MAX_CATALOG_PAGES <=? catalogPageCount)%nat
   then console Warn ceilingMessage else ret tt) ;;
  console Log (Js.nl ++ "Scraping finished. Scraped details for "
               ++ Js.showNat (List.length allProducts) ++ " products from "
               ++ Js.showNat catalogPageCount ++ " catalog pages.") ;;
  (if (0 <? List.length allProducts)%nat then
     console Log "Converting data to WooCommerce CSV format..." ;;
     ok <- writeFile E (convertToWooCommerceCSV allProducts) ;;
     if ok then
       console Log ("Successfully wrote " ++ Js.showNat (List.length allProducts)
                    ++ " products to " ++ OUTPUT_CSV_FILE)
     else
       console Error ("Error converting or writing CSV to file " ++ OUTPUT_CSV_FILE)
   else console Log "No products were scraped, skipping CSV file generation.") ;;
  ret (allProducts, catalogPageCount).

End Crawler.

End UrlSku.

(* ================================================================== *)
(** * [src/category-specific-scraper.ts]: the crawler grouped by car *)
(* ================================================================== *)

Module ByCar.

Record Product := {
  sku : option string;
  siteCode : option string;
  name : option string;
  price : option Js.number;
  imageUrl : option string;
  productPageUrl : option string;
  manufacturerCode : option string;
  isInStock : bool;
  brandCode : option string;
  modelName : option string;
  yearRange : option string
}.

(** [productBase.manufacturerCode = manufacturerCode]. *)
Definition setManufacturerCode (p : Product) (code : option string) : Product :=
  {| sku := sku p; siteCode := siteCode p; name := name p; price := price p;
     imageUrl := imageUrl p; productPageUrl := productPageUrl p;
     manufacturerCode := code; isInStock := isInStock p;
     brandCode := brandCode p; modelName := modelName p;
     yearRange := yearRange p |}.

Definition BRAND_CODE_TO_NAME_MAP : list (string * string) :=
  [ ("AC", "Acura"); ("AF", "Alfa Romeo"); ("AD", "Audi"); ("AT", "Austin");
    ("BMW", "BMW"); ("BU ", "Buick"); ("CD", "Cadillac"); ("CV", "Chevrolet");
    ("CH", "Chrysler"); ("CT", "Citroen"); ("DC", "Dacia"); ("DA", "Daewoo");
    ("DAF", "DAF"); ("DH", "Daihatsu"); ("DG", "Dodge"); ("DS", "DS");
    ("FT", "Fiat"); ("FD", "Ford"); ("HN", "Honda"); ("HUMMER", "Hummer");
    ("HY", "Hyundai"); ("IN", "Infiniti"); ("IS", "Isuzu"); ("IV", "Iveco");
    ("JG", "Jaguar"); ("JP", "Jeep"); ("KS", "Kassbohrer"); ("KIA", "KIA");
    ("LN", "Lancia"); ("LR", "Land Rover"); ("LX", "Lexus"); ("LC", "Lincoln");
    ("MA", "MA"); ("MAN", "MAN"); ("MZ", "Mazda"); ("MB", "Mercedes-Benz");
    ("MINI", "Mini"); ("MT", "Mitsubishi"); ("MOS", "Moskvitch");
    ("NS", "Nissan"); ("OL", "Oldsmobile"); ("OP", "Opel"); ("PG", "Peugeot");
    ("PL", "Plymouth"); ("PT", "Pontiac"); ("PO", "Porsche"); ("RN", "Renault");
    ("RO", "Rover"); ("SAAB", "SAAB"); ("SC", "Scania"); ("SE", "Seat");
    ("SETRA", "Setra"); ("SK", "Skoda"); ("SMART", "Smart"); ("SY", "SsangYong");
    ("SB", "Subaru"); ("SZ", "Suzuki"); ("TESLA", "Tesla"); ("TT", "Toyota");
    ("TRIUMPH", "TRIUMPH"); ("VAZ", "VAZ"); ("VW", "Volkswagen");
    ("VV", "Volvo"); ("ZAZ", "Zaz") ].

(** The members that the map, a plain object, inherits from
    [Object.prototype], each with the text Node gives it when it is joined
    to a string: the source text of a built-in function, and
    [[object Object]] for the prototype itself. *)
Definition OBJECT_PROTOTYPE_MEMBERS : list (string * string) :=
  [ ("constructor", "function Object() { [native code] }");
    ("__defineGetter__", "function __defineGetter__() { [native code] }");
    ("__defineSetter__", "function __defineSetter__() { [native code] }");
    ("hasOwnProperty", "function hasOwnProperty() { [native code] }");
    ("__lookupGetter__", "function __lookupGetter__() { [native code] }");
    ("__lookupSetter__", "function __lookupSetter__() { [native code] }");
    ("isPrototypeOf", "function isPrototypeOf() { [native code] }");
    ("propertyIsEnumerable", "function propertyIsEnumerable() { [native code] }");
    ("toString", "function toString() { [native code] }");
    ("valueOf", "function valueOf() { [native code] }");
    ("__proto__", "[object Object]");
    ("toLocaleString", "function toLocaleString() { [native code] }") ].

(** [BRAND_CODE_TO_NAME_MAP[code]], as a string would be made of it: the
    name under an own key, else the text of the inherited member the code
    names, else [undefined]. *)
Definition brandName (code : string) : option string :=
  match Url.lookup BRAND_CODE_TO_NAME_MAP code with
  | Some name => Some name
  | None => Url.lookup OBJECT_PROTOTYPE_MEMBERS code
  end.

Definition BASE_URL : string := "https://www.fastdeliverycarparts.com".
Definition DATA_SOURCE_URL : string := "https://www.fastdeliverycarparts.com/katalogs/".
Definition OUTPUT_CSV_FILE : string := "woocommerce_products_by_car.csv".
Definition DELAY_BETWEEN_CATALOG_PAGES_MS : nat := 100.
Definition DELAY_BETWEEN_PRODUCT_REQUESTS_MS : nat := 100.
Definition DELAY_BETWEEN_CARS_MS : nat := 200.

(** The two caps, which the source lets be a number or [Infinity]. *)
Record Config := {
  MAX_PRODUCTS_PER_CAR : Js.limit;
  MAX_TOTAL_PRODUCTS : Js.limit
}.

(** The values in the source. *)
Definition sourceConfig : Config :=
  {| MAX_PRODUCTS_PER_CAR := Js.Infinity; MAX_TOTAL_PRODUCTS := Js.Finite 1500 |}.

(** How a run of [scrapeAllCars] ended; [OutOfFuel] stands for a leaf walk
    that was still running when the model's page allowance was used up. *)
Inductive Outcome := ConfigurationFailed | InitFailed | Completed | OutOfFuel.

(** The run-scoped variables of [scrapeAllCars] when it ended. *)
Record Run := {
  outcome : Outcome;
  isHeaderWritten : bool;
  totalProductsScraped : nat
}.

(** How a loop body of [scrapeAllCars] hands control back. *)
Inductive Signal := Continue | BreakModelLoop | BreakBrandLoop | Starved.

Section Crawler.
Variable E : Env.
Variable cfg : Config.

(** The [brandModels] object of the data page, where it can be read. *)
Definition parseBrandModels : option BrandModelsData :=
  match brandPage E with
  | Some (Some brandModelsString) => runScript E ("(" ++ brandModelsString ++ ")")
  | _ => None
  end.

Definition getBrandModelsData : M (option BrandModelsData) :=
  console Log ("Fetching brand/model data from " ++ DATA_SOURCE_URL ++ "...") ;;
  r <- getBrandPage E DATA_SOURCE_URL ;;
  match r with
  | Some (Some brandModelsString) =>
      match runScript E ("(" ++ brandModelsString ++ ")") with
      | Some parsedData =>
          console Log "Successfully parsed brand/model data." ;;
          ret (Some parsedData)
      | None =>
          console Error "Error fetching or parsing brandModels data:" ;;
          ret None
      end
  | Some None =>
      console Error "Could not find brandModels script tag or data in HTML." ;;
      ret None
  | None =>
      console Error "Error fetching or parsing brandModels data:" ;;
      ret None
  end.

Definition scrapeProductDetails (url : string) : M (option string) :=
  if negb (Js.truthy url) then
    console Warn "Skipping detail scraping due to missing URL." ;;
    ret None
  else
    console Log ("   -> Fetching details from: " ++ url) ;;
    r <- getDetail E url ;;
    match r with
    | Some doc => ret (Js.orNull (trim E (tabsText doc)))
    | None =>
        console Error ("   -> Error fetching/parsing product details page " ++ url) ;;
        ret None
    end.

(** The body of the [.each] callback of [scrapeCarCatalogPage]. *)
Definition scrapeItem (brandCode modelName yearRange : string) (el : ItemElement)
    : M Product :=
  let name := Js.orNull (trim E (productNameText el)) in
  let sku := option_map (dashWhitespace E) name in
  let codeText := trim E (detailCodeText el) in
  let siteCode :=
    if Js.truthy codeText then
      match Js.oOrNull (matchDetailCode E codeText) with
      | Some group1 => Some (trim E group1)
      | None => None
      end
    else None in
  let price :=
    match Js.oOrNull (priceDataOrig el) with
    | Some priceStr => parseFloat E priceStr
    | None => None
    end in
  productPageUrl <-
    match Js.oOrNull (productHref el) with
    | Some relativeProductUrl =>
        match resolve E relativeProductUrl BASE_URL with
        | Some u => ret (Some u)
        | None =>
            console Warn (" -> Could not construct product URL: "
                          ++ relativeProductUrl) ;;
            ret None
        end
    | None => ret None
    end ;;
  imageUrl <-
    match Js.oOrNull (imgSrc el) with
    | Some relativeImageUrl =>
        match resolve E relativeImageUrl BASE_URL with
        | Some u => ret (Some u)
        | None =>
            console Warn (" -> Could not construct image URL: "
                          ++ relativeImageUrl) ;;
            ret None
        end
    | None => ret None
    end ;;
  let imageUrl :=
    if negb (Js.otruthy imageUrl) then
      match resolve E "/img/default-image.png" BASE_URL with
      | Some u => Some u
      | None => imageUrl
      end
    else imageUrl in
  let isInStock :=
    match availabilityGreen el with
    | Some spans => anyStockNumber E spans
    | None => false
    end in
  ret {| sku := sku; siteCode := siteCode; name := name; price := price;
         imageUrl := imageUrl; productPageUrl := productPageUrl;
         manufacturerCode := None; isInStock := isInStock;
         brandCode := Some brandCode; modelName := Some modelName;
         yearRange := Some yearRange |}.

Fixpoint scrapeItems (brandCode modelName yearRange : string)
    (els : list ItemElement) : M (list Product) :=
  match els with
  | [] => ret []
  | el :: rest =>
      p <- scrapeItem brandCode modelName yearRange el ;;
      ps <- scrapeItems brandCode modelName yearRange rest ;;
      ret (p :: ps)
  end.

(** The next-page locator: the filter parameters the link lacks are copied
    from the current URL, and [pp] always. *)
Definition nextPage (url nextLink : string) : option string :=
  match newURL E nextLink (Some BASE_URL) with
  | Some nextFullUrl =>
      match newURL E url None with
      | Some currentUrl =>
          let copyMissing (k : string) (nextFullUrl : Url.URL) : Url.URL :=
            if negb (Url.has nextFullUrl k) then
              match Url.get currentUrl k with
              | Some v => Url.set (serialize E) nextFullUrl k v
              | None => nextFullUrl
              end
            else nextFullUrl in
          let copy (k : string) (nextFullUrl : Url.URL) : Url.URL :=
            match Url.get currentUrl k with
            | Some v => Url.set (serialize E) nextFullUrl k v
            | None => nextFullUrl
            end in
          Some (Url.href
                  (copy "pp"
                     (copyMissing "year"
                        (copyMissing "model" (copyMissing "brand" nextFullUrl)))))
      | None => None
      end
  | None => None
  end.

(** [scrapeCarCatalogPage]; [readCarCatalogPage] is what it does with the
    response, [None] when the request or the parse threw. *)
Definition readCarCatalogPage (url brandCode modelName yearRange : string)
    (response : option ListingDoc) : M (list Product * option string) :=
  match response with
  | Some doc =>
      productsFromPage <- scrapeItems brandCode modelName yearRange (items doc) ;;
      nextPageUrl <-
        match Js.oOrNull (nextHref doc) with
        | Some nextLink =>
            match nextPage url nextLink with
            | Some u => ret (Some u)
            | None =>
                console Warn (" -> Could not construct next page URL for car: "
                              ++ nextLink) ;;
                ret None
            end
        | None => ret None
        end ;;
      ret (productsFromPage, nextPageUrl)
  | None =>
      console Error (" -> Error fetching or parsing catalog page " ++ url) ;;
      ret ([], None)
  end.

Definition scrapeCarCatalogPage (url brandCode modelName yearRange : string)
    : M (list Product * option string) :=
  console Log (" -> Fetching catalog page: " ++ url) ;;
  response <- getListing E url ;;
  readCarCatalogPage url brandCode modelName yearRange response.

(** The [for ... of] loop over the products of one page. *)
Fixpoint carProductsLoop (productsFromPage carProducts : list Product)
    (productCountForCar : nat) : M (list Product * nat) :=
  match productsFromPage with
  | [] => ret (carProducts, productCountForCar)
  | productBase :: rest =>
      if Js.reached productCountForCar (MAX_PRODUCTS_PER_CAR cfg) then
        console Log ("  -> Reached MAX_PRODUCTS_PER_CAR limit ("
                     ++ Js.showLimit (MAX_PRODUCTS_PER_CAR cfg) ++ ") for this car.") ;;
        ret (carProducts, productCountForCar)
      else
        console Log ("    Processing [" ++ Js.showNat (productCountForCar + 1)
                     ++ "]: " ++ Js.show (sku productBase)) ;;
        productBase <-
          match Js.oOrNull (productPageUrl productBase) with
          | Some url =>
              manufacturerCode <- scrapeProductDetails url ;;
              sleep DELAY_BETWEEN_PRODUCT_REQUESTS_MS ;;
              ret (setManufacturerCode productBase manufacturerCode)
          | None =>
              console Warn ("    -> Skipping detail fetch for "
                            ++ Js.show (sku productBase) ++ " - missing URL.") ;;
              ret productBase
          end ;;
        carProductsLoop rest (carProducts ++ [productBase]) (S productCountForCar)
  end.

(** The [while] loop of [scrapeSingleCar].  Nothing in the source bounds the
    number of its turns when the cap is [Infinity]: [fuel] is the number of
    pages the model lets it fetch, and [None] says that it wanted more. *)
Fixpoint carPagesLoop (fuel : nat) (brandCode modelName yearRange : string)
    (currentCarCatalogUrl : option string)
    (productCountForCar pageCountForCar : nat) (carProducts : list Product)
    : M (option (list Product * nat)) :=
  match Js.oOrNull currentCarCatalogUrl with
  | Some url =>
      if negb (Js.reached productCountForCar (MAX_PRODUCTS_PER_CAR cfg)) then
        match fuel with
        | 0 => ret None
        | S fuel' =>
            let pageCountForCar := S pageCountForCar in
            '(productsFromPage, nextPageUrl) <-
              scrapeCarCatalogPage url brandCode modelName yearRange ;;
            if (List.length productsFromPage =? 0)%nat && (1 <? pageCountForCar)%nat then
              console Log (" -> No more products found for this car on page "
                           ++ Js.showNat pageCountForCar ++ ".") ;;
              ret (Some (carProducts, productCountForCar))
            else
              console Log ("  -> Found " ++ Js.showNat (List.length productsFromPage)
                           ++ " products on page " ++ Js.showNat pageCountForCar
                           ++ ". Fetching details...") ;;
              '(carProducts, productCountForCar) <-
                carProductsLoop productsFromPage carProducts productCountForCar ;;
              if Js.reached productCountForCar (MAX_PRODUCTS_PER_CAR cfg) then
                ret (Some (carProducts, productCountForCar))
              else
                (if Js.otruthy nextPageUrl
                 then sleep DELAY_BETWEEN_CATALOG_PAGES_MS else ret tt) ;;
                carPagesLoop fuel' brandCode modelName yearRange nextPageUrl
                  productCountForCar pageCountForCar carProducts
        end
      else ret (Some (carProducts, productCountForCar))
  | None => ret (Some (carProducts, productCountForCar))
  end.

(** The start URL of a leaf. *)
Definition carUrl (brandCode modelName yearRange : string) : string :=
  BASE_URL ++ "/katalogs/?brand=" ++ brandCode ++ "&model="
    ++ encodeURIComponent E modelName ++ "&year="
    ++ encodeURIComponent E yearRange.

(** [scrapeSingleCar]: all products of one (brand, model, year range). *)
Definition scrapeSingleCar (fuel : nat) (brandCode modelName yearRange : string)
    : M (option (list Product)) :=
  console Log (Js.nl ++ "--- Scraping Car: " ++ brandCode ++ " / " ++ modelName
               ++ " / " ++ yearRange ++ " ---") ;;
  r <- carPagesLoop fuel brandCode modelName yearRange
         (Some (carUrl brandCode modelName yearRange)) 0 0 [] ;;
  match r with
  | Some (carProducts, productCountForCar) =>
      console Log ("--- Finished Car: " ++ brandCode ++ " / " ++ modelName ++ " / "
                   ++ yearRange ++ ". Found " ++ Js.showNat productCountForCar
                   ++ " products ---") ;;
      ret (Some carProducts)
  | None => ret None
  end.

(** The Categories column: brand name, model and year range joined. *)
Definition categoryString (p : Product) : string :=
  let brand :=
    match Js.oOrNull (brandCode p) with
    | Some code => Js.orElse (brandName code) code
    | None => ""
    end in
  let c1 := if Js.truthy brand then brand else "" in
  let c2 :=
    match Js.oOrNull (modelName p) with
    | Some m => (c1 ++ (if Js.truthy c1 then " > " else "") ++ m)%string
    | None => c1
    end in
  match Js.oOrNull (yearRange p) with
  | Some y =>
      (c2 ++ (if Js.truthy c2 then " > " else "") ++ Js.replaceFirst "->" "-" y)%string
  | None => c2
  end.

Definition toRow (index : nat) (p : Product) : list string :=
  Csv.row ""
    (Js.orElse (sku p) ("MISSING-SKU-" ++ Js.orElse (siteCode p) (Js.showNat index)))
    (Js.orElse (name p) ("Unnamed Product " ++ Js.orElse (siteCode p) (Js.showNat index)))
    (Csv.description (manufacturerCode p) (siteCode p))
    (if isInStock p then "1" else "0")
    (Csv.priceText (price p))
    (categoryString p)
    (Js.orElse (imageUrl p) "").

Definition convertBatchToWooCommerceCSV (productsBatch : list Product)
    (includeHeader : bool) : string :=
  Csv.unparse Csv.COLUMNS (NameSku.mapIndexed toRow 0 productsBatch) includeHeader.

(** The block "Save Batch for the Current Brand" of [scrapeAllCars]; the
    result is [isHeaderWritten] after it. *)
Definition saveBatch (brandCode : string) (productsForThisBrand : list Product)
    (isHeaderWritten : bool) : M bool :=
  if (0 <? List.length productsForThisBrand)%nat then
    console Log (Js.nl ++ "Converting and saving batch for Brand: " ++ brandCode
                 ++ " (" ++ Js.showNat (List.length productsForThisBrand)
                 ++ " products)") ;;
    let csvDataBatch :=
      convertBatchToWooCommerceCSV productsForThisBrand (negb isHeaderWritten) in
    if negb isHeaderWritten then
      ok <- writeFile E csvDataBatch ;;
      if ok then
        console Log (" -> Header written and first batch saved for " ++ brandCode ++ ".") ;;
        ret true
      else
        console Error ("Error converting or writing batch CSV for brand "
                       ++ brandCode ++ ":") ;;
        ret isHeaderWritten
    else
      let dataRowsOnlyString :=
        convertBatchToWooCommerceCSV productsForThisBrand false in
      if (0 <? String.length (trim E dataRowsOnlyString))%nat then
        fileStat <- stat E ;;
        let prependNewline :=
          match fileStat with
          | Some size => if (0 <? size)%nat then Csv.CRLF else ""
          | None => ""
          end in
        ok <- appendFile E (prependNewline ++ dataRowsOnlyString) ;;
        if ok then
          console Log (" -> Appended batch for " ++ brandCode ++ ".") ;;
          ret isHeaderWritten
        else
          console Error ("Error converting or writing batch CSV for brand "
                         ++ brandCode ++ ":") ;;
          ret isHeaderWritten
      else
        console Log (" -> Skipping append for " ++ brandCode
                     ++ " as batch data is empty.") ;;
        ret isHeaderWritten
  else
    console Log (" -> No products found or added for Brand: " ++ brandCode
                 ++ " in this run. Skipping save.") ;;
    ret isHeaderWritten.

Definition limitMessage : string :=
  Js.nl ++ "Reached MAX_TOTAL_PRODUCTS limit ("
    ++ Js.showLimit (MAX_TOTAL_PRODUCTS cfg) ++ ")".

(** The loop over the year ranges of one model. *)
Fixpoint yearLoop (fuel : nat) (brandCode modelName : string)
    (yearRanges : list string) (productsForThisBrand : list Product)
    (totalProductsScraped : nat) : M (Signal * list Product * nat) :=
  match yearRanges with
  | [] => ret (Continue, productsForThisBrand, totalProductsScraped)
  | yearRange :: rest =>
      if Js.reached totalProductsScraped (MAX_TOTAL_PRODUCTS cfg) then
        console Log (limitMessage ++ ". Stopping scraping.") ;;
        ret (BreakBrandLoop, productsForThisBrand, totalProductsScraped)
      else
        r <- scrapeSingleCar fuel brandCode modelName yearRange ;;
        match r with
        | None => ret (Starved, productsForThisBrand, totalProductsScraped)
        | Some productsForThisCarModelYear =>
            let productsToAdd :=
              Js.sliceTo productsForThisCarModelYear (MAX_TOTAL_PRODUCTS cfg)
                totalProductsScraped in
            let productsForThisBrand := (productsForThisBrand ++ productsToAdd)%list in
            let totalProductsScraped :=
              totalProductsScraped + List.length productsToAdd in
            if Js.reached totalProductsScraped (MAX_TOTAL_PRODUCTS cfg) then
              console Log (limitMessage ++ " during " ++ brandCode ++ " "
                           ++ modelName ++ " " ++ yearRange ++ ".") ;;
              ret (BreakModelLoop, productsForThisBrand, totalProductsScraped)
            else
              sleep DELAY_BETWEEN_CARS_MS ;;
              yearLoop fuel brandCode modelName rest productsForThisBrand
                totalProductsScraped
        end
  end.

(** The loop labelled [modelLoop]. *)
Fixpoint modelLoop (fuel : nat) (brandCode : string)
    (models : list (string * list string)) (productsForThisBrand : list Product)
    (totalProductsScraped : nat) : M (Signal * list Product * nat) :=
  match models with
  | [] => ret (Continue, productsForThisBrand, totalProductsScraped)
  | (modelName, yearRanges) :: rest =>
      '(signal, productsForThisBrand, totalProductsScraped) <-
        yearLoop fuel brandCode modelName yearRanges productsForThisBrand
          totalProductsScraped ;;
      match signal with
      | Continue =>
          if Js.reached totalProductsScraped (MAX_TOTAL_PRODUCTS cfg)
          then ret (BreakModelLoop, productsForThisBrand, totalProductsScraped)
          else modelLoop fuel brandCode rest productsForThisBrand totalProductsScraped
      | _ => ret (signal, productsForThisBrand, totalProductsScraped)
      end
  end.

(** The loop labelled [brandLoop]. *)
Fixpoint brandLoop (fuel : nat) (brandModels : BrandModelsData)
    (isHeaderWritten : bool) (totalProductsScraped : nat) : M Run :=
  match brandModels with
  | [] => ret {| outcome := Completed; isHeaderWritten := isHeaderWritten;
                 totalProductsScraped := totalProductsScraped |}
  | (brandCode, models) :: rest =>
      console Log (Js.nl ++ "Processing Brand: " ++ brandCode ++ " ("
                   ++ Js.orElse (brandName brandCode) "Unknown" ++ ")") ;;
      '(signal, productsForThisBrand, totalProductsScraped) <-
        modelLoop fuel brandCode models [] totalProductsScraped ;;
      match signal with
      | BreakBrandLoop =>
          ret {| outcome := Completed; isHeaderWritten := isHeaderWritten;
                 totalProductsScraped := totalProductsScraped |}
      | Starved =>
          ret {| outcome := OutOfFuel; isHeaderWritten := isHeaderWritten;
                 totalProductsScraped := totalProductsScraped |}
      | _ =>
          isHeaderWritten <- saveBatch brandCode productsForThisBrand isHeaderWritten ;;
          if Js.reached totalProductsScraped (MAX_TOTAL_PRODUCTS cfg) then
            console Log (limitMessage ++ " after processing brand " ++ brandCode
                         ++ ". Stopping all scraping.") ;;
            ret {| outcome := Completed; isHeaderWritten := isHeaderWritten;
                   totalProductsScraped := totalProductsScraped |}
          else brandLoop fuel rest isHeaderWritten totalProductsScraped
      end
  end.

(** [scrapeAllCars], with the run-scoped variables it ends with. *)
Definition scrapeAllCars (fuel : nat) : M Run :=
  brandModels <- getBrandModelsData ;;
  match brandModels with
  | None =>
      console Error "Cannot proceed without brand/model data." ;;
      ret {| outcome := ConfigurationFailed; isHeaderWritten := false;
             totalProductsScraped := 0 |}
  | Some brandModels =>
      ok <- writeFile E "" ;;
      if ok then
        console Log ("Initialized output file: " ++ OUTPUT_CSV_FILE) ;;
        console Log (Js.nl ++ "Starting scraping process for all cars...") ;;
        run <- brandLoop fuel brandModels false 0 ;;
        match outcome run with
        | Completed =>
            console Log (Js.nl ++ "Scraping finished. Total products saved (up to limit): "
                         ++ Js.showNat (totalProductsScraped run) ++ ".") ;;
            console Log ("Output file: " ++ OUTPUT_CSV_FILE) ;;
            ret run
        | _ => ret run
        end
      else
        console Error ("Error initializing output file " ++ OUTPUT_CSV_FILE ++ ":") ;;
        ret {| outcome := InitFailed; isHeaderWritten := false;
               totalProductsScraped := 0 |}
  end.

End Crawler.

End ByCar.

(* ================================================================== *)
(** * A concrete host and small sites, for the examples *)
(* ================================================================== *)

Module Demo.

Definition isSpace (c : ascii) : bool :=
  match nat_of_ascii c with
  | 9 | 10 | 11 | 12 | 13 | 32 => true
  | _ => false
  end.

Fixpoint trimStart (s : string) : string :=
  match s with
  | EmptyString => EmptyString
  | String c r => if isSpace c then trimStart r else s
  end.

Fixpoint trimEnd (s : string) : string :=
  match s with
  | EmptyString => EmptyString
  | String c r =>
      let r' := trimEnd r in
      if isSpace c && negb (Js.truthy r') then EmptyString else String c r'
  end.

(** [String.prototype.trim] on ASCII white space. *)
Definition asciiTrim (s : string) : string := trimEnd (trimStart s).

Fixpoint dashRuns (inRun : bool) (s : string) : string :=
  match s with
  | EmptyString => EmptyString
  | String c r =>
      if isSpace c
      then (if inRun then dashRuns true r else String "-" (dashRuns true r))
      else String c (dashRuns false r)
  end.

Definition isDecimalChar (c : ascii) : bool := Js.isDigit c || Ascii.eqb c ".".

Fixpoint onlyDecimal (s : string) : bool :=
  match s with
  | EmptyString => true
  | String c r => isDecimalChar c && onlyDecimal r
  end.

(** [parseFloat] on plain decimal literals that are already canonical. *)
Definition decimalParseFloat (s : string) : option Js.number :=
  if Js.truthy s && onlyDecimal s then Some {| Js.toString := s |} else None.

Fixpoint afterFirst (pat s : string) : option string :=
  if String.prefix pat s
  then Some (String.substring (String.length pat) (String.length s - String.length pat) s)
  else
    match s with
    | EmptyString => None
    | String _ r => afterFirst pat r
    end.

Fixpoint takeLine (s : string) : string :=
  match s with
  | EmptyString => EmptyString
  | String c r =>
      if Ascii.eqb c Csv.LF || Ascii.eqb c Csv.CR then EmptyString
      else String c (takeLine r)
  end.

(** Group 1 of the part-code regular expression. *)
Definition partCodeGroup (s : string) : option string :=
  option_map (fun r => takeLine (trimStart r)) (afterFirst "Detaļas kods:" s).

Definition isAlnum (c : ascii) : bool :=
  let n := nat_of_ascii c in
  ((48 <=? n)%nat && (n <=? 57)%nat) || ((65 <=? n)%nat && (n <=? 90)%nat)
  || ((97 <=? n)%nat && (n <=? 122)%nat).

Definition hexDigit (n : nat) : ascii :=
  match String.get n "0123456789ABCDEF" with
  | Some c => c
  | None => "0"%char
  end.

Definition percent (c : ascii) : string :=
  let n := nat_of_ascii c in
  String "%" (String (hexDigit (n / 16)) (String (hexDigit (n mod 16)) "")).

Definition oneOf (set : string) (c : ascii) : bool :=
  Js.includes set (String c "").

Fixpoint encodeComponent (s : string) : string :=
  match s with
  | EmptyString => EmptyString
  | String c r =>
      (if isAlnum c || oneOf "-_.!~*'()" c then String c "" else percent c)
        ++ encodeComponent r
  end.

(** The form-urlencoded serializer of [URLSearchParams]. *)
Fixpoint formEncode (s : string) : string :=
  match s with
  | EmptyString => EmptyString
  | String c r =>
      (if isAlnum c || oneOf "*-._" c then String c ""
       else if Ascii.eqb c " " then "+" else percent c)
        ++ formEncode r
  end.

Definition formSerialize (ps : Url.Params) : string :=
  String.concat "&" (map (fun kv => formEncode (fst kv) ++ "=" ++ formEncode (snd kv)) ps).

Definition hexValue (c : ascii) : option nat :=
  let n := nat_of_ascii c in
  if (48 <=? n)%nat && (n <=? 57)%nat then Some (n - 48)
  else if (65 <=? n)%nat && (n <=? 70)%nat then Some (n - 55)
  else if (97 <=? n)%nat && (n <=? 102)%nat then Some (n - 87)
  else None.

Fixpoint formDecode (s : string) : string :=
  match s with
  | EmptyString => EmptyString
  | String c r =>
      match c, r with
      | "%"%char, String h (String l r') =>
          match hexValue h, hexValue l with
          | Some a, Some b => String (ascii_of_nat (16 * a + b)) (formDecode r')
          | _, _ => String c (formDecode r)
          end
      | "+"%char, _ => String " " (formDecode r)
      | _, _ => String c (formDecode r)
      end
  end.

(** [s] cut at the first [c]: what stands before, and what stands after. *)
Fixpoint cutAt (c : ascii) (s : string) : string * option string :=
  match s with
  | EmptyString => (EmptyString, None)
  | String d r =>
      if Ascii.eqb d c then (EmptyString, Some r)
      else let (a, b) := cutAt c r in (String d a, b)
  end.

Definition parseQuery (q : string) : Url.Params :=
  if Js.truthy q then
    map (fun kv => let (k, v) := cutAt "=" kv in
                   (formDecode k, formDecode (match v with Some v => v | None => "" end)))
        (Js.split "&" q)
  else [].

(** [new URL(input, base)] for absolute inputs and for inputs relative to a
    base that is an origin. *)
Definition parseURL (input : string) (base : option string) : option Url.URL :=
  let absolute :=
    if String.prefix "https://" input || String.prefix "http://" input
    then Some input
    else
      match base with
      | Some b => Some (if String.prefix "/" input then b ++ input else b ++ "/" ++ input)
      | None => None
      end in
  match absolute with
  | Some a =>
      let (beforeHash, fragment) := cutAt "#" a in
      let (pre, q) := cutAt "?" beforeHash in
      let search := match q with Some q => q | None => "" end in
      Some {| Url.url_prefix := pre; Url.url_search := search;
              Url.url_params := parseQuery search;
              Url.url_fragment :=
                match fragment with Some f => "#" ++ f | None => "" end |}
  | None => None
  end.

(** An environment from a site, with the host above and a file system that
    fails on the operations listed in [failing]. *)
Definition env (listing : string -> option ListingDoc)
    (detail : string -> option DetailDoc) (brands : option (option string))
    (script : string -> option BrandModelsData) (failing : list nat) : Env :=
  {| trim := asciiTrim;
     parseFloat := decimalParseFloat;
     dashWhitespace := dashRuns false;
     matchDetailCode := partCodeGroup;
     encodeURIComponent := encodeComponent;
     newURL := parseURL;
     serialize := formSerialize;
     listingPage := listing;
     detailPage := detail;
     brandPage := brands;
     runScript := script;
     fsOk := fun n => negb (existsb (Nat.eqb n) failing) |}.

(** A catalogue item as the site prints it. *)
Definition item (name code price : string) (href : option string) : ItemElement :=
  {| productNameText := name;
     detailCodeText := "Detaļas kods: " ++ code;
     priceDataOrig := Some price;
     productHref := href;
     imgSrc := Some "/img/p/1.jpg";
     availabilityGreen := Some ["3 gab."] |}.

Definition detailDoc (code : string) (mainSrc : option string)
    (thumbList : list (option string * option string)) : DetailDoc :=
  {| tabsText := code; stockGreen := Some ["3 gab."]; mainImgSrc := mainSrc;
     thumbs := thumbList |}.

Definition noBrands : option (option string) := None.
Definition noScript (src : string) : option BrandModelsData := None.

(** ** Site 1: one listing page, two items, the second without a link *)

Definition site1_listing (url : string) : option ListingDoc :=
  if url =? NameSku.START_URL then
    Some {| items := [ item "Brake Pad" "BP-1" "12.5" (Some "/detala/101");
                       item "Oil Filter" "OF-2" "7" None ];
            nextHref := None |}
  else None.

Definition site1_detail (url : string) : option DetailDoc :=
  if url =? "https://www.fastdeliverycarparts.com/detala/101"
  then Some (detailDoc "MC-101" (Some "/img/p/__300/101.jpg") [])
  else None.

Definition site1 : Env := env site1_listing site1_detail noBrands noScript [].

(** ** Site 2: one item whose detail page cannot be fetched *)

Definition site2_listing (url : string) : option ListingDoc :=
  if url =? NameSku.START_URL then
    Some {| items := [ item "Wiper" "W-9" "4" (Some "/detala/102") ];
            nextHref := None |}
  else None.

Definition site2 : Env :=
  env site2_listing (fun _ => None) noBrands noScript [].

(** ** Site 3: an empty first page, then a page that links to itself *)

Definition page2_url : string :=
  "https://www.fastdeliverycarparts.com/katalogs/?page=2&cat="
    ++ formEncode (String.substring 51 (String.length NameSku.START_URL - 51)
                     NameSku.START_URL).

Definition site3_listing (url : string) : option ListingDoc :=
  if url =? NameSku.START_URL then
    Some {| items := []; nextHref := Some "/katalogs/?page=2" |}
  else if url =? page2_url then
    Some {| items := [ item "Brake Pad" "BP-1" "12.5" None ];
            nextHref := Some "/katalogs/?page=2" |}
  else None.

Definition site3 : Env := env site3_listing (fun _ => None) noBrands noScript [].

(** ** Site 4: like site 3, but the second page is empty and links on *)

Definition site4_listing (url : string) : option ListingDoc :=
  if url =? NameSku.START_URL then
    Some {| items := []; nextHref := Some "/katalogs/?page=2" |}
  else if url =? page2_url then
    Some {| items := []; nextHref := Some "/katalogs/?page=3" |}
  else None.

Definition site4 : Env := env site4_listing (fun _ => None) noBrands noScript [].

(** ** Site 5: one car whose two listing pages link to each other *)

Definition x5_page1 : string :=
  "https://www.fastdeliverycarparts.com/katalogs/?brand=BMW&model=X5&year=2010".
Definition x5_page2 : string :=
  "https://www.fastdeliverycarparts.com/katalogs/?brand=BMW&model=X5&year=2010&page=2".

Definition site5_listing (url : string) : option ListingDoc :=
  if url =? x5_page1 then
    Some {| items := [ item "Brake Pad" "BP-1" "12.5" None ];
            nextHref := Some "/katalogs/?brand=BMW&model=X5&year=2010&page=2" |}
  else if url =? x5_page2 then
    Some {| items := [ item "Oil Filter" "OF-2" "7" None ];
            nextHref := Some "/katalogs/?brand=BMW&model=X5&year=2010" |}
  else None.

Definition site5_tree : BrandModelsData := [ ("BMW", [ ("X5", ["2010"]) ]) ].

Definition site5 : Env :=
  env site5_listing (fun _ => None) (Some (Some "{BMW:{X5:[2010]}}"))
    (fun _ => Some site5_tree) [].

(** ** Site 6: one brand, one model, two year ranges of four items each *)

Definition fourItems (tag : string) : list ItemElement :=
  [ item ("Part A " ++ tag) "A" "1" None; item ("Part B " ++ tag) "B" "2" None;
    item ("Part C " ++ tag) "C" "3" None; item ("Part D " ++ tag) "D" "4" None ].

Definition site6_listing (url : string) : option ListingDoc :=
  if url =? "https://www.fastdeliverycarparts.com/katalogs/?brand=BMW&model=3%20Series&year=2010-%3E2015"
  then Some {| items := fourItems "old"; nextHref := None |}
  else if url =? "https://www.fastdeliverycarparts.com/katalogs/?brand=BMW&model=3%20Series&year=2016-%3E2020"
  then Some {| items := fourItems "new"; nextHref := None |}
  else None.

Definition site6_tree : BrandModelsData :=
  [ ("BMW", [ ("3 Series", ["2010->2015"; "2016->2020"]) ]) ].

Definition site6 : Env :=
  env site6_listing (fun _ => None) (Some (Some "{BMW:{}}"))
    (fun _ => Some site6_tree) [].

(** What a leaf of site 6 yields when it is walked alone. *)
Definition site6_leaf (yearRange : string) : list ByCar.Product :=
  match fst (ByCar.scrapeSingleCar site6 ByCar.sourceConfig 6 "BMW" "3 Series"
               yearRange (initial None)) with
  | Some products => products
  | None => []
  end.

(** ** Site 7: one car whose first two listing pages are empty *)

Definition site7_listing (url : string) : option ListingDoc :=
  if url =? x5_page1 then
    Some {| items := [];
            nextHref := Some "/katalogs/?brand=BMW&model=X5&year=2010&page=2" |}
  else if url =? x5_page2 then
    Some {| items := [];
            nextHref := Some "/katalogs/?brand=BMW&model=X5&year=2010&page=3" |}
  else None.

Definition site7 : Env :=
  env site7_listing (fun _ => None) (Some (Some "{BMW:{X5:[2010]}}"))
    (fun _ => Some site5_tree) [].

(** ** Site 8: two brands of one car each, four items per car; and the
    same site on a file system whose third operation (the [stat] before the
    first append) fails *)

Definition site8_tree : BrandModelsData :=
  [ ("BMW", [ ("3 Series", ["2010->2015"]) ]);
    ("AD", [ ("3 Series", ["2016->2020"]) ]) ].

Definition site8_listing (url : string) : option ListingDoc :=
  if url =? "https://www.fastdeliverycarparts.com/katalogs/?brand=BMW&model=3%20Series&year=2010-%3E2015"
  then Some {| items := fourItems "old"; nextHref := None |}
  else if url =? "https://www.fastdeliverycarparts.com/katalogs/?brand=AD&model=3%20Series&year=2016-%3E2020"
  then Some {| items := fourItems "new"; nextHref := None |}
  else None.

Definition site8 : Env :=
  env site8_listing (fun _ => None) (Some (Some "{BMW:{},AD:{}}"))
    (fun _ => Some site8_tree) [].

Definition site8_statFails : Env :=
  env site8_listing (fun _ => None) (Some (Some "{BMW:{},AD:{}}"))
    (fun _ => Some site8_tree) [2].

Definition budget5 : ByCar.Config :=
  {| ByCar.MAX_PRODUCTS_PER_CAR := Js.Infinity;
     ByCar.MAX_TOTAL_PRODUCTS := Js.Finite 5 |}.

End Demo.

(* ================================================================== *)
(** * Vocabulary of the statements *)
(* ================================================================== *)

(** Events that are operations on the output file. *)
Definition isFsEvent (e : Event) : bool :=
  match e with
  | WriteFile _ _ | AppendFile _ _ | Stat _ => true
  | _ => false
  end.

(** The console line of the page ceiling. *)
Definition isCeilingMessage (msg : string) : bool :=
  String.prefix "Reached maximum catalog page limit" msg.

Definition isCeilingLine (e : Event) : bool :=
  match e with
  | Console _ msg => isCeilingMessage msg
  | _ => false
  end.

(** What the detail merge stage may do: console lines other than the
    ceiling line, item-page requests, pauses. *)
Definition mergeEvent (e : Event) : bool :=
  match e with
  | Console _ msg => negb (isCeilingMessage msg)
  | GetDetail _ | Sleep _ => true
  | _ => false
  end.

(** What a pagination walk may do: the same, and listing-page requests. *)
Definition walkEvent (e : Event) : bool := mergeEvent e || isGetListing e.

(** What scraping may do in the grouped crawler. *)
Definition scrapeEvent (e : Event) : bool :=
  match e with
  | Console _ _ | GetListing _ | GetDetail _ | Sleep _ => true
  | _ => false
  end.

(** From [s] to [s'] the file system is left alone and only events in
    [allowed] are added. *)
Definition steps (allowed : Event -> bool) (s s' : Sys) : Prop :=
  file s' = file s /\ fsOps s' = fsOps s /\
  exists evs, trace s' = (evs ++ trace s)%list /\ forallb allowed evs = true.

(** [m] leaves the file system alone and only adds events in [allowed]. *)
Definition quiet (allowed : Event -> bool) {A} (m : M A) : Prop :=
  forall s, steps allowed s (snd (m s)).

(** The URLs of the listing pages requested, oldest first. *)
Definition listingUrls (t : list Event) : list string :=
  flat_map (fun e => match e with GetListing u => [u] | _ => [] end) (rev t).

(** The content of the output file, empty when there is none. *)
Definition content (s : Sys) : string :=
  match file s with Some c => c | None => "" end.

(** The candidate picture URLs of an item page: the main picture, then the
    thumbnails. *)
Definition mainCandidate (E : Env) (doc : DetailDoc) : list string :=
  match Js.oOrNull (mainImgSrc doc) with
  | Some src =>
      match resolve E src UrlSku.BASE_URL with
      | Some u => [Js.dropSizeSegment u]
      | None => []
      end
  | None => []
  end.

Definition thumbCandidates (E : Env) (ts : list (option string * option string))
    : list string :=
  flat_map
    (fun t : option string * option string =>
       match Js.oOrNull (fst t), Js.oOrNull (snd t) with
       | Some path, Some filename =>
           match resolve E (path ++ filename) UrlSku.BASE_URL with
           | Some u => [u]
           | None => []
           end
       | _, _ => []
       end)
    ts.

Definition pictureCandidates (E : Env) (doc : DetailDoc) : list string :=
  (mainCandidate E doc ++ thumbCandidates E (thumbs doc))%list.

Definition isRealPicture (u : string) : bool :=
  negb (Js.includes u UrlSku.PLACEHOLDER_NAME).

Definition realPictures (E : Env) (doc : DetailDoc) : list string :=
  filter isRealPicture (pictureCandidates E doc).



(** A text made of [n] data lines of the grouped crawler, each set off
    from the one before by a record separator or, after a [stat] that
    failed, by nothing. *)
Inductive DataText : nat -> string -> Prop :=
| DataText_one (i : nat) (p : ByCar.Product) :
    DataText 1 (Csv.line (ByCar.toRow i p))
| DataText_next (n : nat) (t : string) (i : nat) (p : ByCar.Product) :
    DataText n t -> DataText (S n) (t ++ Csv.CRLF ++ Csv.line (ByCar.toRow i p))
| DataText_runon (n : nat) (t : string) (i : nat) (p : ByCar.Product) :
    DataText n t -> DataText (S n) (t ++ Csv.line (ByCar.toRow i p)).

(** A record that opens with an empty quoted field, as every data line
    of the grouped crawler does (its ID column is empty). *)
Definition opensWithEmptyField (r : string) : bool :=
  String.prefix (String Csv.dquote (String Csv.dquote "")) r.

(** [total] is within the global budget. *)
Definition withinBudget (cfg : ByCar.Config) (total : nat) : Prop :=
  match ByCar.MAX_TOTAL_PRODUCTS cfg with
  | Js.Finite n => total <= n
  | Js.Infinity => True
  end.

(** From [s] to [s'] the trace has only grown. *)
Definition grows (s s' : Sys) : Prop :=
  exists evs, trace s' = (evs ++ trace s)%list.

(** [m] only adds to the trace. *)
Definition growing {A} (m : M A) : Prop := forall s, grows s (snd (m s)).

(** The state of the output file in a run of the grouped crawler that has
    written [isHeaderWritten] and counted [total] products. *)
Definition FileShape (isHeaderWritten : bool) (total : nat) (s : Sys) : Prop :=
  if isHeaderWritten then
    exists n t, DataText n t /\ n <= total /\
                file s = Some (Csv.HEADER_LINE ++ Csv.CRLF ++ t)
  else file s = Some "".

(* ================================================================== *)
(** * Vocabulary of the merge stage *)
(* ================================================================== *)

(** The manufacturer code an item page shows; [null] when the page cannot
    be fetched or shows none. *)
Definition manufacturerCodeAt (E : Env) (url : string) : option string :=
  match detailPage E url with
  | Some doc => Js.orNull (trim E (tabsText doc))
  | None => None
  end.

(** The manufacturer code that belongs to a summary with this item URL. *)
Definition manufacturerCodeOf (E : Env) (productPageUrl : option string)
    : option string :=
  match Js.oOrNull productPageUrl with
  | Some url => manufacturerCodeAt E url
  | None => None
  end.

(** What the detail extractor of the second crawler returns for [url]. *)
Definition detailsAt (E : Env) (url : string) : UrlSku.Details :=
  fst (UrlSku.scrapeProductDetails E url (initial None)).

(** The product the grouped crawler makes of a listed product. *)
Definition byCarMerged (E : Env) (p : ByCar.Product) : ByCar.Product :=
  match Js.oOrNull (ByCar.productPageUrl p) with
  | Some url => ByCar.setManufacturerCode p (manufacturerCodeAt E url)
  | None => p
  end.

(** Item-page requests and pauses, and those of a trace, oldest first. *)
Definition isDetailTraffic (e : Event) : bool :=
  match e with
  | GetDetail _ | Sleep _ => true
  | _ => false
  end.

Definition detailTraffic (t : list Event) : list Event :=
  filter isDetailTraffic (rev t).

(** One request of the item page, then a pause of [ms] milliseconds; nothing
    for a summary without item URL. *)
Definition visit (ms : nat) (productPageUrl : option string) : list Event :=
  match Js.oOrNull productPageUrl with
  | Some url => [GetDetail url; Sleep ms]
  | None => []
  end.

(** A product of the grouped crawler that carries this car. *)
Definition ofCar (brandCode modelName yearRange : string) (p : ByCar.Product)
    : Prop :=
  ByCar.brandCode p = Some brandCode /\ ByCar.modelName p = Some modelName /\
  ByCar.yearRange p = Some yearRange.

(** Console lines. *)
(** The cars of the models of a brand and of a brand/model tree, in the
    order of the three loops. *)
Definition carsOfModels (b : string) (models : list (string * list string))
  : list (string * string * string) :=
  flat_map (fun my => map (fun y => (b, fst my, y)) (snd my)) models.

Definition carsOf (tree : BrandModelsData) : list (string * string * string) :=
  flat_map (fun bm => carsOfModels (fst bm) (snd bm)) tree.

(** What the walk of a car returns: [None] when the fuel did not suffice. *)
Definition leafOf (E : Env) (cfg : ByCar.Config) (fuel : nat)
    (car : string * string * string) : option (list ByCar.Product) :=
  fst (ByCar.scrapeSingleCar E cfg fuel (fst (fst car)) (snd (fst car)) (snd car)
         (initial None)).

Definition leafProducts (E : Env) (cfg : ByCar.Config) (fuel : nat)
    (car : string * string * string) : list ByCar.Product :=
  match leafOf E cfg fuel car with
  | Some products => products
  | None => []
  end.

(** The products the walks of the cars return, leaf after leaf. *)
Definition offered (E : Env) (cfg : ByCar.Config) (fuel : nat)
    (cars : list (string * string * string)) : list ByCar.Product :=
  flat_map (leafProducts E cfg fuel) cars.

(** A catalogue of three pages whose third page links back to the second
    one: the start URL, then page 2 and page 3 with the category filter the
    locator writes on them. *)
Definition page3_url : string :=
  "https://www.fastdeliverycarparts.com/katalogs/?page=3&cat="
    ++ Demo.formEncode (String.substring 51 (String.length NameSku.START_URL - 51)
                          NameSku.START_URL).

Definition backLink_listing (url : string) : option ListingDoc :=
  if url =? NameSku.START_URL then
    Some {| items := [ Demo.item "Brake Pad" "BP-1" "12.5" None ];
            nextHref := Some "/katalogs/?page=2" |}
  else if url =? Demo.page2_url then
    Some {| items := [ Demo.item "Oil Filter" "OF-2" "7" None ];
            nextHref := Some "/katalogs/?page=3" |}
  else if url =? page3_url then
    Some {| items := [ Demo.item "Wiper" "W-9" "4" None ];
            nextHref := Some "/katalogs/?page=2" |}
  else None.

Definition backLinkSite : Env :=
  Demo.env backLink_listing (fun _ => None) Demo.noBrands Demo.noScript [].


Definition isConsole (e : Event) : bool :=
  match e with
  | Console _ _ => true
  | _ => false
  end.

(** The value [m] returns does not depend on the state it starts in. *)
Definition stateless {A} (m : M A) : Prop :=
  forall s s', fst (m s) = fst (m s').

(** The caps of the source with a number as cap per car. *)
Definition cappedConfig (perCar : nat) : ByCar.Config :=
  {| ByCar.MAX_PRODUCTS_PER_CAR := Js.Finite perCar;
     ByCar.MAX_TOTAL_PRODUCTS := ByCar.MAX_TOTAL_PRODUCTS ByCar.sourceConfig |}.




(** The brand of the Categories column: the name the map gives for the
    code, the code itself when the map has none, nothing without a code. *)
Definition brandLabel (brandCode : option string) : string :=
  match Js.oOrNull brandCode with
  | Some code => Js.orElse (ByCar.brandName code) code
  | None => ""
  end.

(** The field of a row that stands under the column named [column]. *)
Definition field (column : string) (row : list string) : string :=
  match find (fun cv => fst cv =? column) (combine Csv.COLUMNS row) with
  | Some cv => snd cv
  | None => ""
  end.

(** A row the grouped crawler makes of some product. *)
Definition isCarRow (row : list string) : Prop :=
  exists i p, row = ByCar.toRow i p.

(** The output file of a run of the grouped crawler that has counted
    [total] products and lost none: the header and one row per product once
    the header is written, the empty text before. *)
Definition ExactShape (isHeaderWritten : bool) (total : nat) (s : Sys) : Prop :=
  if isHeaderWritten then
    exists rows, List.length rows = total /\ 0 < total /\ Forall isCarRow rows /\
                 file s = Some (Csv.unparse Csv.COLUMNS rows true)
  else file s = Some "" /\ total = 0.

(** The picture of a listed item: its own when the [src] resolves to a
    non-empty URL, else the placeholder [fallback]. *)
Definition listedPicture (E : Env) (base : string) (el : ItemElement)
    (fallback : string) : string :=
  match Js.oOrNull (imgSrc el) with
  | Some src =>
      match resolve E src base with
      | Some u => if Js.truthy u then u else fallback
      | None => fallback
      end
  | None => fallback
  end.


(* ================================================================== *)
(** * The monad and the trace *)
(* ================================================================== *)

Lemma bind_run {A B} (m : M A) (k : A -> M B) (s : Sys) :
  bind m k s = k (fst (m s)) (snd (m s)).
Proof. unfold bind. destruct (m s); reflexivity. Qed.

Lemma steps_refl allowed s : steps allowed s s.
Proof. repeat split. exists []. split; reflexivity. Qed.

Lemma steps_trans allowed s1 s2 s3 :
  steps allowed s1 s2 -> steps allowed s2 s3 -> steps allowed s1 s3.
Proof.
  intros (Hf & Ho & evs & Ht & Ha) (Hf' & Ho' & evs' & Ht' & Ha').
  repeat split; try congruence.
  exists (evs' ++ evs)%list. split.
  - rewrite Ht', Ht. now rewrite app_assoc.
  - rewrite forallb_app, Ha', Ha. reflexivity.
Qed.

Lemma steps_weaken (a1 a2 : Event -> bool) s s' :
  (forall e, a1 e = true -> a2 e = true) -> steps a1 s s' -> steps a2 s s'.
Proof.
  intros Hw (Hf & Ho & evs & Ht & Ha).
  repeat split; trivial. exists evs. split; trivial.
  rewrite forallb_forall in *. auto.
Qed.

Lemma steps_emit (allowed : Event -> bool) e s :
  allowed e = true -> steps allowed s (snd (emit e s)).
Proof.
  intros He. cbn. repeat split. exists [e]. split; [reflexivity|].
  cbn. now rewrite He.
Qed.

Lemma quiet_ret allowed {A} (a : A) : quiet allowed (ret a).
Proof. intros s. apply steps_refl. Qed.

Lemma quiet_bind allowed {A B} (m : M A) (k : A -> M B) :
  quiet allowed m -> (forall a, quiet allowed (k a)) -> quiet allowed (bind m k).
Proof.
  intros Hm Hk s. rewrite bind_run.
  eapply steps_trans; [apply Hm | apply Hk].
Qed.

Lemma quiet_emit (allowed : Event -> bool) (e : Event) :
  allowed e = true -> quiet allowed (emit e).
Proof. intros He s. now apply steps_emit. Qed.

Lemma quiet_weaken (a1 a2 : Event -> bool) {A} (m : M A) :
  (forall e, a1 e = true -> a2 e = true) -> quiet a1 m -> quiet a2 m.
Proof. intros Hw Hm s. eapply steps_weaken; eauto. Qed.

Lemma mergeEvent_walkEvent e : mergeEvent e = true -> walkEvent e = true.
Proof. unfold walkEvent. now intros ->. Qed.

Lemma walkEvent_scrapeEvent e : walkEvent e = true -> scrapeEvent e = true.
Proof. destruct e; cbn; trivial; discriminate. Qed.

Lemma listingUrls_app a b :
  listingUrls (a ++ b)%list = (listingUrls b ++ listingUrls a)%list.
Proof. unfold listingUrls. now rewrite rev_app_distr, flat_map_app. Qed.

Lemma listingUrls_cons e t :
  listingUrls (e :: t) =
  (listingUrls t ++ match e with GetListing u => [u] | _ => [] end)%list.
Proof.
  unfold listingUrls. cbn [rev]. rewrite flat_map_app. cbn [flat_map].
  now rewrite app_nil_r.
Qed.

Lemma listingUrls_merge evs : forallb mergeEvent evs = true -> listingUrls evs = [].
Proof.
  induction evs as [|e evs IH]; [reflexivity|].
  cbn [forallb]. rewrite andb_true_iff. intros [He Hr].
  rewrite listingUrls_cons, (IH Hr). destruct e; cbn in *; trivial; discriminate.
Qed.

Lemma listingUrls_console lvl msg s :
  listingUrls (trace (snd (console lvl msg s))) = listingUrls (trace s).
Proof.
  change (trace (snd (console lvl msg s))) with (Console lvl msg :: trace s).
  now rewrite listingUrls_cons, app_nil_r.
Qed.

Lemma listingUrls_sleep ms s :
  listingUrls (trace (snd (sleep ms s))) = listingUrls (trace s).
Proof.
  change (trace (snd (sleep ms s))) with (Sleep ms :: trace s).
  now rewrite listingUrls_cons, app_nil_r.
Qed.

(** The merge stage requests no listing page. *)
Lemma steps_merge_urls s s' :
  steps mergeEvent s s' -> listingUrls (trace s') = listingUrls (trace s).
Proof.
  intros (_ & _ & evs & -> & Ha).
  now rewrite listingUrls_app, (listingUrls_merge evs Ha), app_nil_r.
Qed.

(** Structural steps of a proof that a computation is [quiet]. *)
Ltac quiet_step :=
  match goal with
  | |- quiet _ (ret _) => apply quiet_ret
  | |- quiet _ (bind _ _) => apply quiet_bind; [| intros ?]
  | |- quiet _ (console _ _) => apply quiet_emit; reflexivity
  | |- quiet _ (sleep _) => apply quiet_emit; reflexivity
  | |- quiet _ (emit _) => apply quiet_emit; reflexivity
  | |- quiet _ (getDetail _ _) => unfold getDetail
  | |- quiet _ (getListing _ _) => unfold getListing
  | |- quiet _ (match ?x with _ => _ end) => destruct x
  | |- quiet _ _ => solve [eauto]
  end.

Ltac quiet_solve := repeat quiet_step.

(* ================================================================== *)
(** * The pagination walker of the first crawler *)
(* ================================================================== *)

Section NameSkuWalker.
Variable E : Env.

Lemma nameSku_details_quiet url :
  quiet mergeEvent (NameSku.scrapeProductDetails E url).
Proof. unfold NameSku.scrapeProductDetails. quiet_solve. Qed.

Lemma nameSku_productsLoop_quiet infos :
  forall c len i all, quiet mergeEvent (NameSku.productsLoop E c len i infos all).
Proof.
  induction infos as [|b rest IH]; intros; cbn [NameSku.productsLoop].
  - quiet_solve.
  - pose proof nameSku_details_quiet. quiet_solve.
Qed.

Lemma nameSku_scrapeItem_quiet el : quiet mergeEvent (NameSku.scrapeItem E el).
Proof. unfold NameSku.scrapeItem. quiet_solve. Qed.

Lemma nameSku_scrapeItems_quiet els : quiet mergeEvent (NameSku.scrapeItems E els).
Proof.
  induction els as [|el rest IH]; cbn [NameSku.scrapeItems].
  - quiet_solve.
  - pose proof nameSku_scrapeItem_quiet. quiet_solve.
Qed.

Lemma nameSku_read_quiet url response :
  quiet mergeEvent (NameSku.readCatalogPage E url response).
Proof.
  unfold NameSku.readCatalogPage. pose proof nameSku_scrapeItems_quiet.
  quiet_solve.
Qed.

(** A page fetch requests its URL and nothing else. *)
Lemma nameSku_page_run url s :
  let s' := snd (NameSku.scrapeCatalogPage E url s) in
  steps walkEvent s s' /\
  listingUrls (trace s') = (listingUrls (trace s) ++ [url])%list.
Proof.
  unfold NameSku.scrapeCatalogPage, getListing, console.
  rewrite !bind_run. cbn [emit ret fst snd].
  match goal with |- context [NameSku.readCatalogPage E url ?r ?s2] =>
    pose proof (nameSku_read_quiet url r s2) as Hq
  end.
  split.
  - eapply steps_trans; [|eapply steps_weaken; [apply mergeEvent_walkEvent | apply Hq]].
    repeat split.
    exists [GetListing url; Console Log ("Fetching catalog page: " ++ url)].
    split; reflexivity.
  - rewrite (steps_merge_urls _ _ Hq). cbn [trace].
    rewrite !listingUrls_cons. cbn [app]. now rewrite app_nil_r.
Qed.

(** The walk as a whole: between [n] and the ceiling pages are counted, and
    one listing page is requested per page counted. *)
Lemma nameSku_pagesLoop_spec fuel :
  forall cur n all s,
    n <= NameSku.MAX_CATALOG_PAGES -> NameSku.MAX_CATALOG_PAGES - n <= fuel ->
    let r := NameSku.pagesLoop E fuel cur n all s in
    n <= snd (fst r) <= NameSku.MAX_CATALOG_PAGES /\
    steps walkEvent s (snd r) /\
    List.length (listingUrls (trace (snd r))) =
      List.length (listingUrls (trace s)) + (snd (fst r) - n).
Proof.
  induction fuel as [|fuel IH]; intros cur n all s Hn Hfuel;
    cbn [NameSku.pagesLoop]; destruct cur as [url|];
    try (cbn [ret fst snd]; split; [lia | split; [apply steps_refl | lia]]).
  - destruct (Js.truthy url && (n <? NameSku.MAX_CATALOG_PAGES)%nat) eqn:Hc.
    + apply andb_true_iff in Hc. destruct Hc as [_ Hlt].
      apply Nat.ltb_lt in Hlt. lia.
    + cbn [ret fst snd]. split; [lia | split; [apply steps_refl | lia]].
  - destruct (Js.truthy url && (n <? NameSku.MAX_CATALOG_PAGES)%nat) eqn:Hc.
    2:{ cbn [ret fst snd]. split; [lia | split; [apply steps_refl | lia]]. }
    apply andb_true_iff in Hc. destruct Hc as [_ Hlt]. apply Nat.ltb_lt in Hlt.
    rewrite bind_run.
    destruct (nameSku_page_run url s) as (Hs1 & Hu1).
    destruct (NameSku.scrapeCatalogPage E url s) as [[infos next] s1].
    cbn [fst snd] in *.
    assert (Hlen : List.length (listingUrls (trace s1))
                   = List.length (listingUrls (trace s)) + 1)
      by (rewrite Hu1, length_app; reflexivity).
    destruct ((List.length infos =? 0)%nat && (1 <? S n)%nat).
    + rewrite bind_run. cbn [console ret fst snd].
      split; [lia | split].
      * eapply steps_trans; [exact Hs1 | now apply steps_emit].
      * rewrite listingUrls_console. lia.
    + rewrite !bind_run. cbn [console fst snd].
      match goal with |- context [NameSku.productsLoop E ?c ?l ?i ?b ?a ?s2] =>
        pose proof (nameSku_productsLoop_quiet b c l i a s2) as Hq;
        assert (Hs2 : steps walkEvent s s2)
          by (eapply steps_trans; [exact Hs1 | now apply steps_emit]);
        assert (Hu2 : listingUrls (trace s2) = listingUrls (trace s1))
          by apply listingUrls_console;
        destruct (NameSku.productsLoop E c l i b a s2) as [all2 s3]
      end.
      cbn [fst snd] in *.
      assert (Hs3 : steps walkEvent s s3).
      { eapply steps_trans; [exact Hs2|].
        eapply steps_weaken; [apply mergeEvent_walkEvent | exact Hq]. }
      assert (Hu3 : listingUrls (trace s3) = listingUrls (trace s1))
        by (rewrite (steps_merge_urls _ _ Hq); exact Hu2).
      destruct (Js.strictEq next (Some url)).
      * rewrite bind_run. cbn [console ret fst snd].
        split; [lia | split].
        -- eapply steps_trans; [exact Hs3 | now apply steps_emit].
        -- rewrite listingUrls_console, Hu3. lia.
      * destruct (IH next (S n) all2 s3 ltac:(lia) ltac:(lia)) as (Hc' & Hs4 & Hu4).
        destruct (NameSku.pagesLoop E fuel next (S n) all2 s3) as [[all4 n4] s4].
        cbn [fst snd] in *. split; [lia | split].
        -- eapply steps_trans; eassumption.
        -- rewrite Hu4, Hu3. lia.
Qed.

Lemma steps_urls_prefix allowed s s' :
  steps allowed s s' ->
  exists more, listingUrls (trace s') = (listingUrls (trace s) ++ more)%list.
Proof.
  intros (_ & _ & evs & -> & _). exists (listingUrls evs). apply listingUrls_app.
Qed.

Lemma nameSku_page_quiet url : quiet walkEvent (NameSku.scrapeCatalogPage E url).
Proof. intros s. apply nameSku_page_run. Qed.

Lemma nameSku_pagesLoop_quiet fuel :
  forall cur n all, quiet walkEvent (NameSku.pagesLoop E fuel cur n all).
Proof.
  induction fuel as [|fuel IH]; intros; cbn [NameSku.pagesLoop].
  - quiet_solve.
  - pose proof nameSku_page_quiet.
    pose proof (fun b c l i a =>
      quiet_weaken mergeEvent walkEvent _ mergeEvent_walkEvent
        (nameSku_productsLoop_quiet b c l i a)).
    quiet_solve.
Qed.

(** A page that yields no summary and is not the first one ends the walk,
    whatever its next link. *)
Lemma nameSku_empty_later_page fuel url n all s :
  Js.truthy url = true -> 1 <= n -> n < NameSku.MAX_CATALOG_PAGES ->
  fst (fst (NameSku.scrapeCatalogPage E url s)) = [] ->
  let r := NameSku.pagesLoop E (S fuel) (Some url) n all s in
  fst r = (all, S n) /\
  listingUrls (trace (snd r)) = (listingUrls (trace s) ++ [url])%list.
Proof.
  intros Ht Hn1 Hn He. cbn [NameSku.pagesLoop]. rewrite Ht.
  rewrite (proj2 (Nat.ltb_lt _ _) Hn). cbn [andb]. rewrite bind_run.
  destruct (nameSku_page_run url s) as (_ & Hu).
  destruct (NameSku.scrapeCatalogPage E url s) as [[infos next] s1].
  cbn [fst snd] in *. subst infos. cbn [List.length Nat.eqb andb].
  rewrite (proj2 (Nat.ltb_lt 1 (S n))) by lia.
  rewrite bind_run. cbn [ret fst snd]. split; [reflexivity|].
  now rewrite listingUrls_console.
Qed.

(** A page whose next link resolves to its own URL ends the walk. *)
Lemma nameSku_self_link fuel url n all s :
  Js.truthy url = true -> n < NameSku.MAX_CATALOG_PAGES ->
  snd (fst (NameSku.scrapeCatalogPage E url s)) = Some url ->
  let r := NameSku.pagesLoop E (S fuel) (Some url) n all s in
  snd (fst r) = S n /\
  listingUrls (trace (snd r)) = (listingUrls (trace s) ++ [url])%list.
Proof.
  intros Ht Hn He. cbn [NameSku.pagesLoop]. rewrite Ht.
  rewrite (proj2 (Nat.ltb_lt _ _) Hn). cbn [andb]. rewrite bind_run.
  destruct (nameSku_page_run url s) as (_ & Hu).
  destruct (NameSku.scrapeCatalogPage E url s) as [[infos next] s1].
  cbn [fst snd] in *. subst next.
  destruct ((List.length infos =? 0)%nat && (1 <? S n)%nat).
  - rewrite bind_run. cbn [ret fst snd]. split; [reflexivity|].
    now rewrite listingUrls_console.
  - rewrite !bind_run.
    match goal with |- context [NameSku.productsLoop E ?c ?l ?i ?b ?a ?s2] =>
      pose proof (steps_merge_urls _ _ (nameSku_productsLoop_quiet b c l i a s2)) as Hq;
      destruct (NameSku.productsLoop E c l i b a s2) as [all2 s3]
    end.
    cbn [fst snd] in *. cbn [Js.strictEq]. rewrite String.eqb_refl.
    rewrite bind_run. cbn [ret fst snd]. split; [reflexivity|].
    now rewrite listingUrls_console, Hq, listingUrls_console.
Qed.

(** A turn of the loop requests the current page. *)
Lemma nameSku_requests_page fuel url n all s :
  Js.truthy url = true -> n < NameSku.MAX_CATALOG_PAGES ->
  exists more,
    listingUrls (trace (snd (NameSku.pagesLoop E (S fuel) (Some url) n all s)))
    = (listingUrls (trace s) ++ url :: more)%list.
Proof.
  intros Ht Hn. cbn [NameSku.pagesLoop]. rewrite Ht.
  rewrite (proj2 (Nat.ltb_lt _ _) Hn). cbn [andb]. rewrite bind_run.
  destruct (nameSku_page_run url s) as (_ & Hu).
  match goal with
  | |- context [trace (snd (?m (snd (NameSku.scrapeCatalogPage E url s))))] =>
      assert (Hk : quiet walkEvent m)
  end.
  { pose proof nameSku_pagesLoop_quiet.
    pose proof (fun b c l i a =>
      quiet_weaken mergeEvent walkEvent _ mergeEvent_walkEvent
        (nameSku_productsLoop_quiet b c l i a)).
    quiet_solve. }
  destruct (steps_urls_prefix _ _ _ (Hk (snd (NameSku.scrapeCatalogPage E url s))))
    as [more Hm].
  exists more. rewrite Hm, Hu, <- app_assoc. reflexivity.
Qed.

(** A first page that yields no summary does not end the walk: its next
    page is requested. *)
Lemma nameSku_empty_first_page fuel url next all s :
  Js.truthy url = true -> Js.truthy next = true -> next <> url ->
  fst (NameSku.scrapeCatalogPage E url s) = ([], Some next) ->
  exists more,
    listingUrls (trace (snd (NameSku.pagesLoop E (S (S fuel)) (Some url) 0 all s)))
    = (listingUrls (trace s) ++ url :: next :: more)%list.
Proof.
  intros Ht Htn Hne He.
  assert (Hmax : 1 < NameSku.MAX_CATALOG_PAGES) by (unfold NameSku.MAX_CATALOG_PAGES; lia).
  remember (S fuel) as fuel1 eqn:Hfuel.
  cbn [NameSku.pagesLoop]. rewrite Ht.
  rewrite (proj2 (Nat.ltb_lt 0 _)) by lia. cbn [andb]. rewrite bind_run.
  destruct (nameSku_page_run url s) as (_ & Hu).
  destruct (NameSku.scrapeCatalogPage E url s) as [[infos nx] s1].
  cbn [fst snd] in *. injection He as -> ->.
  cbn [List.length Nat.eqb Nat.ltb Nat.leb andb].
  rewrite !bind_run. cbn [NameSku.productsLoop ret fst snd Js.strictEq].
  rewrite (proj2 (String.eqb_neq next url) Hne). subst fuel1.
  match goal with |- context [NameSku.pagesLoop E (S fuel) (Some next) 1 all ?s2] =>
    destruct (nameSku_requests_page fuel next 1 all s2 Htn Hmax) as [more Hm];
    exists more; rewrite Hm
  end.
  rewrite listingUrls_console, Hu, <- app_assoc. reflexivity.
Qed.

End NameSkuWalker.

(* ================================================================== *)
(** * The pagination walker of the second crawler *)
(* ================================================================== *)

Section UrlSkuWalker.
Variable E : Env.

Lemma urlSku_thumbImages_quiet main ts :
  forall acc, quiet mergeEvent (UrlSku.thumbImages E main ts acc).
Proof.
  induction ts as [|[path filename] rest IH]; intros; cbn [UrlSku.thumbImages];
    quiet_solve.
Qed.

Lemma urlSku_details_quiet url :
  quiet mergeEvent (UrlSku.scrapeProductDetails E url).
Proof.
  unfold UrlSku.scrapeProductDetails, UrlSku.mainImage.
  pose proof urlSku_thumbImages_quiet. quiet_solve.
Qed.

Lemma urlSku_productsLoop_quiet infos :
  forall c len i all, quiet mergeEvent (UrlSku.productsLoop E c len i infos all).
Proof.
  induction infos as [|b rest IH]; intros; cbn [UrlSku.productsLoop].
  - quiet_solve.
  - pose proof urlSku_details_quiet. quiet_solve.
Qed.

Lemma urlSku_itemLink_quiet el : quiet mergeEvent (UrlSku.itemLink E el).
Proof. unfold UrlSku.itemLink. quiet_solve. Qed.

Lemma urlSku_scrapeItem_quiet el : quiet mergeEvent (UrlSku.scrapeItem E el).
Proof.
  unfold UrlSku.scrapeItem, UrlSku.missingDataMessage.
  pose proof urlSku_itemLink_quiet. quiet_solve.
Qed.

Lemma urlSku_scrapeItems_quiet els : quiet mergeEvent (UrlSku.scrapeItems E els).
Proof.
  induction els as [|el rest IH]; cbn [UrlSku.scrapeItems].
  - quiet_solve.
  - pose proof urlSku_scrapeItem_quiet. quiet_solve.
Qed.

Lemma urlSku_read_quiet url response :
  quiet mergeEvent (UrlSku.readCatalogPage E url response).
Proof.
  unfold UrlSku.readCatalogPage. pose proof urlSku_scrapeItems_quiet.
  quiet_solve.
Qed.

(** A page fetch requests its URL and nothing else. *)
Lemma urlSku_page_run url s :
  let s' := snd (UrlSku.scrapeCatalogPage E url s) in
  steps walkEvent s s' /\
  listingUrls (trace s') = (listingUrls (trace s) ++ [url])%list.
Proof.
  unfold UrlSku.scrapeCatalogPage, getListing, console.
  rewrite !bind_run. cbn [emit ret fst snd].
  match goal with |- context [UrlSku.readCatalogPage E url ?r ?s2] =>
    pose proof (urlSku_read_quiet url r s2) as Hq
  end.
  split.
  - eapply steps_trans; [|eapply steps_weaken; [apply mergeEvent_walkEvent | apply Hq]].
    repeat split.
    exists [GetListing url; Console Log ("Fetching catalog page: " ++ url)].
    split; reflexivity.
  - rewrite (steps_merge_urls _ _ Hq). cbn [trace].
    rewrite !listingUrls_cons. cbn [app]. now rewrite app_nil_r.
Qed.

(** The same walk in the second crawler: between [n] and the ceiling pages are counted, and
    one listing page is requested per page counted. *)
Lemma urlSku_pagesLoop_spec fuel :
  forall cur n all s,
    n <= UrlSku.MAX_CATALOG_PAGES -> UrlSku.MAX_CATALOG_PAGES - n <= fuel ->
    let r := UrlSku.pagesLoop E fuel cur n all s in
    n <= snd (fst r) <= UrlSku.MAX_CATALOG_PAGES /\
    steps walkEvent s (snd r) /\
    List.length (listingUrls (trace (snd r))) =
      List.length (listingUrls (trace s)) + (snd (fst r) - n).
Proof.
  induction fuel as [|fuel IH]; intros cur n all s Hn Hfuel;
    cbn [UrlSku.pagesLoop]; destruct cur as [url|];
    try (cbn [ret fst snd]; split; [lia | split; [apply steps_refl | lia]]).
  - destruct (Js.truthy url && (n <? UrlSku.MAX_CATALOG_PAGES)%nat) eqn:Hc.
    + apply andb_true_iff in Hc. destruct Hc as [_ Hlt].
      apply Nat.ltb_lt in Hlt. lia.
    + cbn [ret fst snd]. split; [lia | split; [apply steps_refl | lia]].
  - destruct (Js.truthy url && (n <? UrlSku.MAX_CATALOG_PAGES)%nat) eqn:Hc.
    2:{ cbn [ret fst snd]. split; [lia | split; [apply steps_refl | lia]]. }
    apply andb_true_iff in Hc. destruct Hc as [_ Hlt]. apply Nat.ltb_lt in Hlt.
    rewrite bind_run.
    destruct (urlSku_page_run url s) as (Hs1 & Hu1).
    destruct (UrlSku.scrapeCatalogPage E url s) as [[infos next] s1].
    cbn [fst snd] in *.
    assert (Hlen : List.length (listingUrls (trace s1))
                   = List.length (listingUrls (trace s)) + 1)
      by (rewrite Hu1, length_app; reflexivity).
    destruct ((List.length infos =? 0)%nat && (1 <? S n)%nat).
    + rewrite bind_run. cbn [console ret fst snd].
      split; [lia | split].
      * eapply steps_trans; [exact Hs1 | now apply steps_emit].
      * rewrite listingUrls_console. lia.
    + rewrite !bind_run. cbn [console fst snd].
      match goal with |- context [UrlSku.productsLoop E ?c ?l ?i ?b ?a ?s2] =>
        pose proof (urlSku_productsLoop_quiet b c l i a s2) as Hq;
        assert (Hs2 : steps walkEvent s s2)
          by (eapply steps_trans; [exact Hs1 | now apply steps_emit]);
        assert (Hu2 : listingUrls (trace s2) = listingUrls (trace s1))
          by apply listingUrls_console;
        destruct (UrlSku.productsLoop E c l i b a s2) as [all2 s3]
      end.
      cbn [fst snd] in *.
      assert (Hs3 : steps walkEvent s s3).
      { eapply steps_trans; [exact Hs2|].
        eapply steps_weaken; [apply mergeEvent_walkEvent | exact Hq]. }
      assert (Hu3 : listingUrls (trace s3) = listingUrls (trace s1))
        by (rewrite (steps_merge_urls _ _ Hq); exact Hu2).
      destruct (Js.strictEq next (Some url)).
      * rewrite bind_run. cbn [console ret fst snd].
        split; [lia | split].
        -- eapply steps_trans; [exact Hs3 | now apply steps_emit].
        -- rewrite listingUrls_console, Hu3. lia.
      * destruct (IH next (S n) all2 s3 ltac:(lia) ltac:(lia)) as (Hc' & Hs4 & Hu4).
        destruct (UrlSku.pagesLoop E fuel next (S n) all2 s3) as [[all4 n4] s4].
        cbn [fst snd] in *. split; [lia | split].
        -- eapply steps_trans; eassumption.
        -- rewrite Hu4, Hu3. lia.
Qed.

Lemma urlSku_page_quiet url : quiet walkEvent (UrlSku.scrapeCatalogPage E url).
Proof. intros s. apply urlSku_page_run. Qed.

Lemma urlSku_pagesLoop_quiet fuel :
  forall cur n all, quiet walkEvent (UrlSku.pagesLoop E fuel cur n all).
Proof.
  induction fuel as [|fuel IH]; intros; cbn [UrlSku.pagesLoop].
  - quiet_solve.
  - pose proof urlSku_page_quiet.
    pose proof (fun b c l i a =>
      quiet_weaken mergeEvent walkEvent _ mergeEvent_walkEvent
        (urlSku_productsLoop_quiet b c l i a)).
    quiet_solve.
Qed.

(** A page that yields no summary and is not the first one ends the walk,
    whatever its next link. *)
Lemma urlSku_empty_later_page fuel url n all s :
  Js.truthy url = true -> 1 <= n -> n < UrlSku.MAX_CATALOG_PAGES ->
  fst (fst (UrlSku.scrapeCatalogPage E url s)) = [] ->
  let r := UrlSku.pagesLoop E (S fuel) (Some url) n all s in
  fst r = (all, S n) /\
  listingUrls (trace (snd r)) = (listingUrls (trace s) ++ [url])%list.
Proof.
  intros Ht Hn1 Hn He. cbn [UrlSku.pagesLoop]. rewrite Ht.
  rewrite (proj2 (Nat.ltb_lt _ _) Hn). cbn [andb]. rewrite bind_run.
  destruct (urlSku_page_run url s) as (_ & Hu).
  destruct (UrlSku.scrapeCatalogPage E url s) as [[infos next] s1].
  cbn [fst snd] in *. subst infos. cbn [List.length Nat.eqb andb].
  rewrite (proj2 (Nat.ltb_lt 1 (S n))) by lia.
  rewrite bind_run. cbn [ret fst snd]. split; [reflexivity|].
  now rewrite listingUrls_console.
Qed.

(** A page whose next link resolves to its own URL ends the walk. *)
Lemma urlSku_self_link fuel url n all s :
  Js.truthy url = true -> n < UrlSku.MAX_CATALOG_PAGES ->
  snd (fst (UrlSku.scrapeCatalogPage E url s)) = Some url ->
  let r := UrlSku.pagesLoop E (S fuel) (Some url) n all s in
  snd (fst r) = S n /\
  listingUrls (trace (snd r)) = (listingUrls (trace s) ++ [url])%list.
Proof.
  intros Ht Hn He. cbn [UrlSku.pagesLoop]. rewrite Ht.
  rewrite (proj2 (Nat.ltb_lt _ _) Hn). cbn [andb]. rewrite bind_run.
  destruct (urlSku_page_run url s) as (_ & Hu).
  destruct (UrlSku.scrapeCatalogPage E url s) as [[infos next] s1].
  cbn [fst snd] in *. subst next.
  destruct ((List.length infos =? 0)%nat && (1 <? S n)%nat).
  - rewrite bind_run. cbn [ret fst snd]. split; [reflexivity|].
    now rewrite listingUrls_console.
  - rewrite !bind_run.
    match goal with |- context [UrlSku.productsLoop E ?c ?l ?i ?b ?a ?s2] =>
      pose proof (steps_merge_urls _ _ (urlSku_productsLoop_quiet b c l i a s2)) as Hq;
      destruct (UrlSku.productsLoop E c l i b a s2) as [all2 s3]
    end.
    cbn [fst snd] in *. cbn [Js.strictEq]. rewrite String.eqb_refl.
    rewrite bind_run. cbn [ret fst snd]. split; [reflexivity|].
    now rewrite listingUrls_console, Hq, listingUrls_console.
Qed.

(** A turn of the loop requests the current page. *)
Lemma urlSku_requests_page fuel url n all s :
  Js.truthy url = true -> n < UrlSku.MAX_CATALOG_PAGES ->
  exists more,
    listingUrls (trace (snd (UrlSku.pagesLoop E (S fuel) (Some url) n all s)))
    = (listingUrls (trace s) ++ url :: more)%list.
Proof.
  intros Ht Hn. cbn [UrlSku.pagesLoop]. rewrite Ht.
  rewrite (proj2 (Nat.ltb_lt _ _) Hn). cbn [andb]. rewrite bind_run.
  destruct (urlSku_page_run url s) as (_ & Hu).
  match goal with
  | |- context [trace (snd (?m (snd (UrlSku.scrapeCatalogPage E url s))))] =>
      assert (Hk : quiet walkEvent m)
  end.
  { pose proof urlSku_pagesLoop_quiet.
    pose proof (fun b c l i a =>
      quiet_weaken mergeEvent walkEvent _ mergeEvent_walkEvent
        (urlSku_productsLoop_quiet b c l i a)).
    quiet_solve. }
  destruct (steps_urls_prefix _ _ _ (Hk (snd (UrlSku.scrapeCatalogPage E url s))))
    as [more Hm].
  exists more. rewrite Hm, Hu, <- app_assoc. reflexivity.
Qed.

(** A first page that yields no summary does not end the walk: its next
    page is requested. *)
Lemma urlSku_empty_first_page fuel url next all s :
  Js.truthy url = true -> Js.truthy next = true -> next <> url ->
  fst (UrlSku.scrapeCatalogPage E url s) = ([], Some next) ->
  exists more,
    listingUrls (trace (snd (UrlSku.pagesLoop E (S (S fuel)) (Some url) 0 all s)))
    = (listingUrls (trace s) ++ url :: next :: more)%list.
Proof.
  intros Ht Htn Hne He.
  assert (Hmax : 1 < UrlSku.MAX_CATALOG_PAGES) by (unfold UrlSku.MAX_CATALOG_PAGES; lia).
  remember (S fuel) as fuel1 eqn:Hfuel.
  cbn [UrlSku.pagesLoop]. rewrite Ht.
  rewrite (proj2 (Nat.ltb_lt 0 _)) by lia. cbn [andb]. rewrite bind_run.
  destruct (urlSku_page_run url s) as (_ & Hu).
  destruct (UrlSku.scrapeCatalogPage E url s) as [[infos nx] s1].
  cbn [fst snd] in *. injection He as -> ->.
  cbn [List.length Nat.eqb Nat.ltb Nat.leb andb].
  rewrite !bind_run. cbn [UrlSku.productsLoop ret fst snd Js.strictEq].
  rewrite (proj2 (String.eqb_neq next url) Hne). subst fuel1.
  match goal with |- context [UrlSku.pagesLoop E (S fuel) (Some next) 1 all ?s2] =>
    destruct (urlSku_requests_page fuel next 1 all s2 Htn Hmax) as [more Hm];
    exists more; rewrite Hm
  end.
  rewrite listingUrls_console, Hu, <- app_assoc. reflexivity.
Qed.

End UrlSkuWalker.

(* ================================================================== *)
(** * The pagination walker of the grouped crawler *)
(* ================================================================== *)

Section ByCarWalker.
Variable E : Env.
Variable cfg : ByCar.Config.

Lemma byCar_details_quiet url :
  quiet mergeEvent (ByCar.scrapeProductDetails E url).
Proof. unfold ByCar.scrapeProductDetails. quiet_solve. Qed.

Lemma byCar_carProductsLoop_quiet ps :
  forall acc n, quiet mergeEvent (ByCar.carProductsLoop E cfg ps acc n).
Proof.
  induction ps as [|p rest IH]; intros; cbn [ByCar.carProductsLoop].
  - quiet_solve.
  - pose proof byCar_details_quiet. quiet_solve.
Qed.

Lemma byCar_scrapeItem_quiet b m y el : quiet mergeEvent (ByCar.scrapeItem E b m y el).
Proof. unfold ByCar.scrapeItem. quiet_solve. Qed.

Lemma byCar_scrapeItems_quiet b m y els :
  quiet mergeEvent (ByCar.scrapeItems E b m y els).
Proof.
  induction els as [|el rest IH]; cbn [ByCar.scrapeItems].
  - quiet_solve.
  - pose proof byCar_scrapeItem_quiet. quiet_solve.
Qed.

Lemma byCar_read_quiet url b m y response :
  quiet mergeEvent (ByCar.readCarCatalogPage E url b m y response).
Proof.
  unfold ByCar.readCarCatalogPage. pose proof byCar_scrapeItems_quiet.
  quiet_solve.
Qed.

Lemma byCar_page_run url b m y s :
  let s' := snd (ByCar.scrapeCarCatalogPage E url b m y s) in
  steps walkEvent s s' /\
  listingUrls (trace s') = (listingUrls (trace s) ++ [url])%list.
Proof.
  unfold ByCar.scrapeCarCatalogPage, getListing, console.
  rewrite !bind_run. cbn [emit ret fst snd].
  match goal with |- context [ByCar.readCarCatalogPage E url b m y ?r ?s2] =>
    pose proof (byCar_read_quiet url b m y r s2) as Hq
  end.
  split.
  - eapply steps_trans; [|eapply steps_weaken; [apply mergeEvent_walkEvent | apply Hq]].
    repeat split.
    exists [GetListing url; Console Log (" -> Fetching catalog page: " ++ url)].
    split; reflexivity.
  - rewrite (steps_merge_urls _ _ Hq). cbn [trace].
    rewrite !listingUrls_cons. cbn [app]. now rewrite app_nil_r.
Qed.

Lemma byCar_page_quiet url b m y :
  quiet walkEvent (ByCar.scrapeCarCatalogPage E url b m y).
Proof. intros s. apply byCar_page_run. Qed.

Lemma byCar_carPagesLoop_quiet fuel :
  forall b m y cur n pages acc,
    quiet walkEvent (ByCar.carPagesLoop E cfg fuel b m y cur n pages acc).
Proof.
  induction fuel as [|fuel IH]; intros; cbn [ByCar.carPagesLoop].
  - quiet_solve.
  - pose proof byCar_page_quiet.
    pose proof (fun ps acc n =>
      quiet_weaken mergeEvent walkEvent _ mergeEvent_walkEvent
        (byCar_carProductsLoop_quiet ps acc n)).
    quiet_solve.
Qed.

Lemma byCar_scrapeSingleCar_quiet fuel b m y :
  quiet scrapeEvent (ByCar.scrapeSingleCar E cfg fuel b m y).
Proof.
  unfold ByCar.scrapeSingleCar.
  pose proof (fun b m y cur n pages acc =>
    quiet_weaken walkEvent scrapeEvent _ walkEvent_scrapeEvent
      (byCar_carPagesLoop_quiet fuel b m y cur n pages acc)).
  quiet_solve.
Qed.

(** In the grouped walker too, a page without products that is not the
    first one ends the walk. *)
Lemma byCar_empty_later_page fuel b m y url n pages acc s :
  Js.truthy url = true ->
  Js.reached n (ByCar.MAX_PRODUCTS_PER_CAR cfg) = false -> 1 <= pages ->
  fst (fst (ByCar.scrapeCarCatalogPage E url b m y s)) = [] ->
  let r := ByCar.carPagesLoop E cfg (S fuel) b m y (Some url) n pages acc s in
  fst r = Some (acc, n) /\
  listingUrls (trace (snd r)) = (listingUrls (trace s) ++ [url])%list.
Proof.
  intros Ht Hcap Hp He. cbn [ByCar.carPagesLoop Js.oOrNull]. unfold Js.orNull.
  rewrite Ht, Hcap. cbn [negb]. rewrite bind_run.
  destruct (byCar_page_run url b m y s) as (_ & Hu).
  destruct (ByCar.scrapeCarCatalogPage E url b m y s) as [[ps next] s1].
  cbn [fst snd] in *. subst ps. cbn [List.length Nat.eqb andb].
  rewrite (proj2 (Nat.ltb_lt 1 (S pages))) by lia.
  rewrite bind_run. cbn [ret fst snd]. split; [reflexivity|].
  now rewrite listingUrls_console.
Qed.

Lemma byCar_requests_page fuel b m y url n pages acc s :
  Js.truthy url = true ->
  Js.reached n (ByCar.MAX_PRODUCTS_PER_CAR cfg) = false ->
  exists more,
    listingUrls
      (trace (snd (ByCar.carPagesLoop E cfg (S fuel) b m y (Some url) n pages acc s)))
    = (listingUrls (trace s) ++ url :: more)%list.
Proof.
  intros Ht Hcap. cbn [ByCar.carPagesLoop Js.oOrNull]. unfold Js.orNull.
  rewrite Ht, Hcap. cbn [negb]. rewrite bind_run.
  destruct (byCar_page_run url b m y s) as (_ & Hu).
  match goal with
  | |- context [trace (snd (?k (snd (ByCar.scrapeCarCatalogPage E url b m y s))))] =>
      assert (Hk : quiet walkEvent k)
  end.
  { pose proof byCar_carPagesLoop_quiet.
    pose proof (fun ps acc n =>
      quiet_weaken mergeEvent walkEvent _ mergeEvent_walkEvent
        (byCar_carProductsLoop_quiet ps acc n)).
    quiet_solve. }
  destruct (steps_urls_prefix _ _ _
              (Hk (snd (ByCar.scrapeCarCatalogPage E url b m y s)))) as [more Hm].
  exists more. rewrite Hm, Hu, <- app_assoc. reflexivity.
Qed.

(** And a first page without products does not: the next page is requested. *)
Lemma byCar_empty_first_page fuel b m y url next n acc s :
  Js.truthy url = true -> Js.truthy next = true ->
  Js.reached n (ByCar.MAX_PRODUCTS_PER_CAR cfg) = false ->
  fst (ByCar.scrapeCarCatalogPage E url b m y s) = ([], Some next) ->
  exists more,
    listingUrls
      (trace (snd (ByCar.carPagesLoop E cfg (S (S fuel)) b m y (Some url) n 0 acc s)))
    = (listingUrls (trace s) ++ url :: next :: more)%list.
Proof.
  intros Ht Htn Hcap He. remember (S fuel) as fuel1 eqn:Hfuel.
  cbn [ByCar.carPagesLoop Js.oOrNull]. unfold Js.orNull.
  rewrite Ht, Hcap. cbn [negb]. rewrite bind_run.
  destruct (byCar_page_run url b m y s) as (_ & Hu).
  destruct (ByCar.scrapeCarCatalogPage E url b m y s) as [[ps nx] s1].
  cbn [fst snd] in *. injection He as -> ->.
  cbn [List.length Nat.eqb Nat.ltb Nat.leb andb].
  rewrite !bind_run. cbn [ByCar.carProductsLoop ret fst snd Js.otruthy].
  rewrite Hcap, Htn. rewrite !bind_run. subst fuel1.
  match goal with
  | |- context [ByCar.carPagesLoop E cfg (S fuel) b m y (Some next) n 1 acc ?s2] =>
      destruct (byCar_requests_page fuel b m y next n 1 acc s2 Htn Hcap) as [more Hm];
      exists more; rewrite Hm
  end.
  rewrite listingUrls_sleep, listingUrls_console, Hu, <- app_assoc. reflexivity.
Qed.

End ByCarWalker.

(* ================================================================== *)
(** * The listing extractor of the second crawler *)
(* ================================================================== *)

Section UrlSkuListing.
Variable E : Env.





End UrlSkuListing.


(* ================================================================== *)
(** * The detail extractor of the second crawler: the picture list *)
(* ================================================================== *)

Section UrlSkuDetail.
Variable E : Env.

Lemma listIncludes_In l u : UrlSku.listIncludes l u = true <-> In u l.
Proof.
  unfold UrlSku.listIncludes. rewrite existsb_exists. split.
  - intros (x & Hx & He). apply String.eqb_eq in He. now subst.
  - intros H. exists u. split; [assumption | apply String.eqb_refl].
Qed.

Lemma listIncludes_not_In l u : UrlSku.listIncludes l u = false <-> ~ In u l.
Proof.
  rewrite <- listIncludes_In. destruct (UrlSku.listIncludes l u); split;
    intros; try congruence; exfalso; auto.
Qed.

(** The thumbnails add to the list the real pictures that are not in it. *)
Lemma urlSku_thumbImages_spec main ts :
  forall acc s,
    (forall m, main = Some m -> In m acc) -> NoDup acc ->
    let l := fst (UrlSku.thumbImages E main ts acc s) in
    NoDup l /\
    (forall u, In u l <->
               In u acc \/ In u (filter isRealPicture (thumbCandidates E ts))).
Proof.
  induction ts as [|[path filename] rest IH]; intros acc s Hmain Hnd.
  - cbn. split; [assumption|]. intros u. tauto.
  - cbn [UrlSku.thumbImages thumbCandidates flat_map fst snd].
    fold (thumbCandidates E rest).
    destruct (Js.oOrNull path) as [p|]; [destruct (Js.oOrNull filename) as [f|]|];
      try (cbn [app]; now apply IH).
    destruct (resolve E (p ++ f) UrlSku.BASE_URL) as [full|].
    2:{ rewrite bind_run. cbn [app]. now apply IH. }
    cbn [app filter].
    change (negb (Js.includes full UrlSku.PLACEHOLDER_NAME))
      with (isRealPicture full).
    destruct (isRealPicture full) eqn:Hreal; cbn [andb].
    2:{ now apply IH. }
    destruct (Js.strictEq (Some full) main) eqn:Heq; cbn [negb andb].
    { destruct main as [m|]; [|discriminate]. cbn in Heq.
      apply String.eqb_eq in Heq. subst m.
      destruct (IH acc s Hmain Hnd) as [Hn Hi]. split; [assumption|].
      intros u. rewrite Hi. cbn [In]. specialize (Hmain full eq_refl).
      split; [tauto|]. intros [H|[H|H]]; subst; tauto. }
    destruct (UrlSku.listIncludes acc full) eqn:Hinc; cbn [negb].
    { apply listIncludes_In in Hinc.
      destruct (IH acc s Hmain Hnd) as [Hn Hi]. split; [assumption|].
      intros u. rewrite Hi. cbn [In].
      split; [tauto|]. intros [H|[H|H]]; subst; tauto. }
    apply listIncludes_not_In in Hinc.
    destruct (IH (acc ++ [full])%list s) as [Hn Hi].
    + intros m Hm. apply in_or_app. left. now apply Hmain.
    + apply NoDup_app; [assumption | repeat constructor; intros [] | ].
      intros a Ha [Hb|[]]. now subst.
    + split; [assumption|]. intros u. rewrite Hi, in_app_iff. cbn [In]. tauto.
Qed.

(** The main picture starts the list when it is a real picture. *)
Lemma urlSku_mainImage_spec doc s :
  let r := fst (UrlSku.mainImage E doc s) in
  snd r = filter isRealPicture (mainCandidate E doc) /\
  (forall m, fst r = Some m -> In m (snd r)) /\ NoDup (snd r).
Proof.
  unfold UrlSku.mainImage, mainCandidate.
  destruct (Js.oOrNull (mainImgSrc doc)) as [src|].
  2:{ cbn. repeat split; [discriminate | constructor]. }
  destruct (resolve E src UrlSku.BASE_URL) as [u|].
  2:{ rewrite bind_run. cbn. repeat split; [discriminate | constructor]. }
  cbn [filter].
  change (negb (Js.includes (Js.dropSizeSegment u) UrlSku.PLACEHOLDER_NAME))
    with (isRealPicture (Js.dropSizeSegment u)).
  destruct (isRealPicture (Js.dropSizeSegment u)); cbn.
  - repeat split.
    + intros m [= <-]. now left.
    + repeat constructor. intros [].
  - repeat split; [discriminate | constructor].
Qed.

(** The pictures of a fetched item page: the real pictures of the page
    without repetition, or the placeholder when there is none. *)
Lemma urlSku_details_pictures url doc s :
  Js.truthy url = true -> detailPage E url = Some doc ->
  exists extracted,
    UrlSku.d_imageUrls (fst (UrlSku.scrapeProductDetails E url s))
    = UrlSku.withPlaceholder E extracted /\
    NoDup extracted /\
    (forall u, In u extracted <-> In u (realPictures E doc)).
Proof.
  intros Ht Hd. unfold UrlSku.scrapeProductDetails, getDetail.
  rewrite Ht. cbn [negb]. rewrite !bind_run. cbn [emit ret fst snd].
  rewrite Hd.
  rewrite !bind_run.
  match goal with |- context [UrlSku.mainImage E doc ?s1] =>
    destruct (urlSku_mainImage_spec doc s1) as (Hm1 & Hm2 & Hm3);
    destruct (UrlSku.mainImage E doc s1) as [[main l0] s2]
  end.
  cbn [fst snd] in *. rewrite !bind_run.
  match goal with |- context [UrlSku.thumbImages E main ?ts l0 ?s3] =>
    destruct (urlSku_thumbImages_spec main ts l0 s3 Hm2 Hm3) as (Ht1 & Ht2);
    destruct (UrlSku.thumbImages E main ts l0 s3) as [imgs s4]
  end.
  cbn [fst snd UrlSku.d_imageUrls] in *.
  exists imgs. split; [reflexivity|]. split; [assumption|].
  intros u. rewrite Ht2. unfold realPictures, pictureCandidates.
  rewrite filter_app, in_app_iff, Hm1. tauto.
Qed.

(** When the item page cannot be fetched, the picture list is empty. *)
Lemma urlSku_details_failed url s :
  Js.truthy url = true -> detailPage E url = None ->
  UrlSku.d_imageUrls (fst (UrlSku.scrapeProductDetails E url s)) = [].
Proof.
  intros Ht Hd. unfold UrlSku.scrapeProductDetails, getDetail.
  rewrite Ht. cbn [negb]. rewrite !bind_run. cbn [emit ret fst snd].
  rewrite Hd. rewrite !bind_run. reflexivity.
Qed.

End UrlSkuDetail.

(* ================================================================== *)
(** * Reading a file of quoted records back *)
(* ================================================================== *)

Lemma str_app_assoc (a b c : string) : ((a ++ b) ++ c)%string = (a ++ (b ++ c))%string.
Proof. induction a as [|x a IH]; cbn; [reflexivity | now rewrite IH]. Qed.

Lemma str_app_nil_r (a : string) : (a ++ "")%string = a.
Proof. induction a as [|x a IH]; cbn; [reflexivity | now rewrite IH]. Qed.

(** Inside a quoted field the reader runs to the closing quote. *)
Lemma recordsFrom_escape f :
  forall cur rest,
    Csv.recordsFrom true cur (Csv.escape f ++ String Csv.dquote rest)
    = Csv.recordsFrom false (cur ++ Csv.escape f ++ String Csv.dquote "") rest.
Proof.
  induction f as [|c f IH]; intros cur rest.
  - reflexivity.
  - cbn [Csv.escape]. destruct (Ascii.eqb c Csv.dquote) eqn:Hc.
    + cbn [append Csv.recordsFrom]. change (Ascii.eqb Csv.dquote Csv.dquote) with true.
      cbn [negb]. rewrite IH. f_equal.
      rewrite !str_app_assoc. reflexivity.
    + cbn [append Csv.recordsFrom]. rewrite Hc. rewrite IH. f_equal.
      rewrite !str_app_assoc. reflexivity.
Qed.

Lemma recordsFrom_quote f cur rest :
  Csv.recordsFrom false cur (Csv.quote f ++ rest)
  = Csv.recordsFrom false (cur ++ Csv.quote f) rest.
Proof.
  unfold Csv.quote. cbn [append Csv.recordsFrom].
  change (Ascii.eqb Csv.dquote Csv.dquote) with true. cbn [negb].
  rewrite str_app_assoc. cbn [append]. rewrite recordsFrom_escape.
  f_equal. rewrite str_app_assoc. reflexivity.
Qed.

Lemma recordsFrom_comma cur r :
  Csv.recordsFrom false cur (String "," (String Csv.dquote r))
  = Csv.recordsFrom false (cur ++ ",") (String Csv.dquote r).
Proof. reflexivity. Qed.

(** A line of quoted fields is read as one piece. *)
Lemma recordsFrom_line fields :
  forall cur rest,
    Csv.recordsFrom false cur (Csv.line fields ++ rest)
    = Csv.recordsFrom false (cur ++ Csv.line fields) rest.
Proof.
  unfold Csv.line.
  induction fields as [|f fs IH]; intros cur rest.
  - cbn. now rewrite str_app_nil_r.
  - destruct fs as [|g fs].
    + cbn [map String.concat]. apply recordsFrom_quote.
    + change (String.concat "," (map Csv.quote (f :: g :: fs)))
        with (Csv.quote f ++ "," ++ String.concat "," (map Csv.quote (g :: fs)))%string.
      rewrite !str_app_assoc, recordsFrom_quote.
      assert (Hg : exists r, (String.concat "," (map Csv.quote (g :: fs)) ++ rest)%string
                             = String Csv.dquote r).
      { destruct fs; cbn; eexists; reflexivity. }
      destruct Hg as [r Hr].
      cbn [append]. rewrite Hr, recordsFrom_comma, <- Hr, IH. f_equal.
      rewrite !str_app_assoc. reflexivity.
Qed.

Lemma recordsFrom_CRLF cur rest :
  Csv.recordsFrom false cur (Csv.CRLF ++ rest) = cur :: Csv.recordsFrom false "" rest.
Proof. reflexivity. Qed.

Lemma dataLine_opens i p : opensWithEmptyField (Csv.line (ByCar.toRow i p)) = true.
Proof. reflexivity. Qed.

Lemma opens_app a b : opensWithEmptyField a = true -> opensWithEmptyField (a ++ b) = true.
Proof.
  unfold opensWithEmptyField. destruct a as [|x a]; [discriminate|].
  cbn [String.prefix append]. destruct (Ascii.ascii_dec Csv.dquote x); [|discriminate].
  destruct a as [|y a]; [discriminate|].
  cbn [String.prefix append]. destruct (Ascii.ascii_dec Csv.dquote y); [|discriminate].
  intros _. now destruct (a ++ b)%string.
Qed.

Lemma header_not_data r : opensWithEmptyField r = true -> r <> Csv.HEADER_LINE.
Proof. intros H ->. vm_compute in H. discriminate. Qed.

(** The records of [n] data lines: at most [n] of them, each opening with
    the empty ID field; [cur] is the one being read at the end. *)
Lemma recordsFrom_DataText n t :
  DataText n t ->
  forall rest, exists done cur,
    Csv.recordsFrom false "" (t ++ rest) = (done ++ Csv.recordsFrom false cur rest)%list /\
    forallb opensWithEmptyField done = true /\ opensWithEmptyField cur = true /\
    S (List.length done) <= n.
Proof.
  induction 1 as [i p | n t i p H IH | n t i p H IH]; intros rest.
  - exists [], (Csv.line (ByCar.toRow i p)).
    rewrite recordsFrom_line. cbn [append app].
    repeat split; trivial.
  - destruct (IH (Csv.CRLF ++ Csv.line (ByCar.toRow i p) ++ rest)%string)
      as (done & cur & Hr & Hd & Hc & Hn).
    exists (done ++ [cur])%list, (Csv.line (ByCar.toRow i p)).
    rewrite !str_app_assoc, Hr, recordsFrom_CRLF, recordsFrom_line.
    cbn [append]. rewrite <- app_assoc. cbn [app].
    rewrite forallb_app, Hd. cbn [forallb]. rewrite Hc, length_app. cbn [List.length].
    repeat split; trivial. lia.
  - destruct (IH (Csv.line (ByCar.toRow i p) ++ rest)%string)
      as (done & cur & Hr & Hd & Hc & Hn).
    exists done, (cur ++ Csv.line (ByCar.toRow i p))%string.
    rewrite !str_app_assoc, Hr, recordsFrom_line.
    repeat split; trivial; [now apply opens_app | lia].
Qed.

(** A file made of the header and [n] data lines holds the header once and
    at most [n] data records. *)
Lemma records_header_data n t :
  DataText n t ->
  let c := (Csv.HEADER_LINE ++ Csv.CRLF ++ t)%string in
  Csv.headerCount c = 1 /\ List.length (Csv.dataRows c) <= n /\
  1 <= List.length (Csv.dataRows c).
Proof.
  intros H c.
  destruct (recordsFrom_DataText n t H "") as (done & cur & Hr & Hd & Hc & Hn).
  rewrite str_app_nil_r in Hr.
  assert (Hrec : Csv.records c = (Csv.HEADER_LINE :: done ++ [cur])%list).
  { unfold Csv.records, c. replace (Js.truthy _) with true by reflexivity.
    unfold Csv.HEADER_LINE at 1. rewrite recordsFrom_line, recordsFrom_CRLF.
    cbn [append]. now rewrite Hr. }
  assert (Hall : forallb opensWithEmptyField (done ++ [cur]) = true).
  { rewrite forallb_app, Hd. cbn. now rewrite Hc. }
  unfold Csv.headerCount, Csv.dataRows. rewrite Hrec.
  cbn [count_occ filter]. destruct (string_dec Csv.HEADER_LINE Csv.HEADER_LINE); [|congruence].
  rewrite String.eqb_refl. cbn [negb].
  assert (Hno : count_occ string_dec (done ++ [cur]) Csv.HEADER_LINE = 0).
  { apply count_occ_not_In. intros Hin. rewrite forallb_forall in Hall.
    apply (header_not_data _ (Hall _ Hin)). reflexivity. }
  assert (Hf : filter (fun r => negb (r =? Csv.HEADER_LINE)%string) (done ++ [cur])
               = (done ++ [cur])%list).
  { apply forallb_filter_id. apply forallb_forall. intros r Hin.
    rewrite forallb_forall in Hall.
    destruct (String.eqb_spec r Csv.HEADER_LINE) as [->|]; [|reflexivity].
    exfalso. apply (header_not_data _ (Hall _ Hin)). reflexivity. }
  rewrite Hno, Hf, length_app. cbn [List.length]. lia.
Qed.

(* ================================================================== *)
(** * The batch writer and the budget of the grouped crawler *)
(* ================================================================== *)

Lemma concat_lines r rs :
  String.concat Csv.CRLF (map Csv.line (r :: rs))
  = (Csv.line r
     ++ fold_right (fun x acc => Csv.CRLF ++ Csv.line x ++ acc) "" rs)%string.
Proof.
  revert r. induction rs as [|r2 rs IH]; intros r.
  - cbn. now rewrite str_app_nil_r.
  - change (String.concat Csv.CRLF (map Csv.line (r :: r2 :: rs)))
      with (Csv.line r ++ Csv.CRLF ++ String.concat Csv.CRLF (map Csv.line (r2 :: rs)))%string.
    rewrite IH. reflexivity.
Qed.

Lemma DataText_rows ps :
  forall i n t,
    DataText n t ->
    DataText (n + List.length ps)
      (t ++ fold_right (fun x acc => Csv.CRLF ++ Csv.line x ++ acc) ""
              (NameSku.mapIndexed ByCar.toRow i ps)).
Proof.
  induction ps as [|p ps IH]; intros i n t H.
  - cbn. now rewrite str_app_nil_r, Nat.add_0_r.
  - cbn [NameSku.mapIndexed fold_right List.length].
    replace (n + S (List.length ps)) with (S n + List.length ps) by lia.
    specialize (IH (S i) (S n) _ (DataText_next n t i p H)).
    rewrite !str_app_assoc in *. exact IH.
Qed.

Lemma batch_rows p ps :
  ByCar.convertBatchToWooCommerceCSV (p :: ps) false
  = (Csv.line (ByCar.toRow 0 p)
     ++ fold_right (fun x acc => Csv.CRLF ++ Csv.line x ++ acc) ""
          (NameSku.mapIndexed ByCar.toRow 1 ps))%string.
Proof.
  unfold ByCar.convertBatchToWooCommerceCSV, Csv.unparse.
  cbn [NameSku.mapIndexed app]. apply concat_lines.
Qed.

(** With the header, a batch is the header line, a separator and the
    batch without header. *)
Lemma batch_with_header p ps :
  ByCar.convertBatchToWooCommerceCSV (p :: ps) true
  = (Csv.HEADER_LINE ++ Csv.CRLF
     ++ ByCar.convertBatchToWooCommerceCSV (p :: ps) false)%string.
Proof. reflexivity. Qed.

Lemma DataText_batch_first p ps :
  DataText (S (List.length ps)) (ByCar.convertBatchToWooCommerceCSV (p :: ps) false).
Proof.
  rewrite batch_rows. apply (DataText_rows ps 1 1). constructor.
Qed.

Lemma DataText_batch_next n t p ps (separated : bool) :
  DataText n t ->
  DataText (n + S (List.length ps))
    (t ++ (if separated then Csv.CRLF else "")
       ++ ByCar.convertBatchToWooCommerceCSV (p :: ps) false).
Proof.
  intros H. rewrite batch_rows.
  replace (n + S (List.length ps)) with (S n + List.length ps) by lia.
  destruct separated.
  - pose proof (DataText_rows ps 1 _ _ (DataText_next n t 0 p H)) as H'.
    rewrite !str_app_assoc in *. exact H'.
  - pose proof (DataText_rows ps 1 _ _ (DataText_runon n t 0 p H)) as H'.
    rewrite !str_app_assoc in *. exact H'.
Qed.

Lemma FileShape_steps allowed hw total s s' :
  steps allowed s s' -> FileShape hw total s -> FileShape hw total s'.
Proof.
  intros (Hf & _) H. unfold FileShape in *. now rewrite Hf.
Qed.

Lemma FileShape_more hw total total' s :
  total <= total' -> FileShape hw total s -> FileShape hw total' s.
Proof.
  intros Hle H. unfold FileShape in *. destruct hw; [|assumption].
  destruct H as (n & t & Hd & Hn & Hf). exists n, t. repeat split; trivial. lia.
Qed.

Lemma FileShape_console hw total lvl msg s :
  FileShape hw total s -> FileShape hw total (snd (console lvl msg s)).
Proof. intros H. exact H. Qed.

Section ByCarRun.
Variable E : Env.
Variable cfg : ByCar.Config.

(** The record separator the batch writer puts before appended rows. *)
Lemma byCar_saveBatch_result brandCode batch hw s :
  let r := ByCar.saveBatch E brandCode batch hw s in
  let rows := ByCar.convertBatchToWooCommerceCSV batch false in
  let separator :=
    match (if fsOk E (fsOps s) then option_map String.length (file s) else None) with
    | Some size => if (0 <? size)%nat then Csv.CRLF else ""
    | None => ""
    end in
  (fst r, file (snd r)) =
  match batch with
  | [] => (hw, file s)
  | _ :: _ =>
      if hw then
        (true,
         if (0 <? String.length (trim E rows))%nat && fsOk E (S (fsOps s))
         then Some (content s ++ separator ++ rows)%string
         else file s)
      else
        (fsOk E (fsOps s),
         if fsOk E (fsOps s)
         then Some (ByCar.convertBatchToWooCommerceCSV batch true)
         else file s)
  end.
Proof.
  unfold ByCar.saveBatch. destruct batch as [|p ps]; [reflexivity|].
  replace (0 <? List.length (p :: ps))%nat with true by reflexivity.
  rewrite bind_run. destruct hw; cbn [negb].
  - destruct (0 <? String.length
                     (trim E (ByCar.convertBatchToWooCommerceCSV (p :: ps) false)))%nat;
      cbn [andb]; [|reflexivity].
    rewrite !bind_run. unfold content.
    change (fsOps (snd (stat E ?x))) with (S (fsOps x)).
    unfold appendFile, stat, console. cbn [emit fst snd file fsOps trace].
    destruct (fsOk E (S (fsOps s))); cbn [fst snd file]; rewrite bind_run;
      [|reflexivity].
    cbn [ret console emit fst snd file]. destruct (file s); reflexivity.
  - rewrite !bind_run. unfold writeFile, console. cbn [emit fst snd file fsOps trace].
    destruct (fsOk E (fsOps s)); rewrite bind_run; reflexivity.
Qed.

(** Saving a batch keeps the shape of the file and adds at most the batch
    to its data lines. *)
Lemma byCar_saveBatch_shape brandCode batch hw total s :
  FileShape hw total s ->
  let r := ByCar.saveBatch E brandCode batch hw s in
  FileShape (fst r) (total + List.length batch) (snd r).
Proof.
  intros H r. pose proof (byCar_saveBatch_result brandCode batch hw s) as Hr.
  cbv zeta in Hr. fold r in Hr.
  assert (Hgoal : forall hw' f, (fst r, file (snd r)) = (hw', f) ->
                  (if hw' then exists n t, DataText n t /\ n <= total + List.length batch
                                           /\ f = Some (Csv.HEADER_LINE ++ Csv.CRLF ++ t)%string
                   else f = Some "") ->
                  FileShape (fst r) (total + List.length batch) (snd r)).
  { intros hw' f Heq Hs. injection Heq as H1 H2.
    unfold FileShape. rewrite H1, H2. exact Hs. }
  destruct batch as [|p ps].
  { apply (Hgoal _ _ Hr). unfold FileShape in H. destruct hw; [|assumption].
    destruct H as (n & t & Hd & Hn & Hf). exists n, t. repeat split; trivial. lia. }
  destruct hw.
  - destruct H as (n & t & Hd & Hn & Hf). apply (Hgoal _ _ Hr).
    destruct ((0 <? _)%nat && fsOk E (S (fsOps s))).
    + unfold content. rewrite Hf.
      match goal with |- context [match ?x with Some _ => _ | None => ""%string end] =>
        assert (Hsep : exists b : bool, match x with
                                        | Some size => if (0 <? size)%nat then Csv.CRLF else ""
                                        | None => ""
                                        end = if b then Csv.CRLF else ""%string)
      end.
      { destruct (fsOk E (fsOps s)); cbn [option_map].
        - destruct (0 <? _)%nat; [exists true | exists false]; reflexivity.
        - exists false; reflexivity. }
      destruct Hsep as [b Hsep].
      exists (n + S (List.length ps)),
        (t ++ (if b then Csv.CRLF else "")
           ++ ByCar.convertBatchToWooCommerceCSV (p :: ps) false)%string.
      split; [|split].
      * exact (DataText_batch_next n t p ps b Hd).
      * cbn [List.length]. lia.
      * rewrite Hsep, !str_app_assoc. reflexivity.
    + exists n, t. repeat split; trivial. lia.
  - apply (Hgoal _ _ Hr). unfold FileShape in H.
    destruct (fsOk E (fsOps s)); [|assumption].
    exists (S (List.length ps)), (ByCar.convertBatchToWooCommerceCSV (p :: ps) false).
    split; [apply DataText_batch_first | split].
    + cbn [List.length]. lia.
    + now rewrite batch_with_header.
Qed.

Lemma sliceTo_length {A} (l : list A) n total :
  total < n -> total + List.length (Js.sliceTo l (Js.Finite n) total) <= n.
Proof.
  intros H. cbn [Js.sliceTo]. rewrite length_firstn. lia.
Qed.

Lemma byCar_budget_kept {A} (l : list A) total :
  withinBudget cfg total ->
  Js.reached total (ByCar.MAX_TOTAL_PRODUCTS cfg) = false ->
  withinBudget cfg
    (total + List.length (Js.sliceTo l (ByCar.MAX_TOTAL_PRODUCTS cfg) total)).
Proof.
  unfold withinBudget. destruct (ByCar.MAX_TOTAL_PRODUCTS cfg) as [n|]; [|trivial].
  cbn [Js.reached]. intros _ Hr. apply Nat.leb_gt in Hr.
  now apply sliceTo_length.
Qed.

(** The year loop only scrapes; what it adds to the batch it adds to the
    total, and the total stays within the budget. *)
Lemma byCar_yearLoop_spec fuel b m years :
  forall batch total s,
    withinBudget cfg total ->
    let r := ByCar.yearLoop E cfg fuel b m years batch total s in
    steps scrapeEvent s (snd r) /\
    snd (fst r) + List.length batch = total + List.length (snd (fst (fst r))) /\
    withinBudget cfg (snd (fst r)).
Proof.
  induction years as [|y years IH]; intros batch total s Hb; cbn [ByCar.yearLoop].
  - cbn [ret fst snd]. split; [apply steps_refl | split; [lia | assumption]].
  - destruct (Js.reached total (ByCar.MAX_TOTAL_PRODUCTS cfg)) eqn:Hr.
    + rewrite bind_run. cbn [ret fst snd].
      split; [now apply steps_emit | split; [lia | assumption]].
    + rewrite bind_run.
      pose proof (byCar_scrapeSingleCar_quiet E cfg fuel b m y s) as Hq.
      destruct (ByCar.scrapeSingleCar E cfg fuel b m y s) as [[ps|] s1];
        cbn [fst snd] in *.
      2:{ cbn [ret fst snd]. split; [assumption | split; [lia | assumption]]. }
      pose proof (byCar_budget_kept ps total Hb Hr) as Hb'.
      match goal with |- context [if Js.reached ?t ?c then _ else _] =>
        destruct (Js.reached t c)
      end.
      * rewrite bind_run. cbn [ret fst snd]. split; [|split].
        -- eapply steps_trans; [exact Hq | now apply steps_emit].
        -- rewrite length_app. lia.
        -- assumption.
      * rewrite bind_run.
        match goal with |- context [ByCar.yearLoop E cfg fuel b m years ?bt ?tt ?s2] =>
          destruct (IH bt tt s2 Hb') as (Hs & Hc & Hw);
          assert (Hs2 : steps scrapeEvent s s2)
            by (eapply steps_trans; [exact Hq | now apply steps_emit])
        end.
        split; [|split].
        -- eapply steps_trans; eassumption.
        -- rewrite length_app in Hc. lia.
        -- assumption.
Qed.

Lemma byCar_modelLoop_spec fuel b models :
  forall batch total s,
    withinBudget cfg total ->
    let r := ByCar.modelLoop E cfg fuel b models batch total s in
    steps scrapeEvent s (snd r) /\
    snd (fst r) + List.length batch = total + List.length (snd (fst (fst r))) /\
    withinBudget cfg (snd (fst r)).
Proof.
  induction models as [|[m years] models IH]; intros batch total s Hb;
    cbn [ByCar.modelLoop].
  - cbn [ret fst snd]. split; [apply steps_refl | split; [lia | assumption]].
  - rewrite bind_run.
    destruct (byCar_yearLoop_spec fuel b m years batch total s Hb) as (Hs & Hc & Hw).
    destruct (ByCar.yearLoop E cfg fuel b m years batch total s)
      as [[[signal batch1] total1] s1].
    cbn [fst snd] in *.
    destruct signal; try (cbn [ret fst snd]; split; [assumption | split; assumption]).
    destruct (Js.reached total1 (ByCar.MAX_TOTAL_PRODUCTS cfg));
      [cbn [ret fst snd]; split; [assumption | split; assumption]|].
    destruct (IH batch1 total1 s1 Hw) as (Hs' & Hc' & Hw').
    split; [|split].
    + eapply steps_trans; eassumption.
    + lia.
    + assumption.
Qed.

Lemma grows_refl s : grows s s.
Proof. now exists []. Qed.

Lemma grows_trans s1 s2 s3 : grows s1 s2 -> grows s2 s3 -> grows s1 s3.
Proof.
  intros [e1 H1] [e2 H2]. exists (e2 ++ e1)%list. rewrite H2, H1.
  now rewrite app_assoc.
Qed.

Lemma steps_grows allowed s s' : steps allowed s s' -> grows s s'.
Proof. intros (_ & _ & evs & H & _). now exists evs. Qed.

Lemma growing_ret {A} (a : A) : growing (ret a).
Proof. intros s. apply grows_refl. Qed.

Lemma growing_bind {A B} (m : M A) (k : A -> M B) :
  growing m -> (forall a, growing (k a)) -> growing (bind m k).
Proof.
  intros Hm Hk s. rewrite bind_run. eapply grows_trans; [apply Hm | apply Hk].
Qed.

Lemma growing_emit e : growing (emit e).
Proof. intros s. now exists [e]. Qed.

Lemma growing_writeFile data : growing (writeFile E data).
Proof. intros s. now exists [WriteFile data (fsOk E (fsOps s))]. Qed.

Lemma growing_appendFile data : growing (appendFile E data).
Proof. intros s. now exists [AppendFile data (fsOk E (fsOps s))]. Qed.

Lemma growing_stat : growing (stat E).
Proof. intros s. eexists [_]. reflexivity. Qed.

Lemma quiet_growing allowed {A} (m : M A) : quiet allowed m -> growing m.
Proof. intros H s. eapply steps_grows, H. Qed.

Lemma byCar_saveBatch_growing brandCode batch hw :
  growing (ByCar.saveBatch E brandCode batch hw).
Proof.
  unfold ByCar.saveBatch.
  repeat first
    [ apply growing_ret
    | apply growing_bind; [| intros ?]
    | apply growing_emit
    | apply growing_writeFile
    | apply growing_appendFile
    | apply growing_stat
    | match goal with |- growing (if ?x then _ else _) => destruct x end ].
Qed.

(** The brand loop keeps the shape of the file and the budget; it ends
    completed or starved. *)
Lemma byCar_brandLoop_spec fuel brands :
  forall hw total s,
    FileShape hw total s -> withinBudget cfg total ->
    let r := ByCar.brandLoop E cfg fuel brands hw total s in
    FileShape (ByCar.isHeaderWritten (fst r)) (ByCar.totalProductsScraped (fst r)) (snd r) /\
    withinBudget cfg (ByCar.totalProductsScraped (fst r)) /\
    grows s (snd r) /\
    (ByCar.outcome (fst r) = ByCar.Completed \/ ByCar.outcome (fst r) = ByCar.OutOfFuel).
Proof.
  induction brands as [|[b models] brands IH]; intros hw total s Hf Hb;
    cbn [ByCar.brandLoop].
  - cbn. repeat split; trivial; [apply grows_refl | now left].
  - rewrite !bind_run.
    set (s0 := snd (console Log _ s)).
    assert (Hf0 : FileShape hw total s0) by exact Hf.
    assert (Hg0 : grows s s0) by (eexists [_]; reflexivity).
    destruct (byCar_modelLoop_spec fuel b models [] total s0 Hb) as (Hs & Hc & Hw).
    destruct (ByCar.modelLoop E cfg fuel b models [] total s0)
      as [[[signal batch] total1] s1].
    cbn [fst snd List.length] in *.
    assert (Hf1 : FileShape hw total s1) by (eapply FileShape_steps; eassumption).
    assert (Hg1 : grows s s1)
      by (eapply grows_trans; [exact Hg0 | eapply steps_grows; exact Hs]).
    assert (Hfinish : forall outc,
               outc = ByCar.Completed \/ outc = ByCar.OutOfFuel ->
               let r := ret {| ByCar.outcome := outc; ByCar.isHeaderWritten := hw;
                               ByCar.totalProductsScraped := total1 |} s1 in
               FileShape (ByCar.isHeaderWritten (fst r))
                 (ByCar.totalProductsScraped (fst r)) (snd r) /\
               withinBudget cfg (ByCar.totalProductsScraped (fst r)) /\
               grows s (snd r) /\
               (ByCar.outcome (fst r) = ByCar.Completed
                \/ ByCar.outcome (fst r) = ByCar.OutOfFuel)).
    { intros outc Ho. cbn. repeat split; trivial.
      eapply FileShape_more; [|exact Hf1]. lia. }
    assert (Hsave :
      let r := (isHeaderWritten <- ByCar.saveBatch E b batch hw ;;
                if Js.reached total1 (ByCar.MAX_TOTAL_PRODUCTS cfg)
                then
                  console Log (ByCar.limitMessage cfg ++ " after processing brand "
                               ++ b ++ ". Stopping all scraping.") ;;
                  ret {| ByCar.outcome := ByCar.Completed;
                         ByCar.isHeaderWritten := isHeaderWritten;
                         ByCar.totalProductsScraped := total1 |}
                else ByCar.brandLoop E cfg fuel brands isHeaderWritten total1) s1 in
      FileShape (ByCar.isHeaderWritten (fst r))
        (ByCar.totalProductsScraped (fst r)) (snd r) /\
      withinBudget cfg (ByCar.totalProductsScraped (fst r)) /\
      grows s (snd r) /\
      (ByCar.outcome (fst r) = ByCar.Completed
       \/ ByCar.outcome (fst r) = ByCar.OutOfFuel)).
    { rewrite bind_run.
      pose proof (byCar_saveBatch_shape b batch hw total s1 Hf1) as Hf2.
      pose proof (byCar_saveBatch_growing b batch hw s1) as Hg2.
      destruct (ByCar.saveBatch E b batch hw s1) as [hw2 s2]. cbn [fst snd] in *.
      replace (total + List.length batch) with total1 in Hf2 by lia.
      destruct (Js.reached total1 (ByCar.MAX_TOTAL_PRODUCTS cfg)).
      - rewrite bind_run. cbn [ret fst snd ByCar.isHeaderWritten
                               ByCar.totalProductsScraped ByCar.outcome].
        repeat split; trivial; [|now left].
        eapply grows_trans; [exact Hg1|]. eapply grows_trans; [exact Hg2|].
        eexists [_]; reflexivity.
      - destruct (IH hw2 total1 s2 Hf2 Hw) as (H1 & H2 & H3 & H4).
        repeat split; trivial.
        eapply grows_trans; [exact Hg1|]. eapply grows_trans; eassumption. }
    destruct signal.
    + exact Hsave.
    + exact Hsave.
    + apply Hfinish. now left.
    + apply Hfinish. now right.
Qed.

End ByCarRun.

(* ================================================================== *)
(** * The detail merge stage *)
(* ================================================================== *)

(** The first crawler emits a product for every summary of a page. *)
Lemma nameSku_merge_emits_each_summary (E : Env) infos :
  forall c len i all s,
    List.length (fst (NameSku.productsLoop E c len i infos all s))
    = List.length all + List.length infos.
Proof.
  induction infos as [|b rest IH]; intros; cbn [NameSku.productsLoop].
  - cbn. lia.
  - rewrite bind_run. destruct (Js.oOrNull (NameSku.b_productPageUrl b)).
    + rewrite !bind_run, IH, length_app. cbn. lia.
    + rewrite !bind_run, IH, length_app. cbn. lia.
Qed.

(** So does the grouped crawler, up to its cap per car. *)
Lemma byCar_merge_emits_each_summary (E : Env) (cfg : ByCar.Config) ps :
  ByCar.MAX_PRODUCTS_PER_CAR cfg = Js.Infinity ->
  forall acc n s,
    List.length (fst (fst (ByCar.carProductsLoop E cfg ps acc n s)))
    = List.length acc + List.length ps.
Proof.
  intros Hcap. induction ps as [|p rest IH]; intros; cbn [ByCar.carProductsLoop].
  - cbn. lia.
  - rewrite Hcap. cbn [Js.reached]. rewrite !bind_run, IH, length_app. cbn. lia.
Qed.

(** C1 (the code departs from the claim).  On a listing page of two items
    whose second has no link, the listing extractor of the second crawler
    yields two summaries but its merge stage emits one product: the summary
    without item URL is dropped.  On the same page the first crawler emits
    both, the second with a null manufacturer code. *)
Theorem C1_second_crawler_drops_summary_without_url :
  let s := initial None in
  let summaries := fst (fst (UrlSku.scrapeCatalogPage Demo.site1 UrlSku.START_URL s)) in
  map UrlSku.b_name summaries = [Some "Brake Pad"; Some "Oil Filter"] /\
  map UrlSku.b_productPageUrl summaries
    = [Some "https://www.fastdeliverycarparts.com/detala/101"; None] /\
  map UrlSku.name (fst (fst (UrlSku.scrapeAllPages Demo.site1 s)))
    = [Some "Brake Pad"] /\
  map (fun p => (NameSku.name p, NameSku.manufacturerCode p))
      (fst (fst (NameSku.scrapeAllPages Demo.site1 s)))
    = [(Some "Brake Pad", Some "MC-101"); (Some "Oil Filter", None)].
Proof. vm_compute. repeat split. Qed.

(* ================================================================== *)
(** * The listing extractor: which items are kept *)
(* ================================================================== *)


(* ================================================================== *)
(** * The picture list of a merged product *)
(* ================================================================== *)

(** C6, as the claim states it, fails: a product whose item page cannot be
    fetched is merged with an empty picture list, although the placeholder
    URL resolves and the list would otherwise be empty. *)
Lemma C6_counterexample_no_placeholder_when_detail_fetch_fails :
  map UrlSku.imageUrls (fst (fst (UrlSku.scrapeAllPages Demo.site2 (initial None))))
    = [[]] /\
  resolve Demo.site2 "/img/default-image.png" UrlSku.BASE_URL
    = Some "https://www.fastdeliverycarparts.com/img/default-image.png".
Proof. vm_compute. split; reflexivity. Qed.

(** C6, amended.  The picture list of a merged product has no repeated URL.
    When the item page was fetched, the list is made of the real pictures of
    the page, and of them only, if there is one, and it is the placeholder
    alone exactly when there is none; when the item page could not be
    fetched the list is empty. *)
Theorem C6_picture_list_of_merged_product :
  forall (E : Env) (b : UrlSku.BaseInfo) (url : string) (s : Sys),
    Js.truthy url = true ->
    let p := UrlSku.withDetails b (fst (UrlSku.scrapeProductDetails E url s)) in
    (detailPage E url = None -> UrlSku.imageUrls p = []) /\
    (forall doc placeholder,
       detailPage E url = Some doc ->
       resolve E "/img/default-image.png" UrlSku.BASE_URL = Some placeholder ->
       isRealPicture placeholder = false ->
       NoDup (UrlSku.imageUrls p) /\
       (realPictures E doc <> [] ->
          (forall u, In u (UrlSku.imageUrls p) <-> In u (realPictures E doc)) /\
          ~ In placeholder (UrlSku.imageUrls p)) /\
       (realPictures E doc = [] <-> UrlSku.imageUrls p = [placeholder])).
Proof.
  intros E b url s Ht p. subst p. cbn [UrlSku.withDetails UrlSku.imageUrls].
  split.
  - intros Hd. now apply urlSku_details_failed.
  - intros doc placeholder Hd Hp Hreal.
    destruct (urlSku_details_pictures E url doc s Ht Hd) as (extracted & Hi & Hn & Hin).
    rewrite Hi. unfold UrlSku.withPlaceholder. rewrite Hp.
    assert (Hph : ~ In placeholder (realPictures E doc)).
    { unfold realPictures. rewrite filter_In. intros [_ H]. congruence. }
    destruct extracted as [|x xs].
    + assert (He : realPictures E doc = []).
      { destruct (realPictures E doc) as [|y ys]; [reflexivity|].
        exfalso. apply (proj2 (Hin y)). now left. }
      cbn [List.length Nat.eqb app]. split; [|split].
      * repeat constructor. intros [].
      * intros Hne. congruence.
      * tauto.
    + cbn [List.length Nat.eqb]. split; [assumption | split].
      * intros _. split; [assumption|]. intros H. apply Hph. now apply Hin.
      * split.
        -- intros He. exfalso. specialize (Hin x). rewrite He in Hin.
           apply Hin. now left.
        -- intros [= -> ->]. exfalso. apply Hph. apply Hin. now left.
Qed.

(** C6, amended, on the item page of site 1, whose main picture is real. *)
Lemma C6_picture_list_witness :
  UrlSku.imageUrls
    (UrlSku.withDetails
       {| UrlSku.b_sku := None; UrlSku.b_siteCode := None; UrlSku.b_name := None;
          UrlSku.b_price := None; UrlSku.b_productPageUrl := None |}
       (fst (UrlSku.scrapeProductDetails Demo.site1
               "https://www.fastdeliverycarparts.com/detala/101" (initial None))))
  <> ["https://www.fastdeliverycarparts.com/img/default-image.png"]
  /\ realPictures Demo.site1 (Demo.detailDoc "MC-101" (Some "/img/p/__300/101.jpg") [])
     = ["https://www.fastdeliverycarparts.com/img/p/101.jpg"].
Proof.
  split; [|reflexivity].
  pose proof (C6_picture_list_of_merged_product Demo.site1
                {| UrlSku.b_sku := None; UrlSku.b_siteCode := None;
                   UrlSku.b_name := None; UrlSku.b_price := None;
                   UrlSku.b_productPageUrl := None |}
                "https://www.fastdeliverycarparts.com/detala/101" (initial None)
                eq_refl) as [_ H].
  specialize (H (Demo.detailDoc "MC-101" (Some "/img/p/__300/101.jpg") [])
                "https://www.fastdeliverycarparts.com/img/default-image.png"
                eq_refl eq_refl eq_refl).
  destruct H as (_ & _ & H). intros Heq. apply H in Heq. discriminate Heq.
Defined.

(* ================================================================== *)
(** * The page ceiling of the single-catalogue walkers *)
(* ================================================================== *)

Lemma walk_no_ceiling_line evs :
  forallb walkEvent evs = true -> filter isCeilingLine evs = [].
Proof.
  induction evs as [|e evs IH]; [reflexivity|].
  cbn [forallb filter]. rewrite andb_true_iff. intros [He Hr].
  rewrite (IH Hr). destruct e; unfold walkEvent in He; cbn in *; trivial.
  destruct (isCeilingMessage msg); [discriminate | reflexivity].
Qed.

Lemma walk_urls_tail e t :
  isGetListing e = false -> listingUrls (e :: t) = listingUrls t.
Proof.
  intros H. rewrite listingUrls_cons. destruct e; try discriminate; apply app_nil_r.
Qed.

(** A run of the first crawler: it requests as many listing pages as it
    counts, at most the ceiling, and the ceiling line is logged once, as
    a warning, exactly when the count reached the ceiling. *)
Lemma nameSku_run_spec (E : Env) previous :
  let r := NameSku.scrapeAllPages E (initial previous) in
  let pages := List.length (listingUrls (trace (snd r))) in
  pages = snd (fst r) /\ pages <= NameSku.MAX_CATALOG_PAGES /\
  filter isCeilingLine (trace (snd r))
  = if (NameSku.MAX_CATALOG_PAGES <=? pages)%nat
    then [Console Warn NameSku.ceilingMessage] else [].
Proof.
  unfold NameSku.scrapeAllPages. rewrite !bind_run.
  set (s0 := snd (console Log "Starting scraper..." (initial previous))).
  destruct (nameSku_pagesLoop_spec E NameSku.MAX_CATALOG_PAGES (Some NameSku.START_URL)
              0 [] s0 ltac:(lia) ltac:(lia)) as (Hn & (_ & _ & evs & Ht & Ha) & Hu).
  destruct (NameSku.pagesLoop E NameSku.MAX_CATALOG_PAGES (Some NameSku.START_URL) 0 [] s0)
    as [[all n] s1].
  cbn [fst snd] in *. change (listingUrls (trace s0)) with (@nil string) in Hu.
  cbn [List.length] in Hu. rewrite Nat.sub_0_r, Nat.add_0_l in Hu.
  change (trace s0) with [Console Log "Starting scraper..."] in Ht.
  assert (Hw := walk_no_ceiling_line evs Ha).
  unfold writeFile, console.
  destruct (NameSku.MAX_CATALOG_PAGES <=? n)%nat eqn:Hc;
    destruct (0 <? List.length all)%nat;
    rewrite ?bind_run; cbn [emit ret fst snd trace fsOps file];
    try destruct (fsOk E (fsOps s1));
    rewrite ?bind_run; cbn [emit ret fst snd trace fsOps file];
    rewrite ?walk_urls_tail by reflexivity; rewrite Hu, Hc;
    (split; [reflexivity | split; [lia|]]);
    cbn [filter isCeilingLine]; rewrite Ht, filter_app, Hw; reflexivity.
Qed.

(** A run of the second crawler: it too requests as many listing pages as it
    counts, at most the ceiling, and the ceiling line is logged once, as
    a warning, exactly when the count reached the ceiling. *)
Lemma urlSku_run_spec (E : Env) previous :
  let r := UrlSku.scrapeAllPages E (initial previous) in
  let pages := List.length (listingUrls (trace (snd r))) in
  pages = snd (fst r) /\ pages <= UrlSku.MAX_CATALOG_PAGES /\
  filter isCeilingLine (trace (snd r))
  = if (UrlSku.MAX_CATALOG_PAGES <=? pages)%nat
    then [Console Warn UrlSku.ceilingMessage] else [].
Proof.
  unfold UrlSku.scrapeAllPages. rewrite !bind_run.
  set (s0 := snd (console Log "Starting scraper..." (initial previous))).
  destruct (urlSku_pagesLoop_spec E UrlSku.MAX_CATALOG_PAGES (Some UrlSku.START_URL)
              0 [] s0 ltac:(lia) ltac:(lia)) as (Hn & (_ & _ & evs & Ht & Ha) & Hu).
  destruct (UrlSku.pagesLoop E UrlSku.MAX_CATALOG_PAGES (Some UrlSku.START_URL) 0 [] s0)
    as [[all n] s1].
  cbn [fst snd] in *. change (listingUrls (trace s0)) with (@nil string) in Hu.
  cbn [List.length] in Hu. rewrite Nat.sub_0_r, Nat.add_0_l in Hu.
  change (trace s0) with [Console Log "Starting scraper..."] in Ht.
  assert (Hw := walk_no_ceiling_line evs Ha).
  unfold writeFile, console.
  destruct (UrlSku.MAX_CATALOG_PAGES <=? n)%nat eqn:Hc;
    destruct (0 <? List.length all)%nat;
    rewrite ?bind_run; cbn [emit ret fst snd trace fsOps file];
    try destruct (fsOk E (fsOps s1));
    rewrite ?bind_run; cbn [emit ret fst snd trace fsOps file];
    rewrite ?walk_urls_tail by reflexivity; rewrite Hu, Hc;
    (split; [reflexivity | split; [lia|]]);
    cbn [filter isCeilingLine]; rewrite Ht, filter_app, Hw; reflexivity.
Qed.

(** C7, as the claim states it, fails for the walker of the grouped
    crawler, which has no page ceiling: with the caps of the source it
    requests 1001 listing pages of a car whose two pages link to each other,
    and is not done. *)
Lemma C7_counterexample_grouped_walk_has_no_page_ceiling :
  let r := ByCar.scrapeSingleCar Demo.site5 ByCar.sourceConfig 1001 "BMW" "X5" "2010"
             (initial None) in
  List.length (listingUrls (trace (snd r))) = 1001 /\ fst r = None /\
  NameSku.MAX_CATALOG_PAGES = 1000.
Proof. vm_compute. repeat split. Qed.

(** C7, amended.  Every pagination walk of the two single-catalogue
    crawlers requests as many listing pages as it counts and at most
    MAX_CATALOG_PAGES of them; the console line of the ceiling is logged
    exactly when the count reached the ceiling, once and as a warning.  (The
    walker of the grouped crawler has no page ceiling; only its cap of
    products per car bounds it.) *)
Theorem C7_single_catalogue_walks_stop_at_page_ceiling :
  forall (E : Env) (previous : option string),
    (let r := NameSku.scrapeAllPages E (initial previous) in
     let pages := List.length (listingUrls (trace (snd r))) in
     pages = snd (fst r) /\ pages <= NameSku.MAX_CATALOG_PAGES /\
     filter isCeilingLine (trace (snd r))
     = if (NameSku.MAX_CATALOG_PAGES <=? pages)%nat
       then [Console Warn NameSku.ceilingMessage] else []) /\
    (let r := UrlSku.scrapeAllPages E (initial previous) in
     let pages := List.length (listingUrls (trace (snd r))) in
     pages = snd (fst r) /\ pages <= UrlSku.MAX_CATALOG_PAGES /\
     filter isCeilingLine (trace (snd r))
     = if (UrlSku.MAX_CATALOG_PAGES <=? pages)%nat
       then [Console Warn UrlSku.ceilingMessage] else []).
Proof.
  intros E previous. split; [apply nameSku_run_spec | apply urlSku_run_spec].
Qed.

(* ================================================================== *)
(** * Cycles and empty pages in a pagination walk *)
(* ================================================================== *)

(** A page that is not skipped as empty and whose next link resolves to
    another URL than its own is followed by that URL, whatever was requested
    before. *)
Lemma nameSku_other_link_followed (E : Env) fuel url next n all s :
  Js.truthy url = true -> Js.truthy next = true -> next <> url ->
  S n < NameSku.MAX_CATALOG_PAGES ->
  fst (fst (NameSku.scrapeCatalogPage E url s)) <> [] \/ n = 0 ->
  snd (fst (NameSku.scrapeCatalogPage E url s)) = Some next ->
  exists more,
    listingUrls (trace (snd (NameSku.pagesLoop E (S (S fuel)) (Some url) n all s)))
    = (listingUrls (trace s) ++ url :: next :: more)%list.
Proof.
  intros Ht Htn Hne Hn Hfull He.
  remember (S fuel) as fuel1 eqn:Hfuel.
  cbn [NameSku.pagesLoop]. rewrite Ht.
  rewrite (proj2 (Nat.ltb_lt n _)) by lia. cbn [andb]. rewrite bind_run.
  destruct (nameSku_page_run E url s) as (_ & Hu).
  destruct (NameSku.scrapeCatalogPage E url s) as [[infos nx] s1].
  cbn [fst snd] in *. subst nx.
  assert (Hgo : (List.length infos =? 0)%nat && (1 <? S n)%nat = false).
  { destruct Hfull as [Hfull | ->].
    - destruct infos; [congruence | reflexivity].
    - now rewrite andb_false_r. }
  rewrite Hgo. rewrite !bind_run.
  match goal with |- context [NameSku.productsLoop E ?c ?l ?i ?b ?a ?s2] =>
    pose proof (steps_merge_urls _ _ (nameSku_productsLoop_quiet E b c l i a s2)) as Hq;
    destruct (NameSku.productsLoop E c l i b a s2) as [all2 s3]
  end.
  cbn [fst snd] in *. cbn [Js.strictEq].
  rewrite (proj2 (String.eqb_neq next url) Hne). subst fuel1.
  destruct (nameSku_requests_page E fuel next (S n) all2 s3 Htn Hn) as [more Hm].
  exists more. rewrite Hm, Hq, listingUrls_console, Hu, <- app_assoc. reflexivity.
Qed.

Lemma urlSku_other_link_followed (E : Env) fuel url next n all s :
  Js.truthy url = true -> Js.truthy next = true -> next <> url ->
  S n < UrlSku.MAX_CATALOG_PAGES ->
  fst (fst (UrlSku.scrapeCatalogPage E url s)) <> [] \/ n = 0 ->
  snd (fst (UrlSku.scrapeCatalogPage E url s)) = Some next ->
  exists more,
    listingUrls (trace (snd (UrlSku.pagesLoop E (S (S fuel)) (Some url) n all s)))
    = (listingUrls (trace s) ++ url :: next :: more)%list.
Proof.
  intros Ht Htn Hne Hn Hfull He.
  remember (S fuel) as fuel1 eqn:Hfuel.
  cbn [UrlSku.pagesLoop]. rewrite Ht.
  rewrite (proj2 (Nat.ltb_lt n _)) by lia. cbn [andb]. rewrite bind_run.
  destruct (urlSku_page_run E url s) as (_ & Hu).
  destruct (UrlSku.scrapeCatalogPage E url s) as [[infos nx] s1].
  cbn [fst snd] in *. subst nx.
  assert (Hgo : (List.length infos =? 0)%nat && (1 <? S n)%nat = false).
  { destruct Hfull as [Hfull | ->].
    - destruct infos; [congruence | reflexivity].
    - now rewrite andb_false_r. }
  rewrite Hgo. rewrite !bind_run.
  match goal with |- context [UrlSku.productsLoop E ?c ?l ?i ?b ?a ?s2] =>
    pose proof (steps_merge_urls _ _ (urlSku_productsLoop_quiet E b c l i a s2)) as Hq;
    destruct (UrlSku.productsLoop E c l i b a s2) as [all2 s3]
  end.
  cbn [fst snd] in *. cbn [Js.strictEq].
  rewrite (proj2 (String.eqb_neq next url) Hne). subst fuel1.
  destruct (urlSku_requests_page E fuel next (S n) all2 s3 Htn Hn) as [more Hm].
  exists more. rewrite Hm, Hq, listingUrls_console, Hu, <- app_assoc. reflexivity.
Qed.

(** C3, as the claim states it, fails in each of the three walkers: a link
    back to a page already visited is followed.  In the grouped crawler the
    second page of a car links back to the first one, and the walker goes on
    from page 2 to page 1 again; after six page requests it is still
    walking.  In the two crawlers of [scraper.ts], on a catalogue whose
    third page links back to the second one, the walk from the start URL
    goes round between the two for as many pages as it is let to fetch,
    eight here; and a walk that starts on that second page requests it
    again when its successor links back to it. *)
Lemma C3_counterexample_link_back_to_first_page_is_followed :
  (let s := initial None in
   let r := ByCar.scrapeSingleCar Demo.site5 ByCar.sourceConfig 6 "BMW" "X5" "2010" s in
   ByCar.carUrl Demo.site5 "BMW" "X5" "2010" = Demo.x5_page1 /\
   snd (fst (ByCar.scrapeCarCatalogPage Demo.site5 Demo.x5_page2 "BMW" "X5" "2010" s))
     = Some Demo.x5_page1 /\
   fst r = None /\
   listingUrls (trace (snd r))
     = [Demo.x5_page1; Demo.x5_page2; Demo.x5_page1; Demo.x5_page2;
        Demo.x5_page1; Demo.x5_page2]) /\
  (let s := initial None in
   let r := NameSku.pagesLoop backLinkSite 8 (Some NameSku.START_URL) 0 [] s in
   let w := NameSku.pagesLoop backLinkSite 4 (Some Demo.page2_url) 0 [] s in
   snd (fst (NameSku.scrapeCatalogPage backLinkSite page3_url s)) = Some Demo.page2_url /\
   listingUrls (trace (snd r))
     = [NameSku.START_URL; Demo.page2_url; page3_url; Demo.page2_url; page3_url;
        Demo.page2_url; page3_url; Demo.page2_url] /\
   snd (fst r) = 8 /\
   listingUrls (trace (snd w)) = [Demo.page2_url; page3_url; Demo.page2_url; page3_url] /\
   snd (fst w) = 4) /\
  (let s := initial None in
   let r := UrlSku.pagesLoop backLinkSite 8 (Some UrlSku.START_URL) 0 [] s in
   let w := UrlSku.pagesLoop backLinkSite 4 (Some Demo.page2_url) 0 [] s in
   snd (fst (UrlSku.scrapeCatalogPage backLinkSite page3_url s)) = Some Demo.page2_url /\
   listingUrls (trace (snd r))
     = [UrlSku.START_URL; Demo.page2_url; page3_url; Demo.page2_url; page3_url;
        Demo.page2_url; page3_url; Demo.page2_url] /\
   snd (fst r) = 8 /\
   listingUrls (trace (snd w)) = [Demo.page2_url; page3_url; Demo.page2_url; page3_url] /\
   snd (fst w) = 4).
Proof. vm_compute. repeat split. Qed.

(** C3, amended.  In the two single-catalogue crawlers, a page whose next
    link resolves to the page's own URL is the last page of the walk, and
    every walk ends within MAX_CATALOG_PAGES page requests, whatever the
    links.  The cycle guard compares the next URL with the current one only:
    below the ceiling, a page that is not skipped as empty and whose next
    link resolves to any other URL is followed by a request of that URL,
    whatever was requested before. *)
Theorem C3_walk_ends_on_self_link_and_within_ceiling :
  (forall (E : Env) (fuel : nat) (url : string) (n : nat)
          (all : list NameSku.Product) (s : Sys),
     Js.truthy url = true -> n < NameSku.MAX_CATALOG_PAGES ->
     snd (fst (NameSku.scrapeCatalogPage E url s)) = Some url ->
     let r := NameSku.pagesLoop E (S fuel) (Some url) n all s in
     snd (fst r) = S n /\
     listingUrls (trace (snd r)) = (listingUrls (trace s) ++ [url])%list) /\
  (forall (E : Env) (fuel : nat) (url : string) (n : nat)
          (all : list UrlSku.Product) (s : Sys),
     Js.truthy url = true -> n < UrlSku.MAX_CATALOG_PAGES ->
     snd (fst (UrlSku.scrapeCatalogPage E url s)) = Some url ->
     let r := UrlSku.pagesLoop E (S fuel) (Some url) n all s in
     snd (fst r) = S n /\
     listingUrls (trace (snd r)) = (listingUrls (trace s) ++ [url])%list) /\
  (forall (E : Env) (previous : option string),
     List.length (listingUrls (trace (snd (NameSku.scrapeAllPages E (initial previous)))))
       <= NameSku.MAX_CATALOG_PAGES /\
     List.length (listingUrls (trace (snd (UrlSku.scrapeAllPages E (initial previous)))))
       <= UrlSku.MAX_CATALOG_PAGES) /\
  (forall (E : Env) (fuel : nat) (url next : string) (n : nat)
          (all : list NameSku.Product) (s : Sys),
     Js.truthy url = true -> Js.truthy next = true -> next <> url ->
     S n < NameSku.MAX_CATALOG_PAGES ->
     fst (fst (NameSku.scrapeCatalogPage E url s)) <> [] \/ n = 0 ->
     snd (fst (NameSku.scrapeCatalogPage E url s)) = Some next ->
     exists more,
       listingUrls (trace (snd (NameSku.pagesLoop E (S (S fuel)) (Some url) n all s)))
       = (listingUrls (trace s) ++ url :: next :: more)%list) /\
  (forall (E : Env) (fuel : nat) (url next : string) (n : nat)
          (all : list UrlSku.Product) (s : Sys),
     Js.truthy url = true -> Js.truthy next = true -> next <> url ->
     S n < UrlSku.MAX_CATALOG_PAGES ->
     fst (fst (UrlSku.scrapeCatalogPage E url s)) <> [] \/ n = 0 ->
     snd (fst (UrlSku.scrapeCatalogPage E url s)) = Some next ->
     exists more,
       listingUrls (trace (snd (UrlSku.pagesLoop E (S (S fuel)) (Some url) n all s)))
       = (listingUrls (trace s) ++ url :: next :: more)%list).
Proof.
  split; [|split; [|split; [|split]]].
  - intros. now apply nameSku_self_link.
  - intros. now apply urlSku_self_link.
  - intros E previous. split.
    + apply (nameSku_run_spec E previous).
    + apply (urlSku_run_spec E previous).
  - intros. now apply nameSku_other_link_followed.
  - intros. now apply urlSku_other_link_followed.
Qed.

(** C3, amended, on site 3, whose second page links to itself: the walk
    that reaches it as page 2 ends there; and on the catalogue whose third
    page links back to the second one: the second page is requested again
    after the third, although it was requested before. *)
Lemma C3_self_link_witness :
  (snd (fst (NameSku.pagesLoop Demo.site3 1 (Some Demo.page2_url) 1 [] (initial None)))
     = 2 /\
   listingUrls
     (trace (snd (NameSku.pagesLoop Demo.site3 1 (Some Demo.page2_url) 1 []
                    (initial None))))
     = [Demo.page2_url]) /\
  (let visited :=
     snd (NameSku.pagesLoop backLinkSite 2 (Some NameSku.START_URL) 0 [] (initial None)) in
   listingUrls (trace visited) = [NameSku.START_URL; Demo.page2_url] /\
   exists more,
     listingUrls (trace (snd (NameSku.pagesLoop backLinkSite 2 (Some page3_url) 2 []
                                visited)))
     = ([NameSku.START_URL; Demo.page2_url] ++ page3_url :: Demo.page2_url :: more)%list).
Proof.
  split.
  - refine (proj1 C3_walk_ends_on_self_link_and_within_ceiling
              Demo.site3 0 Demo.page2_url 1 [] (initial None) _ _ _).
    + vm_compute. reflexivity.
    + unfold NameSku.MAX_CATALOG_PAGES. lia.
    + vm_compute. reflexivity.
  - cbv zeta. split; [vm_compute; reflexivity|].
    refine (proj1 (proj2 (proj2 (proj2 C3_walk_ends_on_self_link_and_within_ceiling)))
              backLinkSite 0 page3_url Demo.page2_url 2 [] _ _ _ _ _ _ _).
    + vm_compute. reflexivity.
    + vm_compute. reflexivity.
    + intros H. apply (f_equal (String.get 52)) in H. vm_compute in H. discriminate H.
    + unfold NameSku.MAX_CATALOG_PAGES. lia.
    + left. vm_compute. discriminate.
    + vm_compute. reflexivity.
Defined.

(** C5.  In each of the three walkers, a listing page that yields no
    summary ends the walk when it is not the first page, whatever its next
    link; when it is the first page the walk goes on: the page its next
    link resolves to is requested. *)
Theorem C5_empty_page_ends_the_walk_unless_first :
  (forall (E : Env) (fuel : nat) (url : string) (n : nat)
          (all : list NameSku.Product) (s : Sys),
     Js.truthy url = true -> 1 <= n -> n < NameSku.MAX_CATALOG_PAGES ->
     fst (fst (NameSku.scrapeCatalogPage E url s)) = [] ->
     let r := NameSku.pagesLoop E (S fuel) (Some url) n all s in
     fst r = (all, S n) /\
     listingUrls (trace (snd r)) = (listingUrls (trace s) ++ [url])%list) /\
  (forall (E : Env) (fuel : nat) (url next : string)
          (all : list NameSku.Product) (s : Sys),
     Js.truthy url = true -> Js.truthy next = true -> next <> url ->
     fst (NameSku.scrapeCatalogPage E url s) = ([], Some next) ->
     exists more,
       listingUrls (trace (snd (NameSku.pagesLoop E (S (S fuel)) (Some url) 0 all s)))
       = (listingUrls (trace s) ++ url :: next :: more)%list) /\
  (forall (E : Env) (fuel : nat) (url : string) (n : nat)
          (all : list UrlSku.Product) (s : Sys),
     Js.truthy url = true -> 1 <= n -> n < UrlSku.MAX_CATALOG_PAGES ->
     fst (fst (UrlSku.scrapeCatalogPage E url s)) = [] ->
     let r := UrlSku.pagesLoop E (S fuel) (Some url) n all s in
     fst r = (all, S n) /\
     listingUrls (trace (snd r)) = (listingUrls (trace s) ++ [url])%list) /\
  (forall (E : Env) (fuel : nat) (url next : string)
          (all : list UrlSku.Product) (s : Sys),
     Js.truthy url = true -> Js.truthy next = true -> next <> url ->
     fst (UrlSku.scrapeCatalogPage E url s) = ([], Some next) ->
     exists more,
       listingUrls (trace (snd (UrlSku.pagesLoop E (S (S fuel)) (Some url) 0 all s)))
       = (listingUrls (trace s) ++ url :: next :: more)%list) /\
  (forall (E : Env) (cfg : ByCar.Config) (fuel : nat) (b m y url : string)
          (n pages : nat) (acc : list ByCar.Product) (s : Sys),
     Js.truthy url = true ->
     Js.reached n (ByCar.MAX_PRODUCTS_PER_CAR cfg) = false -> 1 <= pages ->
     fst (fst (ByCar.scrapeCarCatalogPage E url b m y s)) = [] ->
     let r := ByCar.carPagesLoop E cfg (S fuel) b m y (Some url) n pages acc s in
     fst r = Some (acc, n) /\
     listingUrls (trace (snd r)) = (listingUrls (trace s) ++ [url])%list) /\
  (forall (E : Env) (cfg : ByCar.Config) (fuel : nat) (b m y url next : string)
          (n : nat) (acc : list ByCar.Product) (s : Sys),
     Js.truthy url = true -> Js.truthy next = true ->
     Js.reached n (ByCar.MAX_PRODUCTS_PER_CAR cfg) = false ->
     fst (ByCar.scrapeCarCatalogPage E url b m y s) = ([], Some next) ->
     exists more,
       listingUrls
         (trace (snd (ByCar.carPagesLoop E cfg (S (S fuel)) b m y (Some url) n 0 acc s)))
       = (listingUrls (trace s) ++ url :: next :: more)%list).
Proof.
  repeat split.
  - intros. now apply nameSku_empty_later_page.
  - intros. now apply nameSku_empty_later_page.
  - intros. now apply nameSku_empty_first_page.
  - intros. now apply urlSku_empty_later_page.
  - intros. now apply urlSku_empty_later_page.
  - intros. now apply urlSku_empty_first_page.
  - intros. now apply byCar_empty_later_page.
  - intros. now apply byCar_empty_later_page.
  - intros. now apply byCar_empty_first_page.
Qed.

(** C5 on site 4 (first crawler) and site 7 (grouped crawler): the first
    page is empty and the second page is requested; the second page is
    empty, and although it has a next link the walk ends with it. *)
Lemma C5_empty_page_witness :
  (exists more,
     listingUrls (trace (snd (NameSku.pagesLoop Demo.site4 2 (Some NameSku.START_URL)
                                0 [] (initial None))))
     = NameSku.START_URL :: Demo.page2_url :: more) /\
  listingUrls (trace (snd (NameSku.pagesLoop Demo.site4 1 (Some Demo.page2_url)
                             1 [] (initial None))))
    = [Demo.page2_url] /\
  (exists more,
     listingUrls
       (trace (snd (ByCar.carPagesLoop Demo.site7 ByCar.sourceConfig 2 "BMW" "X5" "2010"
                      (Some Demo.x5_page1) 0 0 [] (initial None))))
     = Demo.x5_page1 :: Demo.x5_page2 :: more) /\
  listingUrls
    (trace (snd (ByCar.carPagesLoop Demo.site7 ByCar.sourceConfig 1 "BMW" "X5" "2010"
                   (Some Demo.x5_page2) 0 1 [] (initial None))))
    = [Demo.x5_page2].
Proof.
  destruct C5_empty_page_ends_the_walk_unless_first
    as (Hlater & Hfirst & _ & _ & Hlater' & Hfirst').
  split; [|split; [|split]].
  - refine (Hfirst Demo.site4 0 NameSku.START_URL Demo.page2_url [] (initial None)
              _ _ _ _).
    + vm_compute. reflexivity.
    + vm_compute. reflexivity.
    + intros H. apply (f_equal String.length) in H. vm_compute in H. discriminate H.
    + vm_compute. reflexivity.
  - refine (proj2 (Hlater Demo.site4 0 Demo.page2_url 1 [] (initial None) _ _ _ _)).
    + vm_compute. reflexivity.
    + lia.
    + unfold NameSku.MAX_CATALOG_PAGES. lia.
    + vm_compute. reflexivity.
  - refine (Hfirst' Demo.site7 ByCar.sourceConfig 0 "BMW" "X5" "2010"
              Demo.x5_page1 Demo.x5_page2 0 [] (initial None) _ _ _ _);
      vm_compute; reflexivity.
  - refine (proj2 (Hlater' Demo.site7 ByCar.sourceConfig 0 "BMW" "X5" "2010"
                     Demo.x5_page2 0 1 [] (initial None) _ _ _ _)).
    + vm_compute. reflexivity.
    + vm_compute. reflexivity.
    + lia.
    + vm_compute. reflexivity.
Defined.

(* ================================================================== *)
(** * A run of the grouped crawler *)
(* ================================================================== *)

Section ByCarWholeRun.
Variable E : Env.
Variable cfg : ByCar.Config.

(** The events with which a run whose brand data could be read starts. *)
Lemma byCar_brandData_run s tree :
  ByCar.parseBrandModels E = Some tree ->
  ByCar.getBrandModelsData E s
  = (Some tree,
     {| file := file s; fsOps := fsOps s;
        trace := Console Log "Successfully parsed brand/model data."
                 :: GetBrandData ByCar.DATA_SOURCE_URL
                 :: Console Log ("Fetching brand/model data from "
                                 ++ ByCar.DATA_SOURCE_URL ++ "...")
                 :: trace s |}).
Proof.
  unfold ByCar.parseBrandModels, ByCar.getBrandModelsData, getBrandPage.
  rewrite !bind_run. cbn [console emit ret fst snd file fsOps trace].
  destruct (brandPage E) as [[src|]|]; try discriminate.
  intros ->. reflexivity.
Qed.

(** Without brand data the run ends at once and leaves the file system
    alone. *)
Lemma byCar_run_without_brandData fuel previous :
  ByCar.parseBrandModels E = None ->
  let r := ByCar.scrapeAllCars E cfg fuel (initial previous) in
  fst r = {| ByCar.outcome := ByCar.ConfigurationFailed;
             ByCar.isHeaderWritten := false; ByCar.totalProductsScraped := 0 |} /\
  file (snd r) = previous /\ fsOps (snd r) = 0 /\
  existsb isFsEvent (trace (snd r)) = false /\ listingUrls (trace (snd r)) = [].
Proof.
  unfold ByCar.parseBrandModels, ByCar.scrapeAllCars, ByCar.getBrandModelsData,
    getBrandPage.
  rewrite !bind_run. cbn [console emit ret fst snd file fsOps trace].
  destruct (brandPage E) as [[src|]|].
  - intros ->. repeat split.
  - intros _. repeat split.
  - intros _. repeat split.
Qed.

Lemma writeFile_run data s :
  writeFile E data s
  = (fsOk E (fsOps s),
     {| file := if fsOk E (fsOps s) then Some data else file s;
        fsOps := S (fsOps s);
        trace := WriteFile data (fsOk E (fsOps s)) :: trace s |}).
Proof. reflexivity. Qed.

(** With brand data the run first truncates the file, and scrapes only if
    that succeeded. *)
Lemma byCar_run_with_brandData fuel previous tree :
  ByCar.parseBrandModels E = Some tree ->
  let r := ByCar.scrapeAllCars E cfg fuel (initial previous) in
  (exists later,
     rev (trace (snd r))
     = ([ Console Log ("Fetching brand/model data from "
                       ++ ByCar.DATA_SOURCE_URL ++ "...");
          GetBrandData ByCar.DATA_SOURCE_URL;
          Console Log "Successfully parsed brand/model data.";
          WriteFile "" (fsOk E 0) ] ++ later)%list) /\
  (fsOk E 0 = false ->
     fst r = {| ByCar.outcome := ByCar.InitFailed;
                ByCar.isHeaderWritten := false; ByCar.totalProductsScraped := 0 |} /\
     file (snd r) = previous) /\
  (fsOk E 0 = true ->
     (ByCar.outcome (fst r) = ByCar.Completed \/ ByCar.outcome (fst r) = ByCar.OutOfFuel) /\
     FileShape (ByCar.isHeaderWritten (fst r)) (ByCar.totalProductsScraped (fst r))
       (snd r) /\
     withinBudget cfg (ByCar.totalProductsScraped (fst r))).
Proof.
  intros Hp. unfold ByCar.scrapeAllCars. rewrite bind_run.
  rewrite (byCar_brandData_run (initial previous) tree Hp). cbn [fst snd].
  rewrite bind_run, writeFile_run. cbn [fst snd file fsOps trace initial].
  destruct (fsOk E 0) eqn:Hok.
  - rewrite !bind_run.
    match goal with |- context [ByCar.brandLoop E cfg fuel tree false 0 ?s2] =>
      assert (Hshape : FileShape false 0 s2) by reflexivity;
      assert (Hbudget : withinBudget cfg 0)
        by (unfold withinBudget; destruct (ByCar.MAX_TOTAL_PRODUCTS cfg); [lia | trivial]);
      destruct (byCar_brandLoop_spec E cfg fuel tree false 0 s2 Hshape Hbudget)
        as (Hf & Hb & [evs Hg] & Ho);
      destruct (ByCar.brandLoop E cfg fuel tree false 0 s2) as [run s3]
    end.
    cbn [fst snd] in *. cbn [console emit snd trace] in Hg.
    split; [|split; [intros; discriminate|intros _]].
    + destruct (ByCar.outcome run); rewrite ?bind_run;
        cbn [ret console emit fst snd trace]; rewrite Hg;
        repeat (cbn [rev]; rewrite ?rev_app_distr); cbn [rev app];
        rewrite <- ?app_assoc; cbn [app]; eexists; reflexivity.
    + destruct (ByCar.outcome run) eqn:Hout; rewrite ?bind_run;
        cbn [ret console emit fst snd]; rewrite ?Hout; repeat split; trivial.
  - rewrite bind_run. cbn [ret console emit fst snd file trace rev app].
    split; [|split; [intros _; split; reflexivity | intros; discriminate]].
    eexists. reflexivity.
Qed.


End ByCarWholeRun.


Lemma FileShape_rows hw total s :
  FileShape hw total s ->
  List.length (Csv.dataRows (content s)) <= total /\
  Csv.headerCount (content s) = if hw then 1 else 0.
Proof.
  unfold FileShape, content. destruct hw.
  - intros (n & t & Hd & Hn & ->).
    destruct (records_header_data n t Hd) as (Hh & Hr & _). split; [lia | assumption].
  - intros ->. split; [cbn; lia | reflexivity].
Qed.

(** C4.  In a run of the grouped crawler that has persisted a batch the
    header row occurs once among the records of the output file, however
    many batches followed.  The first batch write that succeeds puts the
    header line, a separator and the rows of the batch; each later batch is
    appended rows-only, after a record separator that is inserted only if
    the existing output is not empty. *)
Theorem C4_header_row_written_once :
  (forall (E : Env) (cfg : ByCar.Config) (fuel : nat) (previous : option string),
     let r := ByCar.scrapeAllCars E cfg fuel (initial previous) in
     ByCar.isHeaderWritten (fst r) = true ->
     Csv.headerCount (content (snd r)) = 1 /\
     1 <= List.length (Csv.dataRows (content (snd r)))) /\
  (forall (E : Env) (brandCode : string) (batch : list ByCar.Product) (s : Sys),
     batch <> [] ->
     let r := ByCar.saveBatch E brandCode batch false s in
     fst r = fsOk E (fsOps s) /\
     file (snd r)
     = if fsOk E (fsOps s)
       then Some (Csv.HEADER_LINE ++ Csv.CRLF
                  ++ ByCar.convertBatchToWooCommerceCSV batch false)%string
       else file s) /\
  (forall (E : Env) (brandCode : string) (batch : list ByCar.Product) (s : Sys),
     batch <> [] ->
     (0 <? String.length (trim E (ByCar.convertBatchToWooCommerceCSV batch false)))%nat
       = true ->
     let r := ByCar.saveBatch E brandCode batch true s in
     let separator :=
       if fsOk E (fsOps s) && (0 <? String.length (content s))%nat
       then Csv.CRLF else "" in
     fst r = true /\
     file (snd r)
     = if fsOk E (S (fsOps s))
       then Some (content s ++ separator
                  ++ ByCar.convertBatchToWooCommerceCSV batch false)%string
       else file s).
Proof.
  split; [|split].
  - intros E cfg fuel previous r Hw.
    destruct (ByCar.parseBrandModels E) as [tree|] eqn:Hp.
    + destruct (byCar_run_with_brandData E cfg fuel previous tree Hp)
        as (_ & Hfail & Hok).
      fold r in Hfail, Hok. destruct (fsOk E 0).
      * destruct (Hok eq_refl) as (_ & Hf & _). rewrite Hw in Hf.
        destruct Hf as (n & t & Hd & Hn & Hfile). unfold content. rewrite Hfile.
        destruct (records_header_data n t Hd) as (Hh & _ & Hr). now split.
      * destruct (Hfail eq_refl) as (Hr & _). rewrite Hr in Hw. discriminate Hw.
    + destruct (byCar_run_without_brandData E cfg fuel previous Hp) as (Hr & _).
      fold r in Hr. rewrite Hr in Hw. discriminate Hw.
  - intros E brandCode batch s Hne r.
    pose proof (byCar_saveBatch_result E brandCode batch false s) as H.
    cbv zeta in H. fold r in H. destruct batch as [|p ps]; [congruence|].
    injection H as H1 H2. rewrite H1, H2. split; [reflexivity|].
    destruct (fsOk E (fsOps s)); [|reflexivity]. now rewrite batch_with_header.
  - intros E brandCode batch s Hne Htrim r separator.
    pose proof (byCar_saveBatch_result E brandCode batch true s) as H.
    cbv zeta in H. fold r in H. destruct batch as [|p ps]; [congruence|].
    rewrite Htrim in H. cbn [andb] in H.
    injection H as H1 H2. rewrite H1, H2. split; [reflexivity|].
    destruct (fsOk E (S (fsOps s))); [|reflexivity].
    f_equal. f_equal. f_equal. subst separator. unfold content.
    destruct (fsOk E (fsOps s)); [|reflexivity]. cbn [andb].
    destruct (file s); reflexivity.
Qed.

(** C4 on site 8 with a budget of 5: two batches are persisted, the first
    by a write and the second by an append, and the header row occurs once;
    so it does when the [stat] before the append fails. *)
Lemma C4_header_witness :
  let r := ByCar.scrapeAllCars Demo.site8 Demo.budget5 6 (initial (Some "stale")) in
  let r' := ByCar.scrapeAllCars Demo.site8_statFails Demo.budget5 6 (initial None) in
  (Csv.headerCount (content (snd r)) = 1 /\
   1 <= List.length (Csv.dataRows (content (snd r)))) /\
  List.length (filter isFileWrite (trace (snd r))) = 3 /\
  List.length (Csv.dataRows (content (snd r))) = 5 /\
  (Csv.headerCount (content (snd r')) = 1 /\
   1 <= List.length (Csv.dataRows (content (snd r')))).
Proof.
  split; [|split; [|split]].
  - apply (proj1 C4_header_row_written_once Demo.site8 Demo.budget5 6 (Some "stale")).
    vm_compute. reflexivity.
  - vm_compute. reflexivity.
  - vm_compute. reflexivity.
  - apply (proj1 C4_header_row_written_once Demo.site8_statFails Demo.budget5 6 None).
    vm_compute. reflexivity.
Defined.

(** C8.  Saving an empty batch is a no-op on the output file: no
    file-system operation is issued, the file and the header flag are as
    before, and only a console line is added; doing it again changes
    nothing either. *)
Theorem C8_empty_batch_leaves_the_file_alone :
  forall (E : Env) (brandCode : string) (isHeaderWritten : bool) (s : Sys),
    let r := ByCar.saveBatch E brandCode [] isHeaderWritten s in
    let again := ByCar.saveBatch E brandCode [] (fst r) (snd r) in
    fst r = isHeaderWritten /\ file (snd r) = file s /\ fsOps (snd r) = fsOps s /\
    filter isFsEvent (trace (snd r)) = filter isFsEvent (trace s) /\
    fst again = isHeaderWritten /\ file (snd again) = file s /\
    fsOps (snd again) = fsOps s /\
    filter isFsEvent (trace (snd again)) = filter isFsEvent (trace s).
Proof. intros. repeat split. Qed.




(* ================================================================== *)
(** * The merge stage, summary by summary *)
(* ================================================================== *)

Lemma oOrNull_Some o u : Js.oOrNull o = Some u -> o = Some u /\ Js.truthy u = true.
Proof.
  destruct o as [x|]; cbn; [|discriminate].
  unfold Js.orNull. destruct (Js.truthy x) eqn:Hx; [|discriminate].
  intros [= ->]. now split.
Qed.

Lemma detailTraffic_cons e t :
  detailTraffic (e :: t)
  = (detailTraffic t ++ (if isDetailTraffic e then [e] else []))%list.
Proof.
  unfold detailTraffic. cbn [rev]. rewrite filter_app. cbn [filter].
  now destruct (isDetailTraffic e).
Qed.

Lemma nameSku_details_run (E : Env) url s :
  Js.truthy url = true ->
  let r := NameSku.scrapeProductDetails E url s in
  fst r = manufacturerCodeAt E url /\
  detailTraffic (trace (snd r)) = (detailTraffic (trace s) ++ [GetDetail url])%list /\
  file (snd r) = file s /\ fsOps (snd r) = fsOps s.
Proof.
  intros Ht. unfold NameSku.scrapeProductDetails, manufacturerCodeAt, getDetail.
  rewrite Ht. cbn [negb]. rewrite !bind_run. cbn [console emit ret fst snd].
  destruct (detailPage E url); rewrite ?bind_run; cbn [console emit ret fst snd trace file fsOps];
    rewrite ?detailTraffic_cons; cbn [isDetailTraffic]; rewrite ?app_nil_r;
    repeat split.
Qed.

Lemma byCar_details_run (E : Env) url s :
  Js.truthy url = true ->
  let r := ByCar.scrapeProductDetails E url s in
  fst r = manufacturerCodeAt E url /\
  detailTraffic (trace (snd r)) = (detailTraffic (trace s) ++ [GetDetail url])%list /\
  file (snd r) = file s /\ fsOps (snd r) = fsOps s.
Proof.
  intros Ht. unfold ByCar.scrapeProductDetails, manufacturerCodeAt, getDetail.
  rewrite Ht. cbn [negb]. rewrite !bind_run. cbn [console emit ret fst snd].
  destruct (detailPage E url); rewrite ?bind_run; cbn [console emit ret fst snd trace file fsOps];
    rewrite ?detailTraffic_cons; cbn [isDetailTraffic]; rewrite ?app_nil_r;
    repeat split.
Qed.

(** The merge loop of the first crawler in closed form. *)
Lemma nameSku_productsLoop_run :
  forall (E : Env) (catalogPageCount len i : nat) (infos : list NameSku.BaseInfo)
         (allProducts : list NameSku.Product) (s : Sys),
    let r := NameSku.productsLoop E catalogPageCount len i infos allProducts s in
    fst r
    = (allProducts
       ++ map (fun b => NameSku.withDetails b
                          (manufacturerCodeOf E (NameSku.b_productPageUrl b)))
              infos)%list /\
    file (snd r) = file s /\ fsOps (snd r) = fsOps s.
Proof.
  intros E c len i infos. revert i.
  induction infos as [|b rest IH]; intros i all s; cbn [NameSku.productsLoop map].
  - cbn. rewrite app_nil_r. repeat split.
  - rewrite bind_run. cbn [console emit fst snd]. unfold manufacturerCodeOf at 1.
    destruct (Js.oOrNull (NameSku.b_productPageUrl b)) as [url|] eqn:Hu.
    + apply oOrNull_Some in Hu. destruct Hu as [_ Ht].
      rewrite !bind_run.
      match goal with
      | |- context [NameSku.scrapeProductDetails E url ?s0] =>
          destruct (nameSku_details_run E url s0 Ht) as (Hv & _ & Hf & Ho)
      end.
      rewrite Hv. cbn [sleep emit fst snd].
      match goal with
      | |- context [NameSku.productsLoop E c len ?j rest ?a ?s1] =>
          destruct (IH j a s1) as (Hp & Hf' & Ho')
      end.
      cbv zeta in *. rewrite Hp, Hf', Ho'. cbn [file fsOps].
      rewrite Hf, Ho. cbn [file fsOps]. rewrite <- app_assoc. repeat split.
    + rewrite !bind_run. cbn [console emit fst snd].
      match goal with
      | |- context [NameSku.productsLoop E c len ?j rest ?a ?s1] =>
          destruct (IH j a s1) as (Hp & Hf' & Ho')
      end.
      cbv zeta in *. rewrite Hp, Hf', Ho'. cbn [file fsOps].
      rewrite <- app_assoc. repeat split.
Qed.


Lemma steps_console_traffic s s' :
  steps isConsole s s' -> detailTraffic (trace s') = detailTraffic (trace s).
Proof.
  intros (_ & _ & evs & -> & Ha).
  induction evs as [|e evs IH]; [reflexivity|].
  cbn [forallb] in Ha. apply andb_true_iff in Ha. destruct Ha as [He Ha].
  cbn [app]. rewrite detailTraffic_cons, (IH Ha).
  destruct e; try discriminate He. cbn. now rewrite app_nil_r.
Qed.

Lemma stateless_ret {A} (a : A) : stateless (ret a).
Proof. intros s s'. reflexivity. Qed.

Lemma stateless_bind {A B} (m : M A) (k : A -> M B) :
  stateless m -> (forall a, stateless (k a)) -> stateless (bind m k).
Proof.
  intros Hm Hk s s'. rewrite !bind_run, (Hm s s'). apply Hk.
Qed.

Lemma stateless_emit e : stateless (emit e).
Proof. intros s s'. reflexivity. Qed.

(** Structural steps of a proof that a computation is [stateless]. *)
Ltac stateless_step :=
  match goal with
  | |- stateless (ret _) => apply stateless_ret
  | |- stateless (bind _ _) => apply stateless_bind; [| intros ?]
  | |- stateless (console _ _) => apply stateless_emit
  | |- stateless (sleep _) => apply stateless_emit
  | |- stateless (emit _) => apply stateless_emit
  | |- stateless (getDetail _ _) => unfold getDetail
  | |- stateless (match ?x with _ => _ end) => destruct x
  | |- stateless _ => solve [eauto]
  end.

Ltac stateless_solve := repeat stateless_step.

Section UrlSkuMerge.
Variable E : Env.

Lemma urlSku_mainImage_console doc : quiet isConsole (UrlSku.mainImage E doc).
Proof. unfold UrlSku.mainImage. quiet_solve. Qed.

Lemma urlSku_thumbImages_console main ts :
  forall acc, quiet isConsole (UrlSku.thumbImages E main ts acc).
Proof.
  induction ts as [|[p f] rest IH]; intros acc; cbn [UrlSku.thumbImages]; quiet_solve.
Qed.

Lemma urlSku_mainImage_stateless doc : stateless (UrlSku.mainImage E doc).
Proof. unfold UrlSku.mainImage. stateless_solve. Qed.

Lemma urlSku_thumbImages_stateless main ts :
  forall acc, stateless (UrlSku.thumbImages E main ts acc).
Proof.
  induction ts as [|[p f] rest IH]; intros acc; cbn [UrlSku.thumbImages];
    stateless_solve.
Qed.

Lemma urlSku_details_stateless url : stateless (UrlSku.scrapeProductDetails E url).
Proof.
  pose proof urlSku_mainImage_stateless. pose proof urlSku_thumbImages_stateless.
  unfold UrlSku.scrapeProductDetails. stateless_solve.
Qed.

Lemma urlSku_details_run url s :
  Js.truthy url = true ->
  let r := UrlSku.scrapeProductDetails E url s in
  fst r = detailsAt E url /\
  detailTraffic (trace (snd r)) = (detailTraffic (trace s) ++ [GetDetail url])%list /\
  file (snd r) = file s /\ fsOps (snd r) = fsOps s.
Proof.
  intros Ht. cbv zeta.
  destruct (urlSku_details_quiet E url s) as (Hf & Ho & _).
  split; [apply urlSku_details_stateless | split; [|now split]].
  unfold UrlSku.scrapeProductDetails, getDetail. rewrite Ht. cbn [negb].
  rewrite !bind_run. cbn [console emit ret fst snd].
  destruct (detailPage E url) as [doc|].
  - match goal with
    | |- detailTraffic (trace (snd (?m ?s0))) = _ =>
        assert (Q : quiet isConsole m);
        [ pose proof urlSku_mainImage_console; pose proof urlSku_thumbImages_console;
          quiet_solve
        | rewrite (steps_console_traffic _ _ (Q s0)) ]
    end.
    cbn [trace]. rewrite !detailTraffic_cons. cbn [isDetailTraffic].
    now rewrite app_nil_r.
  - rewrite !bind_run. cbn [console emit ret fst snd trace].
    rewrite !detailTraffic_cons. cbn [isDetailTraffic]. now rewrite !app_nil_r.
Qed.

End UrlSkuMerge.

(** The merge loop of the second crawler in closed form. *)
Lemma urlSku_productsLoop_run :
  forall (E : Env) (catalogPageCount len i : nat) (infos : list UrlSku.BaseInfo)
         (allProducts : list UrlSku.Product) (s : Sys),
    let r := UrlSku.productsLoop E catalogPageCount len i infos allProducts s in
    fst r
    = (allProducts
       ++ flat_map (fun b => match Js.oOrNull (UrlSku.b_productPageUrl b) with
                             | Some url => [UrlSku.withDetails b (detailsAt E url)]
                             | None => []
                             end)
                   infos)%list /\
    file (snd r) = file s /\ fsOps (snd r) = fsOps s.
Proof.
  intros E c len i infos. revert i.
  induction infos as [|b rest IH]; intros i all s; cbn [UrlSku.productsLoop flat_map].
  - cbn. rewrite app_nil_r. repeat split.
  - rewrite bind_run. cbn [console emit fst snd].
    destruct (Js.oOrNull (UrlSku.b_productPageUrl b)) as [url|] eqn:Hu.
    + apply oOrNull_Some in Hu. destruct Hu as [_ Ht].
      rewrite !bind_run.
      match goal with
      | |- context [UrlSku.scrapeProductDetails E url ?s0] =>
          destruct (urlSku_details_run E url s0 Ht) as (Hv & _ & Hf & Ho)
      end.
      rewrite Hv. cbn [sleep emit fst snd].
      match goal with
      | |- context [UrlSku.productsLoop E c len ?j rest ?a ?s1] =>
          destruct (IH j a s1) as (Hp & Hf' & Ho')
      end.
      cbv zeta in *. rewrite Hp, Hf', Ho'. cbn [file fsOps].
      rewrite Hf, Ho. cbn [file fsOps app]. rewrite <- app_assoc. repeat split.
    + rewrite !bind_run. cbn [console emit fst snd].
      match goal with
      | |- context [UrlSku.productsLoop E c len ?j rest ?a ?s1] =>
          destruct (IH j a s1) as (Hp & Hf' & Ho')
      end.
      cbv zeta in *. rewrite Hp, Hf', Ho'. cbn [file fsOps app]. repeat split.
Qed.


Lemma sliceTo_cons {A} (a : A) (l : list A) cap n :
  Js.reached n cap = false ->
  Js.sliceTo (a :: l) cap n = a :: Js.sliceTo l cap (S n).
Proof.
  destruct cap as [k|]; cbn [Js.reached Js.sliceTo]; [|reflexivity].
  intros Hk. apply Nat.leb_gt in Hk.
  replace (k - n) with (S (k - S n)) by lia. reflexivity.
Qed.

Lemma sliceTo_reached {A} (l : list A) cap n :
  Js.reached n cap = true -> Js.sliceTo l cap n = [].
Proof.
  destruct cap as [k|]; cbn [Js.reached Js.sliceTo]; [|discriminate].
  intros Hk. apply Nat.leb_le in Hk.
  replace (k - n) with 0 by lia. reflexivity.
Qed.

(** The merge loop of the grouped crawler in closed form. *)
Lemma byCar_carProductsLoop_run :
  forall (E : Env) (cfg : ByCar.Config) (productsFromPage carProducts : list ByCar.Product)
         (productCountForCar : nat) (s : Sys),
    let r := ByCar.carProductsLoop E cfg productsFromPage carProducts
               productCountForCar s in
    let taken := Js.sliceTo productsFromPage (ByCar.MAX_PRODUCTS_PER_CAR cfg)
                   productCountForCar in
    fst r = ((carProducts ++ map (byCarMerged E) taken)%list,
             productCountForCar + List.length taken) /\
    file (snd r) = file s /\ fsOps (snd r) = fsOps s.
Proof.
  intros E cfg ps. induction ps as [|p rest IH]; intros acc n s; cbn [ByCar.carProductsLoop].
  - destruct (ByCar.MAX_PRODUCTS_PER_CAR cfg); cbn; rewrite ?firstn_nil, ?app_nil_r;
      cbn; rewrite Nat.add_0_r; repeat split.
  - destruct (Js.reached n (ByCar.MAX_PRODUCTS_PER_CAR cfg)) eqn:Hr.
    + rewrite (sliceTo_reached _ _ _ Hr). cbn. rewrite app_nil_r, Nat.add_0_r.
      repeat split.
    + rewrite (sliceTo_cons _ _ _ _ Hr). rewrite !bind_run. cbn [console emit fst snd].
      unfold byCarMerged at 1. cbn [map].
      destruct (Js.oOrNull (ByCar.productPageUrl p)) as [url|] eqn:Hu.
      * apply oOrNull_Some in Hu. destruct Hu as [_ Ht].
        rewrite !bind_run.
        match goal with
        | |- context [ByCar.scrapeProductDetails E url ?s0] =>
            destruct (byCar_details_run E url s0 Ht) as (Hv & _ & Hf & Ho)
        end.
        rewrite Hv. cbn [sleep emit ret fst snd].
        match goal with
        | |- context [ByCar.carProductsLoop E cfg rest ?a ?j ?s1] =>
            destruct (IH a j s1) as (Hp & Hf' & Ho')
        end.
        cbv zeta in *. rewrite Hp, Hf', Ho'. cbn [file fsOps].
        rewrite Hf, Ho. cbn [file fsOps List.length]. rewrite <- app_assoc.
        cbn [app]. repeat split. f_equal. lia.
      * rewrite !bind_run. cbn [console emit ret fst snd].
        match goal with
        | |- context [ByCar.carProductsLoop E cfg rest ?a ?j ?s1] =>
            destruct (IH a j s1) as (Hp & Hf' & Ho')
        end.
        cbv zeta in *. rewrite Hp, Hf', Ho'. cbn [file fsOps List.length].
        rewrite <- app_assoc. cbn [app]. repeat split. f_equal. lia.
Qed.


Lemma nameSku_productsLoop_traffic (E : Env) c len infos :
  forall i all s,
    detailTraffic (trace (snd (NameSku.productsLoop E c len i infos all s)))
    = (detailTraffic (trace s)
       ++ flat_map (fun b => visit NameSku.DELAY_BETWEEN_PRODUCT_REQUESTS_MS
                               (NameSku.b_productPageUrl b)) infos)%list.
Proof.
  induction infos as [|b rest IH]; intros i all s; cbn [NameSku.productsLoop flat_map].
  - cbn. now rewrite app_nil_r.
  - rewrite bind_run. cbn [console emit fst snd]. unfold visit at 1.
    destruct (Js.oOrNull (NameSku.b_productPageUrl b)) as [url|] eqn:Hu.
    + apply oOrNull_Some in Hu. destruct Hu as [_ Ht].
      rewrite !bind_run, IH. cbn [sleep emit fst snd trace].
      rewrite detailTraffic_cons. cbn [isDetailTraffic].
      match goal with
      | |- context [NameSku.scrapeProductDetails E url ?s0] =>
          destruct (nameSku_details_run E url s0 Ht) as (_ & Hd & _)
      end.
      cbv zeta in Hd. rewrite Hd. cbn [trace]. rewrite detailTraffic_cons.
      cbn [isDetailTraffic]. rewrite app_nil_r, <- !app_assoc. reflexivity.
    + rewrite !bind_run, IH. cbn [console emit fst snd trace].
      rewrite !detailTraffic_cons. cbn [isDetailTraffic]. now rewrite !app_nil_r.
Qed.

Lemma urlSku_productsLoop_traffic (E : Env) c len infos :
  forall i all s,
    detailTraffic (trace (snd (UrlSku.productsLoop E c len i infos all s)))
    = (detailTraffic (trace s)
       ++ flat_map (fun b => visit UrlSku.DELAY_BETWEEN_PRODUCT_REQUESTS_MS
                               (UrlSku.b_productPageUrl b)) infos)%list.
Proof.
  induction infos as [|b rest IH]; intros i all s; cbn [UrlSku.productsLoop flat_map].
  - cbn. now rewrite app_nil_r.
  - rewrite bind_run. cbn [console emit fst snd]. unfold visit at 1.
    destruct (Js.oOrNull (UrlSku.b_productPageUrl b)) as [url|] eqn:Hu.
    + apply oOrNull_Some in Hu. destruct Hu as [_ Ht].
      rewrite !bind_run, IH. cbn [sleep emit fst snd trace].
      rewrite detailTraffic_cons. cbn [isDetailTraffic].
      match goal with
      | |- context [UrlSku.scrapeProductDetails E url ?s0] =>
          destruct (urlSku_details_run E url s0 Ht) as (_ & Hd & _)
      end.
      cbv zeta in Hd. rewrite Hd. cbn [trace]. rewrite detailTraffic_cons.
      cbn [isDetailTraffic]. rewrite app_nil_r, <- !app_assoc. reflexivity.
    + rewrite !bind_run, IH. cbn [console emit fst snd trace].
      rewrite !detailTraffic_cons. cbn [isDetailTraffic]. now rewrite !app_nil_r.
Qed.

Lemma byCar_carProductsLoop_traffic (E : Env) (cfg : ByCar.Config) ps :
  forall acc n s,
    detailTraffic (trace (snd (ByCar.carProductsLoop E cfg ps acc n s)))
    = (detailTraffic (trace s)
       ++ flat_map (fun p => visit ByCar.DELAY_BETWEEN_PRODUCT_REQUESTS_MS
                               (ByCar.productPageUrl p))
            (Js.sliceTo ps (ByCar.MAX_PRODUCTS_PER_CAR cfg) n))%list.
Proof.
  induction ps as [|p rest IH]; intros acc n s; cbn [ByCar.carProductsLoop].
  - destruct (ByCar.MAX_PRODUCTS_PER_CAR cfg); cbn; rewrite ?firstn_nil; cbn;
      now rewrite app_nil_r.
  - destruct (Js.reached n (ByCar.MAX_PRODUCTS_PER_CAR cfg)) eqn:Hr.
    + rewrite (sliceTo_reached _ _ _ Hr). rewrite bind_run.
      cbn [console emit ret fst snd trace flat_map].
      rewrite detailTraffic_cons. cbn [isDetailTraffic]. now rewrite !app_nil_r.
    + rewrite (sliceTo_cons _ _ _ _ Hr). rewrite !bind_run. cbn [console emit fst snd].
      cbn [flat_map]. unfold visit at 1.
      destruct (Js.oOrNull (ByCar.productPageUrl p)) as [url|] eqn:Hu.
      * apply oOrNull_Some in Hu. destruct Hu as [_ Ht].
        rewrite !bind_run, IH. cbn [sleep emit ret fst snd trace].
        rewrite detailTraffic_cons. cbn [isDetailTraffic].
        match goal with
        | |- context [ByCar.scrapeProductDetails E url ?s0] =>
            destruct (byCar_details_run E url s0 Ht) as (_ & Hd & _)
        end.
        cbv zeta in Hd. rewrite Hd. cbn [trace]. rewrite detailTraffic_cons.
        cbn [isDetailTraffic]. rewrite app_nil_r, <- !app_assoc. reflexivity.
      * rewrite !bind_run, IH. cbn [console emit ret fst snd trace].
        rewrite !detailTraffic_cons. cbn [isDetailTraffic]. now rewrite !app_nil_r.
Qed.

(** X4.  In each of the three crawlers the merge stage requests the item
    page of every summary it merges that has an item URL exactly once, in
    listing order, and pauses for the configured delay after each request;
    it issues no other item-page request and no other pause. *)
Theorem X4_item_pages_requested_once_then_pause :
  (forall (E : Env) (c len i : nat) (infos : list NameSku.BaseInfo)
          (all : list NameSku.Product) (s : Sys),
     detailTraffic (trace (snd (NameSku.productsLoop E c len i infos all s)))
     = (detailTraffic (trace s)
        ++ flat_map (fun b => visit 100 (NameSku.b_productPageUrl b)) infos)%list) /\
  (forall (E : Env) (c len i : nat) (infos : list UrlSku.BaseInfo)
          (all : list UrlSku.Product) (s : Sys),
     detailTraffic (trace (snd (UrlSku.productsLoop E c len i infos all s)))
     = (detailTraffic (trace s)
        ++ flat_map (fun b => visit 500 (UrlSku.b_productPageUrl b)) infos)%list) /\
  (forall (E : Env) (cfg : ByCar.Config) (ps acc : list ByCar.Product) (n : nat)
          (s : Sys),
     detailTraffic (trace (snd (ByCar.carProductsLoop E cfg ps acc n s)))
     = (detailTraffic (trace s)
        ++ flat_map (fun p => visit 100 (ByCar.productPageUrl p))
             (Js.sliceTo ps (ByCar.MAX_PRODUCTS_PER_CAR cfg) n))%list).
Proof.
  split; [|split]; intros.
  - apply nameSku_productsLoop_traffic.
  - apply urlSku_productsLoop_traffic.
  - apply byCar_carProductsLoop_traffic.
Qed.

(* ================================================================== *)
(** * The walk of one car *)
(* ================================================================== *)

Section ByCarCar.
Variable E : Env.
Variable cfg : ByCar.Config.

Lemma byCar_scrapeItem_ofCar b m y el s :
  ofCar b m y (fst (ByCar.scrapeItem E b m y el s)).
Proof.
  unfold ByCar.scrapeItem. rewrite !bind_run. cbn [ret fst]. repeat split.
Qed.

Lemma byCar_scrapeItems_ofCar b m y els :
  forall s, Forall (ofCar b m y) (fst (ByCar.scrapeItems E b m y els s)).
Proof.
  induction els as [|el rest IH]; intros s; cbn [ByCar.scrapeItems].
  - constructor.
  - rewrite !bind_run. cbn [ret fst]. constructor; [apply byCar_scrapeItem_ofCar | apply IH].
Qed.

Lemma byCar_page_ofCar url b m y s :
  Forall (ofCar b m y) (fst (fst (ByCar.scrapeCarCatalogPage E url b m y s))).
Proof.
  unfold ByCar.scrapeCarCatalogPage, getListing. rewrite !bind_run.
  cbn [console emit ret fst snd]. unfold ByCar.readCarCatalogPage.
  destruct (listingPage E url) as [doc|].
  - rewrite !bind_run. cbn [ret fst]. apply byCar_scrapeItems_ofCar.
  - rewrite bind_run. cbn. constructor.
Qed.

Lemma byCarMerged_ofCar b m y p : ofCar b m y p -> ofCar b m y (byCarMerged E p).
Proof.
  unfold byCarMerged. destruct (Js.oOrNull (ByCar.productPageUrl p)); trivial.
Qed.

Lemma sliceTo_Forall {A} (P : A -> Prop) (l : list A) cap n :
  Forall P l -> Forall P (Js.sliceTo l cap n).
Proof.
  intros H. destruct cap as [k|]; cbn [Js.sliceTo]; [|assumption].
  rewrite <- (firstn_skipn (k - n) l) in H. now apply Forall_app in H.
Qed.

Lemma sliceTo_room {A} (l : list A) k n :
  n <= k -> n + List.length (Js.sliceTo l (Js.Finite k) n) <= k.
Proof. intros H. cbn [Js.sliceTo]. rewrite length_firstn. lia. Qed.

(** What a walk that ends returns: the products collected, all of this
    car, as many as the count says, and within the cap. *)
Lemma byCar_carPagesLoop_result fuel b m y :
  forall cur n pages acc s,
    n = List.length acc -> Forall (ofCar b m y) acc ->
    match fst (ByCar.carPagesLoop E cfg fuel b m y cur n pages acc s) with
    | Some (products, count) =>
        count = List.length products /\ Forall (ofCar b m y) products /\
        (forall k, ByCar.MAX_PRODUCTS_PER_CAR cfg = Js.Finite k -> n <= k -> count <= k)
    | None => True
    end.
Proof.
  induction fuel as [|fuel IH]; intros cur n pages acc s Hn Hacc;
    cbn [ByCar.carPagesLoop].
  - destruct (Js.oOrNull cur); [|cbn; auto].
    destruct (negb _); cbn; auto.
  - destruct (Js.oOrNull cur) as [url|]; [|cbn; auto].
    destruct (Js.reached n (ByCar.MAX_PRODUCTS_PER_CAR cfg)) eqn:Hr; cbn [negb];
      [cbn; auto|].
    rewrite bind_run.
    pose proof (byCar_page_ofCar url b m y s) as Hpage.
    destruct (ByCar.scrapeCarCatalogPage E url b m y s) as [[ps next] s1].
    cbn [fst snd] in *.
    destruct ((List.length ps =? 0)%nat && (1 <? S pages)%nat).
    + rewrite bind_run. cbn. auto.
    + rewrite !bind_run. cbn [console emit fst snd].
      match goal with
      | |- context [ByCar.carProductsLoop E cfg ps acc n ?s2] =>
          destruct (byCar_carProductsLoop_run E cfg ps acc n s2)
            as (Hv & _)
      end.
      cbv zeta in Hv.
      match goal with
      | |- context [ByCar.carProductsLoop E cfg ps acc n ?s2] =>
          destruct (ByCar.carProductsLoop E cfg ps acc n s2) as [[acc' n'] s3]
      end.
      cbn [fst snd] in *. injection Hv as -> ->.
      assert (Hlen : n + List.length (Js.sliceTo ps (ByCar.MAX_PRODUCTS_PER_CAR cfg) n)
                     = List.length (acc ++ map (byCarMerged E)
                                      (Js.sliceTo ps (ByCar.MAX_PRODUCTS_PER_CAR cfg) n))%list).
      { rewrite length_app, length_map. lia. }
      assert (Hall : Forall (ofCar b m y)
                       (acc ++ map (byCarMerged E)
                          (Js.sliceTo ps (ByCar.MAX_PRODUCTS_PER_CAR cfg) n))%list).
      { apply Forall_app. split; [assumption|].
        apply Forall_map. eapply Forall_impl; [apply byCarMerged_ofCar|].
        now apply sliceTo_Forall. }
      match goal with
      | |- context [if Js.reached ?t ?c then _ else _] =>
          destruct (Js.reached t c) eqn:Hr'
      end.
      * cbn [ret fst]. split; [assumption | split; [assumption|]].
        intros k Hk Hnk. rewrite Hk. now apply sliceTo_room.
      * rewrite bind_run.
        match goal with
        | |- context [ByCar.carPagesLoop E cfg fuel b m y next ?c ?p ?a ?s4] =>
            specialize (IH next c p a s4 Hlen Hall);
            destruct (fst (ByCar.carPagesLoop E cfg fuel b m y next c p a s4))
              as [[products count]|]
        end; [|exact I].
        destruct IH as (Hc & Hf & Hk). split; [assumption | split; [assumption|]].
        intros k Hcap Hnk. apply (Hk k Hcap). rewrite Hcap. now apply sliceTo_room.
Qed.

(** With a number as cap per car the walk of a car ends: every turn after
    the first adds a product or stops. *)
Lemma byCar_carPagesLoop_ends k fuel b m y :
  ByCar.MAX_PRODUCTS_PER_CAR cfg = Js.Finite k ->
  forall cur n pages acc s,
    (k - n) + (if (pages =? 0)%nat then 1 else 0) <= fuel ->
    let r := ByCar.carPagesLoop E cfg fuel b m y cur n pages acc s in
    fst r <> None /\
    List.length (listingUrls (trace (snd r)))
    <= List.length (listingUrls (trace s)) + (k - n)
       + (if (pages =? 0)%nat then 1 else 0).
Proof.
  intros Hcap. induction fuel as [|fuel IH]; intros cur n pages acc s Hfuel;
    cbn [ByCar.carPagesLoop]; rewrite Hcap; cbn [Js.reached].
  - destruct (Js.oOrNull cur); [|cbn; split; [discriminate | lia]].
    destruct (k <=? n)%nat eqn:Hk; cbn [negb]; [cbn; split; [discriminate | lia]|].
    apply Nat.leb_gt in Hk. lia.
  - destruct (Js.oOrNull cur) as [url|]; [|cbn; split; [discriminate | lia]].
    destruct (k <=? n)%nat eqn:Hk; cbn [negb]; [cbn; split; [discriminate | lia]|].
    apply Nat.leb_gt in Hk. rewrite bind_run.
    destruct (byCar_page_run E url b m y s) as (_ & Hu).
    destruct (ByCar.scrapeCarCatalogPage E url b m y s) as [[ps next] s1].
    cbn [fst snd] in *.
    assert (Hu1 : List.length (listingUrls (trace s1))
                  = S (List.length (listingUrls (trace s)))).
    { rewrite Hu, length_app. cbn. lia. }
    destruct ((List.length ps =? 0)%nat && (1 <? S pages)%nat) eqn:Hempty.
    + rewrite bind_run. cbn [ret fst snd]. rewrite listingUrls_console.
      split; [discriminate | lia].
    + rewrite !bind_run.
      match goal with
      | |- context [ByCar.carProductsLoop E cfg ps acc n ?s2] =>
          pose proof (byCar_carProductsLoop_run E cfg ps acc n s2) as (Hv & _);
          pose proof (steps_merge_urls _ _ (byCar_carProductsLoop_quiet E cfg ps acc n s2))
            as Hm;
          rewrite listingUrls_console in Hm
      end.
      cbv zeta in Hv. rewrite Hcap in Hv.
      match goal with
      | |- context [ByCar.carProductsLoop E cfg ps acc n ?s2] =>
          destruct (ByCar.carProductsLoop E cfg ps acc n s2) as [[acc' n'] s3]
      end.
      cbn [fst snd] in *. injection Hv as -> ->.
      change (Js.sliceTo ps (Js.Finite k) n) with (firstn (k - n) ps) in *.
      set (n' := n + List.length (firstn (k - n) ps)) in *.
      assert (Hn' : n <= n' /\ (1 <= pages -> n < n')).
      { subst n'. split; [lia|]. intros Hp.
        destruct ps as [|p ps]; [|rewrite length_firstn; cbn [List.length]; lia].
        cbn [List.length Nat.eqb andb] in Hempty.
        apply Nat.ltb_ge in Hempty. lia. }
      destruct (k <=? n')%nat eqn:Hk'.
      * cbn [ret fst snd]. split; [discriminate|]. rewrite Hm. lia.
      * apply Nat.leb_gt in Hk'. rewrite bind_run.
        match goal with
        | |- context [ByCar.carPagesLoop E cfg fuel b m y next n' (S pages) ?a ?s4] =>
            assert (Hs4 : listingUrls (trace s4) = listingUrls (trace s3));
            [ destruct (Js.otruthy next); [apply listingUrls_sleep | reflexivity] |];
            destruct (IH next n' (S pages) a s4) as (Hsome & Hlen)
        end.
        { cbn [Nat.eqb]. destruct pages; cbn [Nat.eqb] in Hfuel; lia. }
        split; [exact Hsome|].
        cbn [Nat.eqb] in Hlen. rewrite Hs4, Hm, Hu1 in Hlen.
        destruct pages; cbn [Nat.eqb]; lia.
Qed.

End ByCarCar.

(** What the walk of a car returns. *)
Lemma byCar_scrapeSingleCar_result :
  forall (E : Env) (cfg : ByCar.Config) (fuel : nat) (brandCode modelName yearRange : string)
         (s : Sys) (products : list ByCar.Product),
    fst (ByCar.scrapeSingleCar E cfg fuel brandCode modelName yearRange s)
      = Some products ->
    Forall (ofCar brandCode modelName yearRange) products /\
    (forall k, ByCar.MAX_PRODUCTS_PER_CAR cfg = Js.Finite k ->
               List.length products <= k).
Proof.
  intros E cfg fuel b m y s products. unfold ByCar.scrapeSingleCar.
  rewrite !bind_run. cbn [console emit fst snd].
  match goal with
  | |- context [ByCar.carPagesLoop E cfg fuel b m y ?cur 0 0 [] ?s1] =>
      pose proof (byCar_carPagesLoop_result E cfg fuel b m y cur 0 0 [] s1
                    eq_refl (Forall_nil _)) as H;
      destruct (ByCar.carPagesLoop E cfg fuel b m y cur 0 0 [] s1) as [[[ps c]|] s2]
  end; cbn [fst snd] in *.
  - rewrite bind_run. cbn [ret fst]. intros [= <-].
    destruct H as (Hc & Hf & Hk). split; [assumption|].
    intros k Hcap. rewrite <- Hc. apply (Hk k Hcap). lia.
  - cbn. discriminate.
Qed.

(** X5.  Every product that the walk of a car returns carries that car:
    its brand code, model name and year range are those the walk was called
    with; and when the cap per car is a number, the walk returns at most
    that many products. *)
Theorem X5_products_of_a_car_carry_the_car :
  forall (E : Env) (cfg : ByCar.Config) (fuel : nat) (brandCode modelName yearRange : string)
         (s : Sys) (products : list ByCar.Product),
    fst (ByCar.scrapeSingleCar E cfg fuel brandCode modelName yearRange s)
      = Some products ->
    Forall (ofCar brandCode modelName yearRange) products /\
    (forall k, ByCar.MAX_PRODUCTS_PER_CAR cfg = Js.Finite k ->
               List.length products <= k).
Proof. intros. now apply (byCar_scrapeSingleCar_result E cfg fuel _ _ _ s). Qed.

(** X5 on the first leaf of site 6. *)
Lemma X5_car_witness :
  Forall (ofCar "BMW" "3 Series" "2010->2015") (Demo.site6_leaf "2010->2015") /\
  List.length (Demo.site6_leaf "2010->2015") = 4.
Proof.
  split; [|reflexivity].
  apply (X5_products_of_a_car_carry_the_car Demo.site6 ByCar.sourceConfig 6
           "BMW" "3 Series" "2010->2015" (initial None)).
  vm_compute. reflexivity.
Defined.

(** X6.  When the cap per car is a number [k], the walk of a car always
    ends, whatever the site links to: it requests at most [k + 1] listing
    pages and returns at most [k] products. *)
Theorem X6_capped_car_walk_ends :
  forall (E : Env) (cfg : ByCar.Config) (k fuel : nat)
         (brandCode modelName yearRange : string) (s : Sys),
    ByCar.MAX_PRODUCTS_PER_CAR cfg = Js.Finite k -> k < fuel ->
    let r := ByCar.scrapeSingleCar E cfg fuel brandCode modelName yearRange s in
    (exists products, fst r = Some products /\ List.length products <= k) /\
    List.length (listingUrls (trace (snd r)))
    <= List.length (listingUrls (trace s)) + k + 1.
Proof.
  intros E cfg k fuel b m y s Hcap Hfuel r.
  pose proof (byCar_scrapeSingleCar_result E cfg fuel b m y s) as Hx.
  fold r in Hx. revert Hx. subst r. unfold ByCar.scrapeSingleCar.
  rewrite !bind_run. cbn [console emit fst snd].
  match goal with
  | |- context [ByCar.carPagesLoop E cfg fuel b m y ?cur 0 0 [] ?s1] =>
      destruct (byCar_carPagesLoop_ends E cfg k fuel b m y Hcap cur 0 0 [] s1)
        as (Hsome & Hlen); [cbn; lia|];
      destruct (ByCar.carPagesLoop E cfg fuel b m y cur 0 0 [] s1) as [[[ps c]|] s2]
  end; cbn [fst snd] in *; [|congruence].
  rewrite bind_run. cbn [console emit ret fst snd]. intros Hx.
  split.
  - exists ps. split; [reflexivity|]. now apply (Hx ps eq_refl).
  - cbn [trace Nat.eqb] in *. rewrite listingUrls_cons, app_nil_r.
    rewrite listingUrls_cons, app_nil_r in Hlen. lia.
Qed.

(** X6 on site 5, whose two pages link to each other, with a cap of three
    products per car: the walk returns three products after three requests. *)
Lemma X6_capped_walk_witness :
  let r := ByCar.scrapeSingleCar Demo.site5 (cappedConfig 3) 4 "BMW" "X5" "2010"
             (initial None) in
  ((exists products, fst r = Some products /\ List.length products <= 3) /\
   List.length (listingUrls (trace (snd r))) <= 0 + 3 + 1) /\
  option_map (@List.length ByCar.Product) (fst r) = Some 3 /\
  listingUrls (trace (snd r)) = [Demo.x5_page1; Demo.x5_page2; Demo.x5_page1].
Proof.
  split; [|split; vm_compute; reflexivity].
  apply (X6_capped_car_walk_ends Demo.site5 (cappedConfig 3) 3 4 "BMW" "X5" "2010"
           (initial None)); [reflexivity | lia].
Defined.

(* ================================================================== *)
(** * The next-page locator *)
(* ================================================================== *)















(* ================================================================== *)
(** * The columns of a row *)
(* ================================================================== *)

Lemma lookup_In ps k v : Url.lookup ps k = Some v -> exists k', In (k', v) ps.
Proof.
  induction ps as [|[a w] r IH]; cbn [Url.lookup]; [discriminate|].
  destruct (a =? k).
  - intros [= ->]. exists a. now left.
  - intros H. destruct (IH H) as [k' Hk]. exists k'. now right.
Qed.

Lemma brandName_truthy code n : ByCar.brandName code = Some n -> Js.truthy n = true.
Proof.
  intros H.
  assert (Hin : exists k', In (k', n)
                  (ByCar.BRAND_CODE_TO_NAME_MAP ++ ByCar.OBJECT_PROTOTYPE_MEMBERS)%list).
  { unfold ByCar.brandName in H.
    destruct (Url.lookup ByCar.BRAND_CODE_TO_NAME_MAP code) as [name|] eqn:Hown.
    - injection H as ->. destruct (lookup_In _ _ _ Hown) as [k' Hk].
      exists k'. apply in_or_app. now left.
    - destruct (lookup_In _ _ _ H) as [k' Hk]. exists k'. apply in_or_app. now right. }
  destruct Hin as [k' Hin].
  assert (Hall : forallb (fun kv : string * string => Js.truthy (snd kv))
                   (ByCar.BRAND_CODE_TO_NAME_MAP ++ ByCar.OBJECT_PROTOTYPE_MEMBERS)%list
                 = true) by reflexivity.
  rewrite forallb_forall in Hall. apply (Hall _ Hin).
Qed.

Lemma brandLabel_truthy c : Js.truthy (brandLabel c) = Js.otruthy c.
Proof.
  unfold brandLabel. destruct c as [code|]; [|reflexivity]. cbn [Js.oOrNull Js.otruthy].
  unfold Js.orNull. destruct (Js.truthy code) eqn:Hc; [|reflexivity].
  unfold Js.orElse. destruct (ByCar.brandName code) as [n|] eqn:Hn; [|assumption].
  rewrite (brandName_truthy _ _ Hn). exact (brandName_truthy _ _ Hn).
Qed.

Lemma truthy_cons c r : Js.truthy (String c r) = true.
Proof. reflexivity. Qed.

Lemma replaceFirst_truthy a b s :
  Js.truthy b = true -> Js.truthy s = true -> Js.truthy (Js.replaceFirst a b s) = true.
Proof.
  intros Hb Hs. destruct s as [|c r]; [discriminate|].
  cbn [Js.replaceFirst]. destruct (Js.truthy a && String.prefix a (String c r)).
  - destruct b as [|x b]; [discriminate | reflexivity].
  - reflexivity.
Qed.

(** The Categories column as a join. *)
Lemma categoryString_join :
  forall (p : ByCar.Product),
    ByCar.categoryString p
    = String.concat " > "
        (filter Js.truthy
           [ brandLabel (ByCar.brandCode p);
             Js.orElse (ByCar.modelName p) "";
             Js.replaceFirst "->" "-" (Js.orElse (ByCar.yearRange p) "") ]).
Proof.
  intros p. unfold ByCar.categoryString.
  fold (brandLabel (ByCar.brandCode p)).
  generalize (brandLabel (ByCar.brandCode p)) as B. intros B.
  assert (Hy : forall c r, exists c' r',
               Js.replaceFirst "->" "-" (String c r) = String c' r').
  { intros c r. pose proof (replaceFirst_truthy "->" "-" (String c r) eq_refl eq_refl) as H.
    destruct (Js.replaceFirst "->" "-" (String c r)) as [|c' r']; [discriminate|].
    now exists c', r'. }
  destruct (ByCar.modelName p) as [[|mc mr]|], (ByCar.yearRange p) as [[|yc yr]|],
    B as [|bc br];
    cbn [Js.oOrNull Js.orNull Js.orElse Js.truthy String.eqb negb];
    try (destruct (Hy yc yr) as (c' & r' & ->));
    cbn [Js.replaceFirst Js.truthy String.eqb negb andb String.prefix filter
         String.concat append];
    rewrite ?str_app_nil_r, ?str_app_assoc; cbn [append];
    rewrite ?str_app_assoc; reflexivity.
Qed.

(** X9.  The Categories column of a row of the grouped crawler is the brand
    label, the model name and the year range with its first arrow turned
    into a dash, those of them that are not empty, joined by [" > "]: it
    has no empty segment and no separator at either end.  The brand label
    is what indexing the brand map with the code gives, else the code: the
    name under the code when the map has that key; the code itself when
    neither the map nor [Object.prototype] has it; and, for a code that
    names a member every object inherits, the text of that member, not the
    code. *)
Theorem X9_categories_join_the_parts_present :
  (forall (p : ByCar.Product),
     ByCar.categoryString p
     = String.concat " > "
         (filter Js.truthy
            [ brandLabel (ByCar.brandCode p);
              Js.orElse (ByCar.modelName p) "";
              Js.replaceFirst "->" "-" (Js.orElse (ByCar.yearRange p) "") ])) /\
  (forall (code name : string),
     Js.truthy code = true ->
     Url.lookup ByCar.BRAND_CODE_TO_NAME_MAP code = Some name ->
     brandLabel (Some code) = name) /\
  (forall (code : string),
     Url.lookup ByCar.BRAND_CODE_TO_NAME_MAP code = None ->
     Url.lookup ByCar.OBJECT_PROTOTYPE_MEMBERS code = None ->
     brandLabel (Some code) = code) /\
  (forall (code text : string),
     Url.lookup ByCar.OBJECT_PROTOTYPE_MEMBERS code = Some text ->
     brandLabel (Some code) = text /\ text <> code) /\
  brandLabel None = "" /\
  brandLabel (Some "CD") = "Cadillac" /\
  brandLabel (Some "ZZ") = "ZZ" /\
  brandLabel (Some "constructor") = "function Object() { [native code] }".
Proof.
  split; [exact categoryString_join|].
  split.
  { intros code name Hc Hn. unfold brandLabel, ByCar.brandName.
    cbn [Js.oOrNull]. unfold Js.orNull. rewrite Hc, Hn. cbn [Js.orElse].
    assert (Ht : Js.truthy name = true).
    { apply (brandName_truthy code). unfold ByCar.brandName. now rewrite Hn. }
    now rewrite Ht. }
  split.
  { intros code Hown Hinh. unfold brandLabel, ByCar.brandName.
    cbn [Js.oOrNull]. unfold Js.orNull.
    destruct (Js.truthy code) eqn:Hc.
    - now rewrite Hown, Hinh.
    - destruct code; [reflexivity | discriminate]. }
  split.
  { intros code text Hinh.
    assert (Hcases : existsb (String.eqb code) (map fst ByCar.OBJECT_PROTOTYPE_MEMBERS)
                     = true).
    { revert Hinh. generalize ByCar.OBJECT_PROTOTYPE_MEMBERS as ps.
      induction ps as [|[a w] r IH]; cbn [Url.lookup map fst existsb]; [discriminate|].
      rewrite (String.eqb_sym code a). destruct (a =? code); [reflexivity|].
      exact IH. }
    cbn [ByCar.OBJECT_PROTOTYPE_MEMBERS map fst existsb] in Hcases.
    repeat (apply orb_true_iff in Hcases; destruct Hcases as [Hcases|Hcases];
            [apply String.eqb_eq in Hcases; subst code;
             vm_compute in Hinh; injection Hinh as <-;
             split; [vm_compute; reflexivity | discriminate] |]).
    discriminate. }
  repeat split; vm_compute; reflexivity.
Qed.

(** X10.  A row of the first crawler and a row of the grouped crawler never
    have an empty SKU or an empty Name: a product without SKU gets
    [MISSING-SKU-] followed by its number in the file (first crawler) or by
    its site code, else its index in the batch (grouped crawler), and
    likewise for the name.  The second crawler has no such fallback: the
    columns are empty when the product has no SKU, no name. *)
Theorem X10_sku_and_name_fallbacks :
  (forall (index : nat) (p : NameSku.Product),
     let row := NameSku.toRow index p in
     field "SKU" row <> "" /\ field "Name" row <> "" /\
     (NameSku.sku p = None ->
        field "SKU" row = "MISSING-SKU-" ++ Js.showNat (index + 1)) /\
     (NameSku.name p = None ->
        field "Name" row = "Unnamed Product " ++ Js.showNat (index + 1))) /\
  (forall (index : nat) (p : ByCar.Product),
     let row := ByCar.toRow index p in
     field "SKU" row <> "" /\ field "Name" row <> "" /\
     (ByCar.sku p = None ->
        field "SKU" row
        = "MISSING-SKU-" ++ Js.orElse (ByCar.siteCode p) (Js.showNat index)) /\
     (ByCar.name p = None ->
        field "Name" row
        = "Unnamed Product " ++ Js.orElse (ByCar.siteCode p) (Js.showNat index))) /\
  (forall (p : UrlSku.Product),
     let row := UrlSku.toRow p in
     (UrlSku.sku p = None -> field "SKU" row = "") /\
     (UrlSku.name p = None -> field "Name" row = "")).
Proof.
  split; [|split].
  - intros i p row. subst row. unfold NameSku.toRow.
    cbn [field Csv.row Csv.COLUMNS combine find fst snd String.eqb Ascii.eqb Bool.eqb].
    destruct (NameSku.sku p) as [[|c r]|], (NameSku.name p) as [[|c' r']|];
      cbn [Js.orElse Js.truthy String.eqb negb append];
      repeat split; try discriminate; congruence.
  - intros i p row. subst row. unfold ByCar.toRow.
    cbn [field Csv.row Csv.COLUMNS combine find fst snd String.eqb Ascii.eqb Bool.eqb].
    destruct (ByCar.sku p) as [[|c r]|], (ByCar.name p) as [[|c' r']|];
      cbn [Js.orElse Js.truthy String.eqb negb append];
      repeat split; try discriminate; congruence.
  - intros p row. subst row. unfold UrlSku.toRow.
    cbn [field Csv.row Csv.COLUMNS combine find fst snd String.eqb Ascii.eqb Bool.eqb].
    split; intros ->; reflexivity.
Qed.

(* ================================================================== *)
(** * The SKU the second crawler reads off a product URL *)
(* ================================================================== *)

Lemma splitOn_app sep a :
  forall cur b,
    Js.splitOn sep cur (a ++ String sep b)
    = (Js.splitOn sep cur a ++ Js.splitOn sep "" b)%list.
Proof.
  induction a as [|c a IH]; intros cur b; cbn [append Js.splitOn].
  - now rewrite Ascii.eqb_refl.
  - destruct (Ascii.eqb c sep); cbn [app]; now rewrite IH.
Qed.

Lemma splitOn_digits d :
  Js.onlyDigits d = true -> forall cur, Js.splitOn "/" cur d = [(cur ++ d)%string].
Proof.
  induction d as [|c d IH]; intros Hd cur; cbn [Js.splitOn].
  - now rewrite str_app_nil_r.
  - cbn [Js.onlyDigits] in Hd. apply andb_true_iff in Hd. destruct Hd as [Hc Hd].
    destruct (Ascii.eqb c "/") eqn:Hs.
    + apply Ascii.eqb_eq in Hs. subst c. discriminate Hc.
    + rewrite (IH Hd), str_app_assoc. reflexivity.
Qed.

Lemma fromEnd_last {A} (l : list A) (x : A) : Js.fromEnd (l ++ [x]) 1 = Some x.
Proof.
  unfold Js.fromEnd. rewrite length_app. cbn [List.length].
  replace (1 <=? List.length l + 1)%nat with true by (symmetry; apply Nat.leb_le; lia).
  replace (List.length l + 1 - 1) with (List.length l) by lia.
  rewrite nth_error_app2 by lia. now rewrite Nat.sub_diag.
Qed.

Lemma fromEnd_before_last {A} (l : list A) (x y : A) :
  Js.fromEnd (l ++ [x; y]) 2 = Some x.
Proof.
  unfold Js.fromEnd. rewrite length_app. cbn [List.length].
  replace (2 <=? List.length l + 2)%nat with true by (symmetry; apply Nat.leb_le; lia).
  replace (List.length l + 2 - 2) with (List.length l) by lia.
  rewrite nth_error_app2 by lia. now rewrite Nat.sub_diag.
Qed.

Lemma fromEnd_In {A} (l : list A) k x : Js.fromEnd l k = Some x -> In x l.
Proof.
  unfold Js.fromEnd. destruct (k <=? List.length l)%nat; [|discriminate].
  destruct k; [discriminate|]. apply nth_error_In.
Qed.

Lemma potentialId_In url id :
  UrlSku.potentialId url = Some id -> In id (Js.split "/" url).
Proof.
  unfold UrlSku.potentialId.
  destruct (Js.oOrNull (Js.fromEnd (Js.split "/" url) 1)) as [last|] eqn:Hl.
  - intros [= <-]. apply oOrNull_Some in Hl. destruct Hl as [Hl _].
    now apply fromEnd_In in Hl.
  - apply fromEnd_In.
Qed.

(** The product URL and the SKU the second crawler reads off an item. *)
Lemma urlSku_itemLink_sound (E : Env) el s u id :
  fst (UrlSku.itemLink E el s) = (u, Some id) ->
  Js.allDigits id = true /\
  exists url, u = Some url /\ Js.truthy url = true /\ In id (Js.split "/" url).
Proof.
  unfold UrlSku.itemLink.
  destruct (Js.oOrNull (productHref el)) as [rel|]; [|cbn; discriminate].
  destruct (resolve E rel UrlSku.BASE_URL) as [url|];
    [|rewrite bind_run; cbn; discriminate].
  destruct (Js.oOrNull (UrlSku.potentialId url)) as [i|] eqn:Hp;
    [|rewrite bind_run; cbn; discriminate].
  destruct (Js.allDigits i) eqn:Hd; [|rewrite bind_run; cbn; discriminate].
  cbn [ret fst]. intros [= <- <-]. split; [assumption|].
  exists url. split; [reflexivity|].
  apply oOrNull_Some in Hp. destruct Hp as [Hp _]. split.
  - destruct url as [|c r]; [|reflexivity]. discriminate Hp.
  - now apply potentialId_In.
Qed.

(** X11.  In the second crawler the SKU of a summary, when it has one, is
    a non-empty run of decimal digits and is one of the pieces its product
    page URL falls into at the slashes; a summary with a SKU has a product
    page URL. *)
Theorem X11_url_sku_is_a_numeric_url_segment :
  forall (E : Env) (el : ItemElement) (s : Sys) (b : UrlSku.BaseInfo) (id : string),
    fst (UrlSku.scrapeItem E el s) = Some b ->
    UrlSku.b_sku b = Some id ->
    Js.allDigits id = true /\
    exists url, UrlSku.b_productPageUrl b = Some url /\ In id (Js.split "/" url).
Proof.
  intros E el s b id. unfold UrlSku.scrapeItem. rewrite bind_run.
  pose proof (urlSku_itemLink_sound E el s) as Hl.
  destruct (UrlSku.itemLink E el s) as [[u k] s1]. cbn [fst snd] in *.
  destruct (_ || _); [|cbn; discriminate].
  rewrite bind_run. cbn [ret fst]. intros [= <-]. cbn [UrlSku.b_sku UrlSku.b_productPageUrl].
  intros Hk. apply oOrNull_Some in Hk. destruct Hk as [-> _].
  destruct (Hl u id eq_refl) as (Hd & url & -> & Ht & Hin).
  split; [assumption|]. exists url. split; [|assumption].
  cbn [Js.oOrNull]. unfold Js.orNull. now rewrite Ht.
Qed.

(** X11 on the first item of site 1, whose link is [/detala/101]. *)
Lemma X11_url_sku_witness :
  Js.allDigits "101" = true /\
  exists url,
    Some "https://www.fastdeliverycarparts.com/detala/101" = Some url /\
    In "101" (Js.split "/" url).
Proof.
  apply (X11_url_sku_is_a_numeric_url_segment Demo.site1
           (Demo.item "Brake Pad" "BP-1" "12.5" (Some "/detala/101")) (initial None)
           {| UrlSku.b_sku := Some "101"; UrlSku.b_siteCode := Some "BP-1";
              UrlSku.b_name := Some "Brake Pad";
              UrlSku.b_price := Some {| Js.toString := "12.5" |};
              UrlSku.b_productPageUrl :=
                Some "https://www.fastdeliverycarparts.com/detala/101" |} "101").
  - vm_compute. reflexivity.
  - reflexivity.
Defined.

Lemma truthy_app_cons p c r : Js.truthy (p ++ String c r) = true.
Proof. destruct p; reflexivity. Qed.

Lemma potentialId_numeric p d (trailingSlash : bool) :
  Js.allDigits d = true ->
  Js.oOrNull (UrlSku.potentialId
                (p ++ "/" ++ d ++ (if trailingSlash then "/" else "")))
  = Some d.
Proof.
  unfold Js.allDigits. intros Hd. apply andb_true_iff in Hd. destruct Hd as [Ht Hd].
  unfold UrlSku.potentialId, Js.split. cbn [append].
  destruct trailingSlash.
  - rewrite splitOn_app.
    change (d ++ "/")%string with (d ++ String "/" "")%string.
    rewrite splitOn_app, (splitOn_digits d Hd). cbn [append Js.splitOn app].
    change (Js.splitOn "/" "" p ++ [d; ""])%list
      with (Js.splitOn "/" "" p ++ [d] ++ [""])%list at 1.
    rewrite app_assoc, fromEnd_last. cbn [Js.oOrNull Js.orNull Js.truthy String.eqb negb].
    rewrite fromEnd_before_last.
    cbn [Js.oOrNull]. unfold Js.orNull. now rewrite Ht.
  - rewrite str_app_nil_r, splitOn_app, (splitOn_digits d Hd). cbn [append].
    rewrite fromEnd_last. cbn [Js.oOrNull]. unfold Js.orNull. rewrite Ht.
    cbn [Js.oOrNull]. unfold Js.orNull. now rewrite Ht.
Qed.

(** X12.  In the second crawler, an item whose link resolves to a URL that
    ends in a slash and a run of decimal digits, with or without one more
    slash after them, gets a summary whose SKU is that run of digits and
    whose product page URL is that URL. *)
Theorem X12_numeric_last_segment_becomes_the_sku :
  forall (E : Env) (el : ItemElement) (s : Sys) (relativeProductUrl prefix digits : string)
         (trailingSlash : bool),
    let url := (prefix ++ "/" ++ digits ++ (if trailingSlash then "/" else ""))%string in
    Js.oOrNull (productHref el) = Some relativeProductUrl ->
    resolve E relativeProductUrl UrlSku.BASE_URL = Some url ->
    Js.allDigits digits = true ->
    exists b,
      fst (UrlSku.scrapeItem E el s) = Some b /\
      UrlSku.b_sku b = Some digits /\ UrlSku.b_productPageUrl b = Some url.
Proof.
  intros E el s rel p d ts url Hrel Hres Hd.
  assert (Htd : Js.truthy d = true).
  { unfold Js.allDigits in Hd. now apply andb_true_iff in Hd. }
  assert (Htu : Js.truthy url = true) by (subst url; apply truthy_app_cons).
  unfold UrlSku.scrapeItem, UrlSku.itemLink. rewrite Hrel, Hres.
  subst url. rewrite (potentialId_numeric p d ts Hd), Hd.
  rewrite !bind_run. cbn [ret fst snd Js.otruthy]. rewrite Htd, Htu.
  rewrite !orb_true_r. cbn [orb]. rewrite bind_run. cbn [ret fst].
  eexists. split; [reflexivity|].
  cbn [UrlSku.b_sku UrlSku.b_productPageUrl Js.oOrNull]. unfold Js.orNull.
  now rewrite Htd, Htu.
Qed.

(** X12 on the first item of site 1. *)
Lemma X12_numeric_segment_witness :
  exists b,
    fst (UrlSku.scrapeItem Demo.site1
           (Demo.item "Brake Pad" "BP-1" "12.5" (Some "/detala/101")) (initial None))
      = Some b /\
    UrlSku.b_sku b = Some "101" /\
    UrlSku.b_productPageUrl b
      = Some "https://www.fastdeliverycarparts.com/detala/101".
Proof.
  apply (X12_numeric_last_segment_becomes_the_sku Demo.site1
           (Demo.item "Brake Pad" "BP-1" "12.5" (Some "/detala/101")) (initial None)
           "/detala/101" "https://www.fastdeliverycarparts.com/detala" "101" false);
    reflexivity.
Defined.

(* ================================================================== *)
(** * The file a single-catalogue crawler writes *)
(* ================================================================== *)

Lemma recordsFrom_lines rs :
  forall cur,
    Csv.recordsFrom false cur
      (fold_right (fun x acc => Csv.CRLF ++ Csv.line x ++ acc) "" rs)%string
    = cur :: map Csv.line rs.
Proof.
  induction rs as [|x rs IH]; intros cur; cbn [fold_right map].
  - reflexivity.
  - rewrite recordsFrom_CRLF, recordsFrom_line, IH. reflexivity.
Qed.

Lemma header_shape : exists rest, Csv.HEADER_LINE = String Csv.dquote (String "I" rest).
Proof. eexists. vm_compute. reflexivity. Qed.

Lemma header_truthy x : Js.truthy (Csv.HEADER_LINE ++ x) = true.
Proof. destruct header_shape as [rest ->]. reflexivity. Qed.

(** The records of a text made of the header line and of data lines. *)
Lemma records_unparse rows :
  Csv.records (Csv.unparse Csv.COLUMNS rows true)
  = Csv.HEADER_LINE :: map Csv.line rows.
Proof.
  unfold Csv.unparse. cbn [app].
  change (Csv.line Csv.COLUMNS :: map Csv.line rows)
    with (map Csv.line (Csv.COLUMNS :: rows)).
  rewrite concat_lines. fold Csv.HEADER_LINE.
  unfold Csv.records. rewrite header_truthy. unfold Csv.HEADER_LINE.
  rewrite recordsFrom_line, recordsFrom_lines. reflexivity.
Qed.

Lemma header_among lines :
  Forall (fun l => l <> Csv.HEADER_LINE) lines ->
  count_occ string_dec (Csv.HEADER_LINE :: lines) Csv.HEADER_LINE = 1 /\
  filter (fun r => negb (r =? Csv.HEADER_LINE)) (Csv.HEADER_LINE :: lines) = lines.
Proof.
  intros H. cbn [count_occ filter].
  destruct (string_dec Csv.HEADER_LINE Csv.HEADER_LINE) as [_|Hn]; [|congruence].
  rewrite String.eqb_refl. cbn [negb]. induction H as [|l ls Hl _ IH].
  - split; reflexivity.
  - destruct IH as [IH1 IH2]. cbn [count_occ filter].
    destruct (string_dec l Csv.HEADER_LINE) as [He|_]; [congruence|].
    apply String.eqb_neq in Hl. rewrite Hl. cbn [negb]. rewrite IH2. now split.
Qed.

Lemma to_uint_nonnil n : Nat.to_uint n <> Decimal.Nil.
Proof.
  intros H. pose proof (Unsigned.of_to n) as Hn. rewrite H in Hn. cbn in Hn.
  subst n. discriminate H.
Qed.

Lemma showNat_first n : exists c r, Js.showNat n = String c r /\ Js.isDigit c = true.
Proof.
  unfold Js.showNat. pose proof (to_uint_nonnil n) as H.
  destruct (Nat.to_uint n); [congruence | ..]; cbn [NilEmpty.string_of_uint];
    eexists; eexists; (split; [reflexivity | reflexivity]).
Qed.

Lemma nameSku_line_not_header i p : Csv.line (NameSku.toRow i p) <> Csv.HEADER_LINE.
Proof.
  destruct header_shape as [rest ->].
  unfold NameSku.toRow, Csv.row, Csv.line. cbn [map String.concat].
  unfold Csv.quote at 1. destruct (showNat_first (i + 1)) as (c & r & -> & Hc).
  cbn [Csv.escape]. destruct (Ascii.eqb c Csv.dquote) eqn:Hq.
  - apply Ascii.eqb_eq in Hq. subst c. discriminate Hc.
  - cbn [append]. intros [= Hi _]. subst c. discriminate Hc.
Qed.

Lemma urlSku_line_not_header p : Csv.line (UrlSku.toRow p) <> Csv.HEADER_LINE.
Proof. apply header_not_data. reflexivity. Qed.

Lemma mapIndexed_length {A B} (f : nat -> A -> B) l :
  forall i, List.length (NameSku.mapIndexed f i l) = List.length l.
Proof. induction l as [|a l IH]; intros i; cbn; [reflexivity | now rewrite IH]. Qed.

Lemma nameSku_lines_not_header ps :
  forall i,
    Forall (fun l => l <> Csv.HEADER_LINE)
      (map Csv.line (NameSku.mapIndexed NameSku.toRow i ps)).
Proof.
  induction ps as [|p ps IH]; intros i; cbn [NameSku.mapIndexed map]; constructor.
  - apply nameSku_line_not_header.
  - apply IH.
Qed.

Lemma urlSku_lines_not_header ps :
  Forall (fun l => l <> Csv.HEADER_LINE) (map Csv.line (map UrlSku.toRow ps)).
Proof.
  induction ps as [|p ps IH]; cbn [map]; constructor.
  - apply urlSku_line_not_header.
  - apply IH.
Qed.

(** X13.  A run of either crawler of [scraper.ts] issues no file operation
    when it has scraped nothing, and the file is then as the run found it;
    when it has scraped a product it issues exactly one, the write of the
    whole text.  When that write succeeds, the output file read back is the
    header record followed by one record per product, in scraping order,
    whatever characters the scraped texts hold.  (Nothing is said of the
    file after a write that fails.) *)
Theorem X13_single_catalogue_run_writes_one_record_per_product :
  forall (E : Env) (previous : option string),
    (let r := NameSku.scrapeAllPages E (initial previous) in
     let products := fst (fst r) in
     if (0 <? List.length products)%nat
     then fsOps (snd r) = 1 /\
          (fsOk E 0 = true ->
           file (snd r) = Some (NameSku.convertToWooCommerceCSV products) /\
           Csv.records (content (snd r))
           = Csv.HEADER_LINE
             :: map Csv.line (NameSku.mapIndexed NameSku.toRow 0 products) /\
           Csv.headerCount (content (snd r)) = 1 /\
           List.length (Csv.dataRows (content (snd r))) = List.length products)
     else fsOps (snd r) = 0 /\ file (snd r) = previous) /\
    (let r := UrlSku.scrapeAllPages E (initial previous) in
     let products := fst (fst r) in
     if (0 <? List.length products)%nat
     then fsOps (snd r) = 1 /\
          (fsOk E 0 = true ->
           file (snd r) = Some (UrlSku.convertToWooCommerceCSV products) /\
           Csv.records (content (snd r))
           = Csv.HEADER_LINE :: map Csv.line (map UrlSku.toRow products) /\
           Csv.headerCount (content (snd r)) = 1 /\
           List.length (Csv.dataRows (content (snd r))) = List.length products)
     else fsOps (snd r) = 0 /\ file (snd r) = previous).
Proof.
  intros E previous. split.
  - unfold NameSku.scrapeAllPages. rewrite !bind_run.
    set (s0 := snd (console Log "Starting scraper..." (initial previous))).
    destruct (nameSku_pagesLoop_quiet E NameSku.MAX_CATALOG_PAGES (Some NameSku.START_URL)
                0 [] s0) as (Hf & Ho & _).
    destruct (NameSku.pagesLoop E NameSku.MAX_CATALOG_PAGES (Some NameSku.START_URL) 0 [] s0)
      as [[all n] s1].
    cbn [fst snd] in *. change (file s0) with previous in Hf.
    change (fsOps s0) with 0 in Ho.
    unfold writeFile, console.
    destruct (NameSku.MAX_CATALOG_PAGES <=? n)%nat;
      destruct (0 <? List.length all)%nat eqn:Hlen;
      rewrite ?bind_run; cbn [emit ret fst snd trace fsOps file];
      rewrite ?Ho; try destruct (fsOk E 0);
      rewrite ?bind_run; cbn [emit ret fst snd trace fsOps file];
      rewrite ?Hlen;
      (split; [reflexivity|]); try assumption; try discriminate; intros _;
      unfold content; cbn [file]; unfold NameSku.convertToWooCommerceCSV,
        Csv.headerCount, Csv.dataRows; rewrite records_unparse;
      destruct (header_among _ (nameSku_lines_not_header all 0)) as [H1 H2];
      rewrite H1, H2, length_map, mapIndexed_length; repeat split.
  - unfold UrlSku.scrapeAllPages. rewrite !bind_run.
    set (s0 := snd (console Log "Starting scraper..." (initial previous))).
    destruct (urlSku_pagesLoop_quiet E UrlSku.MAX_CATALOG_PAGES (Some UrlSku.START_URL)
                0 [] s0) as (Hf & Ho & _).
    destruct (UrlSku.pagesLoop E UrlSku.MAX_CATALOG_PAGES (Some UrlSku.START_URL) 0 [] s0)
      as [[all n] s1].
    cbn [fst snd] in *. change (file s0) with previous in Hf.
    change (fsOps s0) with 0 in Ho.
    unfold writeFile, console.
    destruct (UrlSku.MAX_CATALOG_PAGES <=? n)%nat;
      destruct (0 <? List.length all)%nat eqn:Hlen;
      rewrite ?bind_run; cbn [emit ret fst snd trace fsOps file];
      rewrite ?Ho; try destruct (fsOk E 0);
      rewrite ?bind_run; cbn [emit ret fst snd trace fsOps file];
      rewrite ?Hlen;
      (split; [reflexivity|]); try assumption; try discriminate; intros _;
      unfold content; cbn [file]; unfold UrlSku.convertToWooCommerceCSV,
        Csv.headerCount, Csv.dataRows; rewrite records_unparse;
      destruct (header_among _ (urlSku_lines_not_header all)) as [H1 H2];
      rewrite H1, H2, !length_map; repeat split.
Qed.

(* ================================================================== *)
(** * A listing page that cannot be fetched *)
(* ================================================================== *)

Lemma nameSku_page_failed (E : Env) url s :
  listingPage E url = None ->
  NameSku.scrapeCatalogPage E url s
  = (([], None),
     {| file := file s; fsOps := fsOps s;
        trace := Console Error ("Error fetching or parsing catalog page " ++ url)
                 :: GetListing url
                 :: Console Log ("Fetching catalog page: " ++ url) :: trace s |}).
Proof.
  intros H. unfold NameSku.scrapeCatalogPage, getListing, NameSku.readCatalogPage.
  rewrite !bind_run. cbn [console emit ret fst snd]. rewrite H.
  rewrite bind_run. reflexivity.
Qed.

Lemma urlSku_page_failed (E : Env) url s :
  listingPage E url = None ->
  UrlSku.scrapeCatalogPage E url s
  = (([], None),
     {| file := file s; fsOps := fsOps s;
        trace := Console Error ("Error fetching or parsing catalog page " ++ url)
                 :: GetListing url
                 :: Console Log ("Fetching catalog page: " ++ url) :: trace s |}).
Proof.
  intros H. unfold UrlSku.scrapeCatalogPage, getListing, UrlSku.readCatalogPage.
  rewrite !bind_run. cbn [console emit ret fst snd]. rewrite H.
  rewrite bind_run. reflexivity.
Qed.

Lemma byCar_page_failed (E : Env) url b m y s :
  listingPage E url = None ->
  ByCar.scrapeCarCatalogPage E url b m y s
  = (([], None),
     {| file := file s; fsOps := fsOps s;
        trace := Console Error (" -> Error fetching or parsing catalog page " ++ url)
                 :: GetListing url
                 :: Console Log (" -> Fetching catalog page: " ++ url) :: trace s |}).
Proof.
  intros H. unfold ByCar.scrapeCarCatalogPage, getListing, ByCar.readCarCatalogPage.
  rewrite !bind_run. cbn [console emit ret fst snd]. rewrite H.
  rewrite bind_run. reflexivity.
Qed.

Lemma nameSku_walk_failed (E : Env) fuel url n all s :
  Js.truthy url = true -> n < NameSku.MAX_CATALOG_PAGES ->
  listingPage E url = None ->
  let r := NameSku.pagesLoop E (S fuel) (Some url) n all s in
  fst r = (all, S n) /\
  listingUrls (trace (snd r)) = (listingUrls (trace s) ++ [url])%list /\
  file (snd r) = file s /\ fsOps (snd r) = fsOps s.
Proof.
  intros Ht Hn Hfail. cbn [NameSku.pagesLoop]. rewrite Ht.
  rewrite (proj2 (Nat.ltb_lt _ _) Hn). cbn [andb]. rewrite bind_run.
  rewrite (nameSku_page_failed E url s Hfail). cbn [fst snd List.length Nat.eqb andb].
  destruct n as [|n].
  - cbn [Nat.ltb Nat.leb]. rewrite !bind_run.
    cbn [console emit ret fst snd NameSku.productsLoop Js.strictEq].
    destruct fuel; cbn [NameSku.pagesLoop ret fst snd trace file fsOps];
      rewrite !listingUrls_cons, !app_nil_r; repeat split.
  - change (1 <? S (S n))%nat with true. cbv iota. rewrite bind_run.
    cbn [console emit ret fst snd trace file fsOps].
    rewrite !listingUrls_cons, !app_nil_r. repeat split.
Qed.

Lemma urlSku_walk_failed (E : Env) fuel url n all s :
  Js.truthy url = true -> n < UrlSku.MAX_CATALOG_PAGES ->
  listingPage E url = None ->
  let r := UrlSku.pagesLoop E (S fuel) (Some url) n all s in
  fst r = (all, S n) /\
  listingUrls (trace (snd r)) = (listingUrls (trace s) ++ [url])%list /\
  file (snd r) = file s /\ fsOps (snd r) = fsOps s.
Proof.
  intros Ht Hn Hfail. cbn [UrlSku.pagesLoop]. rewrite Ht.
  rewrite (proj2 (Nat.ltb_lt _ _) Hn). cbn [andb]. rewrite bind_run.
  rewrite (urlSku_page_failed E url s Hfail). cbn [fst snd List.length Nat.eqb andb].
  destruct n as [|n].
  - cbn [Nat.ltb Nat.leb]. rewrite !bind_run.
    cbn [console emit ret fst snd UrlSku.productsLoop Js.strictEq].
    destruct fuel; cbn [UrlSku.pagesLoop ret fst snd trace file fsOps];
      rewrite !listingUrls_cons, !app_nil_r; repeat split.
  - change (1 <? S (S n))%nat with true. cbv iota. rewrite bind_run.
    cbn [console emit ret fst snd trace file fsOps].
    rewrite !listingUrls_cons, !app_nil_r. repeat split.
Qed.

(** X14.  In the two crawlers of [scraper.ts] a listing page that cannot be
    fetched or parsed ends the walk: it counts as a page, nothing is added
    to the products collected so far and no further page is requested.  When
    it is the start page, the run ends with no product, one page counted,
    and without any file operation: the output file is as the run found
    it. *)
Theorem X14_failed_listing_page_ends_the_walk :
  forall (E : Env),
    (forall (fuel : nat) (url : string) (n : nat) (all : list NameSku.Product)
            (s : Sys),
       Js.truthy url = true -> n < NameSku.MAX_CATALOG_PAGES ->
       listingPage E url = None ->
       let r := NameSku.pagesLoop E (S fuel) (Some url) n all s in
       fst r = (all, S n) /\
       listingUrls (trace (snd r)) = (listingUrls (trace s) ++ [url])%list) /\
    (forall (fuel : nat) (url : string) (n : nat) (all : list UrlSku.Product)
            (s : Sys),
       Js.truthy url = true -> n < UrlSku.MAX_CATALOG_PAGES ->
       listingPage E url = None ->
       let r := UrlSku.pagesLoop E (S fuel) (Some url) n all s in
       fst r = (all, S n) /\
       listingUrls (trace (snd r)) = (listingUrls (trace s) ++ [url])%list) /\
    (forall (previous : option string),
       listingPage E NameSku.START_URL = None ->
       let r := NameSku.scrapeAllPages E (initial previous) in
       let r' := UrlSku.scrapeAllPages E (initial previous) in
       fst r = ([], 1) /\ file (snd r) = previous /\ fsOps (snd r) = 0 /\
       listingUrls (trace (snd r)) = [NameSku.START_URL] /\
       fst r' = ([], 1) /\ file (snd r') = previous /\ fsOps (snd r') = 0 /\
       listingUrls (trace (snd r')) = [UrlSku.START_URL]).
Proof.
  intros E. split; [|split].
  - intros fuel url n all s Ht Hn Hf.
    destruct (nameSku_walk_failed E fuel url n all s Ht Hn Hf) as (H1 & H2 & _).
    now split.
  - intros fuel url n all s Ht Hn Hf.
    destruct (urlSku_walk_failed E fuel url n all s Ht Hn Hf) as (H1 & H2 & _).
    now split.
  - intros previous Hf. cbv zeta.
    unfold NameSku.scrapeAllPages, UrlSku.scrapeAllPages. rewrite !bind_run.
    set (s0 := snd (console Log "Starting scraper..." (initial previous))).
    change NameSku.MAX_CATALOG_PAGES with (S 999).
    change UrlSku.MAX_CATALOG_PAGES with (S 999).
    destruct (nameSku_walk_failed E 999 NameSku.START_URL 0 [] s0 eq_refl
                ltac:(unfold NameSku.MAX_CATALOG_PAGES; lia) Hf) as (H1 & H2 & H3 & H4).
    destruct (urlSku_walk_failed E 999 UrlSku.START_URL 0 [] s0 eq_refl
                ltac:(unfold UrlSku.MAX_CATALOG_PAGES; lia) Hf) as (H1' & H2' & H3' & H4').
    cbv zeta in *.
    destruct (NameSku.pagesLoop E (S 999) (Some NameSku.START_URL) 0 [] s0)
      as [[all n] s1].
    destruct (UrlSku.pagesLoop E (S 999) (Some UrlSku.START_URL) 0 [] s0)
      as [[all' n'] s1'].
    cbn [fst snd] in *. injection H1 as -> ->. injection H1' as -> ->.
    change (1000 <=? 1)%nat with false. cbn [List.length Nat.ltb Nat.leb].
    rewrite !bind_run. cbn [console emit ret fst snd trace file fsOps].
    rewrite !listingUrls_cons, !app_nil_r, H2, H2', H3, H3', H4, H4'.
    repeat split.
Qed.

(** X14 on site 1, asked for a page it does not have, and on a site that
    has no page at all. *)
Lemma X14_failed_page_witness :
  (let r := NameSku.pagesLoop Demo.site1 1 (Some "https://example.org/missing") 3 []
              (initial None) in
   fst r = ([], 4) /\
   listingUrls (trace (snd r)) = ([] ++ ["https://example.org/missing"])%list) /\
  fst (NameSku.scrapeAllPages
         (Demo.env (fun _ => None) (fun _ => None) Demo.noBrands Demo.noScript [])
         (initial (Some "rows of the previous run")))
  = ([], 1).
Proof.
  split.
  - apply (proj1 (X14_failed_listing_page_ends_the_walk Demo.site1) 0
             "https://example.org/missing" 3 [] (initial None));
      [reflexivity | unfold NameSku.MAX_CATALOG_PAGES; lia | reflexivity].
  - apply (proj2 (proj2 (X14_failed_listing_page_ends_the_walk
                           (Demo.env (fun _ => None) (fun _ => None) Demo.noBrands
                              Demo.noScript [])))
             (Some "rows of the previous run") eq_refl).
Defined.

(* ================================================================== *)
(** * Edge cases of the grouped crawler *)
(* ================================================================== *)

Lemma carUrl_truthy (E : Env) b m y : Js.truthy (ByCar.carUrl E b m y) = true.
Proof. reflexivity. Qed.

(** X15.  In the grouped crawler a car whose first listing page cannot be
    fetched or parsed yields no product: the walk of the car ends after
    that one request and returns the empty list. *)
Theorem X15_car_with_failed_first_page_yields_nothing :
  forall (E : Env) (cfg : ByCar.Config) (fuel : nat)
         (brandCode modelName yearRange : string) (s : Sys),
    Js.reached 0 (ByCar.MAX_PRODUCTS_PER_CAR cfg) = false ->
    listingPage E (ByCar.carUrl E brandCode modelName yearRange) = None ->
    let r := ByCar.scrapeSingleCar E cfg (S fuel) brandCode modelName yearRange s in
    fst r = Some [] /\
    listingUrls (trace (snd r))
    = (listingUrls (trace s) ++ [ByCar.carUrl E brandCode modelName yearRange])%list /\
    detailTraffic (trace (snd r)) = detailTraffic (trace s) /\
    file (snd r) = file s /\ fsOps (snd r) = fsOps s.
Proof.
  intros E cfg fuel b m y s Hcap Hfail. unfold ByCar.scrapeSingleCar.
  rewrite !bind_run. cbn [console emit fst snd]. cbn [ByCar.carPagesLoop Js.oOrNull].
  unfold Js.orNull. rewrite carUrl_truthy, Hcap. cbn [negb]. rewrite bind_run.
  rewrite (byCar_page_failed E _ b m y _ Hfail).
  cbn [fst snd List.length Nat.eqb andb Nat.ltb Nat.leb]. rewrite !bind_run.
  cbn [console emit ret fst snd ByCar.carProductsLoop]. rewrite Hcap.
  rewrite !bind_run. cbn [Js.otruthy ret fst snd].
  destruct fuel; cbn [ByCar.carPagesLoop Js.oOrNull ret fst snd];
    rewrite bind_run; cbn [console emit ret fst snd trace file fsOps];
    rewrite !listingUrls_cons, !detailTraffic_cons, !app_nil_r;
    cbn [isDetailTraffic]; rewrite ?app_nil_r; repeat split.
Qed.

(** X15 on site 6, asked for a car it does not list. *)
Lemma X15_failed_car_witness :
  fst (ByCar.scrapeSingleCar Demo.site6 ByCar.sourceConfig 1 "BMW" "Z4" "1999"
         (initial None))
  = Some [].
Proof.
  apply (X15_car_with_failed_first_page_yields_nothing Demo.site6 ByCar.sourceConfig 0
           "BMW" "Z4" "1999" (initial None)); reflexivity.
Defined.

Lemma byCar_brandLoop_no_budget (E : Env) (cfg : ByCar.Config) fuel tree s :
  ByCar.MAX_TOTAL_PRODUCTS cfg = Js.Finite 0 ->
  let r := ByCar.brandLoop E cfg fuel tree false 0 s in
  fst r = {| ByCar.outcome := ByCar.Completed; ByCar.isHeaderWritten := false;
             ByCar.totalProductsScraped := 0 |} /\
  file (snd r) = file s /\ fsOps (snd r) = fsOps s /\
  listingUrls (trace (snd r)) = listingUrls (trace s) /\
  detailTraffic (trace (snd r)) = detailTraffic (trace s).
Proof.
  intros Hcap.
  destruct tree as [|[b [|[m [|y years]] models]] rest];
    cbn [ByCar.brandLoop ByCar.modelLoop ByCar.yearLoop]; rewrite ?Hcap;
    cbn [Js.reached Nat.leb]; rewrite ?bind_run;
    cbn [console emit ret fst snd]; rewrite ?Hcap; cbn [Js.reached Nat.leb];
    unfold ByCar.saveBatch; cbn [List.length Nat.ltb Nat.leb];
    rewrite ?bind_run; cbn [console emit ret fst snd trace file fsOps];
    rewrite ?listingUrls_cons, ?detailTraffic_cons, ?app_nil_r;
    cbn [isDetailTraffic]; rewrite ?app_nil_r; repeat split.
Qed.

(** X16.  With a global budget of zero a run of the grouped crawler that
    has its brand data and has emptied the output file scrapes nothing: it
    requests no listing page and no item page, counts no product, writes no
    header, and leaves the output file empty. *)
Theorem X16_zero_budget_run_scrapes_nothing :
  forall (E : Env) (cfg : ByCar.Config) (fuel : nat) (previous : option string)
         (tree : BrandModelsData),
    ByCar.MAX_TOTAL_PRODUCTS cfg = Js.Finite 0 ->
    ByCar.parseBrandModels E = Some tree ->
    fsOk E 0 = true ->
    let r := ByCar.scrapeAllCars E cfg fuel (initial previous) in
    fst r = {| ByCar.outcome := ByCar.Completed; ByCar.isHeaderWritten := false;
               ByCar.totalProductsScraped := 0 |} /\
    file (snd r) = Some "" /\ fsOps (snd r) = 1 /\
    listingUrls (trace (snd r)) = [] /\ detailTraffic (trace (snd r)) = [].
Proof.
  intros E cfg fuel previous tree Hcap Hp Hok. unfold ByCar.scrapeAllCars.
  rewrite bind_run, (byCar_brandData_run E _ tree Hp). cbn [fst snd].
  rewrite bind_run, writeFile_run. cbn [fst snd fsOps initial]. rewrite Hok.
  rewrite !bind_run. cbn [console emit fst snd].
  match goal with
  | |- context [ByCar.brandLoop E cfg fuel tree false 0 ?s0] =>
      destruct (byCar_brandLoop_no_budget E cfg fuel tree s0 Hcap)
        as (Hr & Hf & Ho & Hu & Hd);
      destruct (ByCar.brandLoop E cfg fuel tree false 0 s0) as [run s1]
  end.
  cbn [fst snd] in *. subst run. cbn [ByCar.outcome ByCar.totalProductsScraped].
  rewrite !bind_run. cbn [console emit ret fst snd trace file fsOps].
  rewrite !listingUrls_cons, !detailTraffic_cons, !app_nil_r, Hu, Hd, Hf, Ho.
  cbn [trace file fsOps isDetailTraffic]. repeat split.
Qed.

(** X16 on site 6 with a budget of zero. *)
Lemma X16_zero_budget_witness :
  file (snd (ByCar.scrapeAllCars Demo.site6
               {| ByCar.MAX_PRODUCTS_PER_CAR := Js.Infinity;
                  ByCar.MAX_TOTAL_PRODUCTS := Js.Finite 0 |} 6
               (initial (Some "rows of the previous run"))))
  = Some "".
Proof.
  apply (X16_zero_budget_run_scrapes_nothing Demo.site6
           {| ByCar.MAX_PRODUCTS_PER_CAR := Js.Infinity;
              ByCar.MAX_TOTAL_PRODUCTS := Js.Finite 0 |} 6
           (Some "rows of the previous run") Demo.site6_tree);
    reflexivity.
Defined.

(* ================================================================== *)
(** * The output file of the grouped crawler when nothing fails *)
(* ================================================================== *)

Lemma concat_app sep l1 l2 :
  l1 <> [] -> l2 <> [] ->
  String.concat sep (l1 ++ l2)
  = (String.concat sep l1 ++ sep ++ String.concat sep l2)%string.
Proof.
  intros H1 H2. induction l1 as [|x l1 IH]; [congruence|].
  destruct l1 as [|y l1].
  - cbn [app String.concat]. destruct l2 as [|z l2]; [congruence | reflexivity].
  - cbn [app String.concat] in *. rewrite IH by discriminate.
    now rewrite !str_app_assoc.
Qed.

Lemma unparse_app rows more :
  more <> [] ->
  Csv.unparse Csv.COLUMNS (rows ++ more) true
  = (Csv.unparse Csv.COLUMNS rows true ++ Csv.CRLF
     ++ Csv.unparse Csv.COLUMNS more false)%string.
Proof.
  intros Hm. unfold Csv.unparse. cbn [app]. rewrite map_app.
  change (Csv.line Csv.COLUMNS :: map Csv.line rows ++ map Csv.line more)%list
    with ((Csv.line Csv.COLUMNS :: map Csv.line rows) ++ map Csv.line more)%list.
  apply concat_app; [discriminate|].
  destruct more; [congruence | discriminate].
Qed.

Lemma batch_opens p ps :
  exists t, ByCar.convertBatchToWooCommerceCSV (p :: ps) false = String Csv.dquote t.
Proof. rewrite batch_rows. eexists. reflexivity. Qed.

Lemma mapIndexed_carRows ps :
  forall i, Forall isCarRow (NameSku.mapIndexed ByCar.toRow i ps).
Proof.
  induction ps as [|p ps IH]; intros i; cbn [NameSku.mapIndexed]; constructor.
  - now exists i, p.
  - apply IH.
Qed.

Lemma carRows_not_header rows :
  Forall isCarRow rows -> Forall (fun l => l <> Csv.HEADER_LINE) (map Csv.line rows).
Proof.
  intros H. apply Forall_map. eapply Forall_impl; [|exact H].
  intros row (i & p & ->). apply header_not_data, dataLine_opens.
Qed.

Lemma ExactShape_file hw total s s' :
  file s' = file s -> ExactShape hw total s -> ExactShape hw total s'.
Proof. unfold ExactShape. intros ->. trivial. Qed.

Section ByCarExact.
Variable E : Env.
Variable cfg : ByCar.Config.
Hypothesis fs_ok : forall n, fsOk E n = true.
Hypothesis trim_keeps :
  forall t, (0 <? String.length (trim E (String Csv.dquote t)))%nat = true.

Lemma byCar_saveBatch_exact brandCode batch hw total s :
  ExactShape hw total s ->
  let r := ByCar.saveBatch E brandCode batch hw s in
  ExactShape (fst r) (total + List.length batch) (snd r).
Proof.
  intros H r. pose proof (byCar_saveBatch_result E brandCode batch hw s) as Hr.
  cbv zeta in Hr. fold r in Hr. rewrite !fs_ok in Hr.
  destruct batch as [|p ps].
  - pose proof (f_equal fst Hr) as H1. pose proof (f_equal snd Hr) as H2.
      cbn [fst snd] in H1, H2. clearbody r. rewrite H1, Nat.add_0_r.
    now apply (ExactShape_file hw total s).
  - destruct hw.
    + destruct (batch_opens p ps) as [t Ht]. rewrite Ht, trim_keeps in Hr.
      rewrite <- Ht in Hr. cbn [andb] in Hr.
      pose proof (f_equal fst Hr) as H1. pose proof (f_equal snd Hr) as H2.
      cbn [fst snd] in H1, H2. clearbody r.
      destruct H as (rows & Hlen & Hpos & Hrows & Hfile).
      unfold ExactShape. rewrite H1, H2.
      exists (rows ++ NameSku.mapIndexed ByCar.toRow 0 (p :: ps))%list.
      split; [|split; [|split]].
      * rewrite length_app, mapIndexed_length. lia.
      * lia.
      * apply Forall_app. split; [assumption | apply mapIndexed_carRows].
      * unfold content. rewrite Hfile. cbn [option_map].
        rewrite unparse_app by discriminate. f_equal. f_equal.
        assert (Hsize : (0 <? String.length (Csv.unparse Csv.COLUMNS rows true))%nat
                        = true).
        { unfold Csv.unparse. cbn [app]. fold Csv.HEADER_LINE.
          destruct header_shape as [rest ->].
          destruct (map Csv.line rows); reflexivity. }
        rewrite Hsize. reflexivity.
    + pose proof (f_equal fst Hr) as H1. pose proof (f_equal snd Hr) as H2.
      cbn [fst snd] in H1, H2. clearbody r. destruct H as [Hfile ->].
      unfold ExactShape. rewrite H1, H2.
      exists (NameSku.mapIndexed ByCar.toRow 0 (p :: ps)).
      split; [|split; [|split]].
      * now rewrite mapIndexed_length.
      * cbn [List.length]. lia.
      * apply mapIndexed_carRows.
      * reflexivity.
Qed.

(** The year loop leaves by [break brandLoop] only at its first test, when
    the budget was used up on entry; it then hands back the batch as it
    got it. *)
Lemma byCar_yearLoop_break fuel b m years :
  forall batch total s,
    let r := ByCar.yearLoop E cfg fuel b m years batch total s in
    fst (fst (fst r)) = ByCar.BreakBrandLoop ->
    Js.reached total (ByCar.MAX_TOTAL_PRODUCTS cfg) = true /\
    snd (fst (fst r)) = batch.
Proof.
  induction years as [|y years IH]; intros batch total s; cbn [ByCar.yearLoop].
  - cbn. discriminate.
  - destruct (Js.reached total (ByCar.MAX_TOTAL_PRODUCTS cfg)) eqn:Hr.
    + rewrite bind_run. cbn. now split.
    + rewrite bind_run.
      destruct (ByCar.scrapeSingleCar E cfg fuel b m y s) as [[ps|] s1];
        cbn [fst snd]; [|cbn; discriminate].
      match goal with
      | |- context [if Js.reached ?t ?c then _ else _] =>
          destruct (Js.reached t c) eqn:Hr'
      end.
      * rewrite bind_run. cbn. discriminate.
      * rewrite bind_run. intros H. apply IH in H. destruct H as [H _]. congruence.
Qed.

Lemma byCar_modelLoop_break fuel b models :
  forall batch total s,
    let r := ByCar.modelLoop E cfg fuel b models batch total s in
    fst (fst (fst r)) = ByCar.BreakBrandLoop ->
    Js.reached total (ByCar.MAX_TOTAL_PRODUCTS cfg) = true /\
    snd (fst (fst r)) = batch.
Proof.
  induction models as [|[m years] models IH]; intros batch total s;
    cbn [ByCar.modelLoop].
  - cbn. discriminate.
  - rewrite bind_run.
    pose proof (byCar_yearLoop_break fuel b m years batch total s) as Hy.
    destruct (ByCar.yearLoop E cfg fuel b m years batch total s)
      as [[[signal batch1] total1] s1].
    cbn [fst snd] in *. destruct signal; cbn [ret fst snd]; try discriminate.
    + destruct (Js.reached total1 (ByCar.MAX_TOTAL_PRODUCTS cfg)) eqn:Hr.
      * cbn. discriminate.
      * intros H. apply IH in H. destruct H as [H _]. congruence.
    + intros _. now apply Hy.
Qed.

Lemma byCar_brandLoop_exact fuel brands :
  forall hw total s,
    ExactShape hw total s -> withinBudget cfg total ->
    let r := ByCar.brandLoop E cfg fuel brands hw total s in
    ByCar.outcome (fst r) = ByCar.Completed ->
    ExactShape (ByCar.isHeaderWritten (fst r)) (ByCar.totalProductsScraped (fst r))
      (snd r).
Proof.
  induction brands as [|[b models] brands IH]; intros hw total s Hx Hb;
    cbn [ByCar.brandLoop].
  - cbn. trivial.
  - rewrite !bind_run.
    set (s0 := snd (console Log _ s)).
    assert (Hx0 : ExactShape hw total s0) by exact Hx.
    destruct (byCar_modelLoop_spec E cfg fuel b models [] total s0 Hb)
      as ((Hfile & _) & Hc & Hw).
    pose proof (byCar_modelLoop_break fuel b models [] total s0) as Hbreak.
    destruct (ByCar.modelLoop E cfg fuel b models [] total s0)
      as [[[signal batch] total1] s1].
    cbn [fst snd List.length] in *.
    assert (Hx1 : ExactShape hw total s1) by (now apply (ExactShape_file hw total s0)).
    assert (Hsave :
      let r := (isHeaderWritten <- ByCar.saveBatch E b batch hw ;;
                if Js.reached total1 (ByCar.MAX_TOTAL_PRODUCTS cfg)
                then
                  console Log (ByCar.limitMessage cfg ++ " after processing brand "
                               ++ b ++ ". Stopping all scraping.") ;;
                  ret {| ByCar.outcome := ByCar.Completed;
                         ByCar.isHeaderWritten := isHeaderWritten;
                         ByCar.totalProductsScraped := total1 |}
                else ByCar.brandLoop E cfg fuel brands isHeaderWritten total1) s1 in
      ByCar.outcome (fst r) = ByCar.Completed ->
      ExactShape (ByCar.isHeaderWritten (fst r))
        (ByCar.totalProductsScraped (fst r)) (snd r)).
    { rewrite bind_run.
      pose proof (byCar_saveBatch_exact b batch hw total s1 Hx1) as Hx2.
      destruct (ByCar.saveBatch E b batch hw s1) as [hw2 s2]. cbn [fst snd] in *.
      replace (total + List.length batch) with total1 in Hx2 by lia.
      destruct (Js.reached total1 (ByCar.MAX_TOTAL_PRODUCTS cfg)).
      - rewrite bind_run. cbn [ret fst snd ByCar.isHeaderWritten
                               ByCar.totalProductsScraped ByCar.outcome].
        intros _. exact Hx2.
      - now apply IH. }
    destruct signal; cbn [ret fst snd ByCar.outcome ByCar.isHeaderWritten
                          ByCar.totalProductsScraped]; try exact Hsave.
    + intros _. destruct (Hbreak eq_refl) as [_ ->]. cbn [List.length] in Hc.
      replace total1 with total by lia. exact Hx1.
    + discriminate.
Qed.

Lemma byCar_run_exact fuel previous :
  let r := ByCar.scrapeAllCars E cfg fuel (initial previous) in
  ByCar.outcome (fst r) = ByCar.Completed ->
  ExactShape (ByCar.isHeaderWritten (fst r)) (ByCar.totalProductsScraped (fst r))
    (snd r).
Proof.
  unfold ByCar.scrapeAllCars. rewrite bind_run.
  destruct (ByCar.getBrandModelsData E (initial previous)) as [[tree|] s0];
    cbn [fst snd]; [|rewrite bind_run; cbn; discriminate].
  rewrite bind_run, writeFile_run, fs_ok. cbn [fst snd].
  rewrite !bind_run. cbn [console emit fst snd].
  match goal with
  | |- context [ByCar.brandLoop E cfg fuel tree false 0 ?s1] =>
      pose proof (byCar_brandLoop_exact fuel tree false 0 s1) as Hx;
      destruct (ByCar.brandLoop E cfg fuel tree false 0 s1) as [run s2]
  end.
  cbn [fst snd] in *.
  assert (Hb : withinBudget cfg 0).
  { unfold withinBudget. destruct (ByCar.MAX_TOTAL_PRODUCTS cfg); [lia | exact I]. }
  specialize (Hx (conj eq_refl eq_refl) Hb).
  destruct (ByCar.outcome run) eqn:Ho; cbn [ret fst snd]; rewrite ?Ho; try discriminate.
  rewrite !bind_run. cbn [console emit ret fst snd]. intros _.
  now apply (ExactShape_file _ _ s2), Hx.
Qed.

End ByCarExact.

(** X17.  When no file operation fails and [trim] does not empty a text
    that opens with a quote, a run of the grouped crawler that completes
    loses no row: the output file read back has exactly one data record per
    product counted, each the line of a product row, after the header
    record, which is there exactly when a product was counted. *)
Theorem X17_completed_run_loses_no_row :
  forall (E : Env) (cfg : ByCar.Config) (fuel : nat) (previous : option string),
    (forall n, fsOk E n = true) ->
    (forall t, (0 <? String.length (trim E (String Csv.dquote t)))%nat = true) ->
    let r := ByCar.scrapeAllCars E cfg fuel (initial previous) in
    ByCar.outcome (fst r) = ByCar.Completed ->
    List.length (Csv.dataRows (content (snd r)))
      = ByCar.totalProductsScraped (fst r) /\
    Forall (fun record => exists i p, record = Csv.line (ByCar.toRow i p))
      (Csv.dataRows (content (snd r))) /\
    Csv.headerCount (content (snd r))
      = (if ByCar.isHeaderWritten (fst r) then 1 else 0) /\
    ByCar.isHeaderWritten (fst r) = (0 <? ByCar.totalProductsScraped (fst r))%nat.
Proof.
  intros E cfg fuel previous Hfs Htrim r Ho.
  pose proof (byCar_run_exact E cfg Hfs Htrim fuel previous Ho) as Hx. fold r in Hx.
  unfold ExactShape in Hx. destruct (ByCar.isHeaderWritten (fst r)).
  - destruct Hx as (rows & Hlen & Hpos & Hrows & Hfile).
    unfold content, Csv.headerCount, Csv.dataRows. rewrite Hfile, records_unparse.
    destruct (header_among _ (carRows_not_header rows Hrows)) as [H1 H2].
    rewrite H1, H2, length_map. split; [assumption | split; [|split]].
    + apply Forall_map. eapply Forall_impl; [|exact Hrows].
      intros row (i & p & ->). now exists i, p.
    + reflexivity.
    + symmetry. now apply Nat.ltb_lt.
  - destruct Hx as [Hfile Htotal]. unfold content. rewrite Hfile, Htotal.
    repeat split. constructor.
Qed.

(** X17 on site 8 with a budget of five: two brands, two batches, five
    rows. *)
Lemma X17_no_row_lost_witness :
  let r := ByCar.scrapeAllCars Demo.site8 Demo.budget5 6 (initial None) in
  (List.length (Csv.dataRows (content (snd r))) = ByCar.totalProductsScraped (fst r) /\
   Forall (fun record => exists i p, record = Csv.line (ByCar.toRow i p))
     (Csv.dataRows (content (snd r))) /\
   Csv.headerCount (content (snd r))
     = (if ByCar.isHeaderWritten (fst r) then 1 else 0) /\
   ByCar.isHeaderWritten (fst r) = (0 <? ByCar.totalProductsScraped (fst r))%nat) /\
  ByCar.totalProductsScraped (fst r) = 5.
Proof.
  split; [|vm_compute; reflexivity].
  apply (X17_completed_run_loses_no_row Demo.site8 Demo.budget5 6 None).
  - intros n. reflexivity.
  - intros t. reflexivity.
  - vm_compute. reflexivity.
Defined.

(* ================================================================== *)
(** * The global budget, leaf by leaf *)
(* ================================================================== *)

Section ByCarBudget.
Variable E : Env.
Variable cfg : ByCar.Config.

Lemma byCar_details_stateless url : stateless (ByCar.scrapeProductDetails E url).
Proof. unfold ByCar.scrapeProductDetails. stateless_solve. Qed.

Lemma byCar_scrapeItems_stateless b m y els :
  stateless (ByCar.scrapeItems E b m y els).
Proof.
  induction els as [|el rest IH]; cbn [ByCar.scrapeItems]; [stateless_solve|].
  apply stateless_bind; [unfold ByCar.scrapeItem; stateless_solve|].
  intros p. stateless_solve.
Qed.

Lemma byCar_page_stateless url b m y :
  stateless (ByCar.scrapeCarCatalogPage E url b m y).
Proof.
  pose proof byCar_scrapeItems_stateless.
  unfold ByCar.scrapeCarCatalogPage, ByCar.readCarCatalogPage, getListing.
  stateless_solve.
Qed.

Lemma byCar_carProductsLoop_stateless ps :
  forall acc n, stateless (ByCar.carProductsLoop E cfg ps acc n).
Proof.
  pose proof byCar_details_stateless.
  induction ps as [|p ps IH]; intros acc n; cbn [ByCar.carProductsLoop];
    stateless_solve.
Qed.

Lemma byCar_carPagesLoop_stateless fuel b m y :
  forall cur n pages acc, stateless (ByCar.carPagesLoop E cfg fuel b m y cur n pages acc).
Proof.
  pose proof byCar_page_stateless. pose proof byCar_carProductsLoop_stateless.
  induction fuel as [|fuel IH]; intros cur n pages acc; cbn [ByCar.carPagesLoop];
    stateless_solve.
Qed.

Lemma byCar_scrapeSingleCar_stateless fuel b m y :
  stateless (ByCar.scrapeSingleCar E cfg fuel b m y).
Proof.
  pose proof byCar_carPagesLoop_stateless.
  unfold ByCar.scrapeSingleCar. stateless_solve.
Qed.

Lemma byCar_leaf fuel b m y s :
  fst (ByCar.scrapeSingleCar E cfg fuel b m y s) = leafOf E cfg fuel (b, m, y).
Proof. apply byCar_scrapeSingleCar_stateless. Qed.

Lemma sliceTo_nil {A} cap n : Js.sliceTo (@nil A) cap n = [].
Proof. destruct cap; cbn [Js.sliceTo]; [apply firstn_nil | reflexivity]. Qed.

Lemma sliceTo_app {A} (l1 l2 : list A) cap n :
  Js.sliceTo (l1 ++ l2) cap n
  = (Js.sliceTo l1 cap n
     ++ Js.sliceTo l2 cap (n + List.length (Js.sliceTo l1 cap n)))%list.
Proof.
  destruct cap as [k|]; cbn [Js.sliceTo]; [|reflexivity].
  rewrite firstn_app, length_firstn. f_equal. f_equal. lia.
Qed.

Lemma offered_cons fuel car cars :
  offered E cfg fuel (car :: cars)
  = (leafProducts E cfg fuel car ++ offered E cfg fuel cars)%list.
Proof. reflexivity. Qed.

Lemma offered_app fuel cars cars' :
  offered E cfg fuel (cars ++ cars')
  = (offered E cfg fuel cars ++ offered E cfg fuel cars')%list.
Proof. unfold offered. apply flat_map_app. Qed.

(** The year loop in closed form: it adds the products of its leaves, in
    order, as far as the budget goes. *)
Lemma byCar_yearLoop_closed fuel b m years :
  forall batch total s,
    (forall y, In y years -> leafOf E cfg fuel (b, m, y) <> None) ->
    let r := ByCar.yearLoop E cfg fuel b m years batch total s in
    let added := Js.sliceTo (offered E cfg fuel (map (fun y => (b, m, y)) years))
                   (ByCar.MAX_TOTAL_PRODUCTS cfg) total in
    snd (fst (fst r)) = (batch ++ added)%list /\
    snd (fst r) = total + List.length added /\
    fst (fst (fst r)) <> ByCar.Starved /\
    (fst (fst (fst r)) = ByCar.Continue \/
     Js.reached (snd (fst r)) (ByCar.MAX_TOTAL_PRODUCTS cfg) = true).
Proof.
  induction years as [|y years IH]; intros batch total s Hleaf;
    cbn [ByCar.yearLoop map].
  - cbn [ret fst snd]. unfold offered. cbn [flat_map]. rewrite sliceTo_nil, app_nil_r.
    cbn [List.length]. repeat split; [lia | discriminate | now left].
  - destruct (Js.reached total (ByCar.MAX_TOTAL_PRODUCTS cfg)) eqn:Hr.
    + rewrite bind_run. cbn [ret fst snd]. rewrite (sliceTo_reached _ _ _ Hr), app_nil_r.
      cbn [List.length]. rewrite Nat.add_0_r.
      repeat split; [discriminate | now right].
    + rewrite bind_run.
      pose proof (byCar_leaf fuel b m y s) as Hl.
      pose proof (Hleaf y (or_introl eq_refl)) as Hsome.
      destruct (ByCar.scrapeSingleCar E cfg fuel b m y s) as [[ps|] s1];
        cbn [fst snd] in *; [|congruence].
      assert (Hps : leafProducts E cfg fuel (b, m, y) = ps)
        by (unfold leafProducts; now rewrite <- Hl).
      rewrite offered_cons, sliceTo_app, Hps.
      set (add1 := Js.sliceTo ps (ByCar.MAX_TOTAL_PRODUCTS cfg) total).
      destruct (Js.reached (total + List.length add1) (ByCar.MAX_TOTAL_PRODUCTS cfg))
        eqn:Hr'.
      * rewrite bind_run. cbn [ret fst snd].
        rewrite (sliceTo_reached _ _ _ Hr'), app_nil_r.
        repeat split; [discriminate | now right].
      * rewrite bind_run. cbn [sleep emit fst snd].
        match goal with
        | |- context [ByCar.yearLoop E cfg fuel b m years ?bt ?t ?s2] =>
            destruct (IH bt t s2 (fun y' Hy' => Hleaf y' (or_intror Hy')))
              as (Hb & Ht & Hs & Hc)
        end.
        rewrite Hb, Ht, app_assoc, length_app.
        repeat split; [lia | exact Hs |].
        destruct Hc as [Hc | Hc]; [now left | right].
        rewrite Ht in Hc. exact Hc.
Qed.

(** The model loop in closed form. *)
Lemma byCar_modelLoop_closed fuel b models :
  forall batch total s,
    (forall car, In car (carsOfModels b models) -> leafOf E cfg fuel car <> None) ->
    let r := ByCar.modelLoop E cfg fuel b models batch total s in
    let added := Js.sliceTo (offered E cfg fuel (carsOfModels b models))
                   (ByCar.MAX_TOTAL_PRODUCTS cfg) total in
    snd (fst (fst r)) = (batch ++ added)%list /\
    snd (fst r) = total + List.length added /\
    fst (fst (fst r)) <> ByCar.Starved /\
    (fst (fst (fst r)) = ByCar.Continue \/
     Js.reached (snd (fst r)) (ByCar.MAX_TOTAL_PRODUCTS cfg) = true).
Proof.
  induction models as [|[m years] models IH]; intros batch total s Hleaf;
    cbn [ByCar.modelLoop carsOfModels flat_map fst snd].
  - cbn [ret fst snd]. unfold offered. cbn [flat_map]. rewrite sliceTo_nil, app_nil_r.
    cbn [List.length]. repeat split; [lia | discriminate | now left].
  - fold (carsOfModels b models). rewrite bind_run.
    assert (Hy : forall y, In y years -> leafOf E cfg fuel (b, m, y) <> None).
    { intros y Hin. apply Hleaf. cbn [carsOfModels flat_map fst snd].
      apply in_or_app. left. now apply (in_map (fun y => (b, m, y))). }
    assert (Hm : forall car, In car (carsOfModels b models) ->
                   leafOf E cfg fuel car <> None).
    { intros car Hin. apply Hleaf. cbn [carsOfModels flat_map fst snd].
      apply in_or_app. now right. }
    destruct (byCar_yearLoop_closed fuel b m years batch total s Hy)
      as (Hb & Ht & Hs & Hc).
    rewrite offered_app, sliceTo_app.
    set (add1 := Js.sliceTo (offered E cfg fuel (map (fun y => (b, m, y)) years))
                   (ByCar.MAX_TOTAL_PRODUCTS cfg) total) in *.
    destruct (ByCar.yearLoop E cfg fuel b m years batch total s)
      as [[[signal batch1] total1] s1].
    cbn [fst snd] in *. subst batch1 total1.
    destruct signal; cbn [ret fst snd]; try congruence.
    + destruct (Js.reached (total + List.length add1) (ByCar.MAX_TOTAL_PRODUCTS cfg))
        eqn:Hr.
      * cbn [ret fst snd]. rewrite (sliceTo_reached _ _ _ Hr), app_nil_r.
        repeat split; [discriminate | now right].
      * destruct (IH (batch ++ add1)%list (total + List.length add1) s1 Hm)
          as (Hb' & Ht' & Hs' & Hc').
        rewrite Hb', Ht', app_assoc, length_app.
        repeat split; [lia | exact Hs' |].
        destruct Hc' as [Hc' | Hc']; [now left | right].
        rewrite Ht' in Hc'. exact Hc'.
    + destruct Hc as [Hc | Hc]; [discriminate|].
      rewrite (sliceTo_reached _ _ _ Hc), app_nil_r.
      repeat split; [discriminate | now right].
    + destruct Hc as [Hc | Hc]; [discriminate|].
      rewrite (sliceTo_reached _ _ _ Hc), app_nil_r.
      repeat split; [discriminate | now right].
Qed.

Lemma carsOf_cons b models tree :
  carsOf ((b, models) :: tree) = (carsOfModels b models ++ carsOf tree)%list.
Proof. reflexivity. Qed.

(** The brand loop in closed form: when every leaf walk ends, the run
    completes and has counted the products of the leaves as far as the
    budget goes. *)
Lemma byCar_brandLoop_closed fuel brands :
  forall hw total s,
    (forall car, In car (carsOf brands) -> leafOf E cfg fuel car <> None) ->
    let r := ByCar.brandLoop E cfg fuel brands hw total s in
    ByCar.outcome (fst r) = ByCar.Completed /\
    ByCar.totalProductsScraped (fst r)
    = total + List.length (Js.sliceTo (offered E cfg fuel (carsOf brands))
                             (ByCar.MAX_TOTAL_PRODUCTS cfg) total).
Proof.
  induction brands as [|[b models] brands IH]; intros hw total s Hleaf;
    cbn [ByCar.brandLoop].
  - cbn [ret fst snd ByCar.outcome ByCar.totalProductsScraped].
    unfold offered. cbn [carsOf flat_map]. rewrite sliceTo_nil. cbn [List.length].
    split; [reflexivity | lia].
  - rewrite !bind_run. set (s0 := snd (console Log _ s)).
    assert (Hm : forall car, In car (carsOfModels b models) ->
                   leafOf E cfg fuel car <> None).
    { intros car Hin. apply Hleaf. rewrite carsOf_cons. apply in_or_app. now left. }
    assert (Hb : forall car, In car (carsOf brands) -> leafOf E cfg fuel car <> None).
    { intros car Hin. apply Hleaf. rewrite carsOf_cons. apply in_or_app. now right. }
    destruct (byCar_modelLoop_closed fuel b models [] total s0 Hm)
      as (_ & Ht & Hs & Hc).
    rewrite carsOf_cons, offered_app, sliceTo_app.
    set (add1 := Js.sliceTo (offered E cfg fuel (carsOfModels b models))
                   (ByCar.MAX_TOTAL_PRODUCTS cfg) total) in *.
    destruct (ByCar.modelLoop E cfg fuel b models [] total s0)
      as [[[signal batch1] total1] s1].
    cbn [fst snd] in *. subst total1.
    assert (Hsave :
      let r := (isHeaderWritten <- ByCar.saveBatch E b batch1 hw ;;
                if Js.reached (total + List.length add1) (ByCar.MAX_TOTAL_PRODUCTS cfg)
                then
                  console Log (ByCar.limitMessage cfg ++ " after processing brand "
                               ++ b ++ ". Stopping all scraping.") ;;
                  ret {| ByCar.outcome := ByCar.Completed;
                         ByCar.isHeaderWritten := isHeaderWritten;
                         ByCar.totalProductsScraped := total + List.length add1 |}
                else ByCar.brandLoop E cfg fuel brands isHeaderWritten
                       (total + List.length add1)) s1 in
      ByCar.outcome (fst r) = ByCar.Completed /\
      ByCar.totalProductsScraped (fst r)
      = total + List.length
                  (add1 ++ Js.sliceTo (offered E cfg fuel (carsOf brands))
                             (ByCar.MAX_TOTAL_PRODUCTS cfg)
                             (total + List.length add1))).
    { rewrite bind_run.
      destruct (ByCar.saveBatch E b batch1 hw s1) as [hw2 s2]. cbn [fst snd].
      destruct (Js.reached (total + List.length add1) (ByCar.MAX_TOTAL_PRODUCTS cfg))
        eqn:Hr.
      - rewrite bind_run. cbn [ret fst snd ByCar.outcome ByCar.totalProductsScraped].
        rewrite (sliceTo_reached _ _ _ Hr), app_nil_r. now split.
      - destruct (IH hw2 (total + List.length add1) s2 Hb) as [Ho Ht'].
        rewrite Ho, Ht', length_app. split; [reflexivity | lia]. }
    destruct signal; cbn [ret fst snd ByCar.outcome ByCar.totalProductsScraped];
      try exact Hsave; try congruence.
    destruct Hc as [Hc | Hc]; [discriminate|].
    rewrite (sliceTo_reached _ _ _ Hc), app_nil_r. now split.
Qed.

(** A run whose brand data is read and whose first write succeeds, in
    closed form. *)
Lemma byCar_run_closed fuel previous tree :
  ByCar.parseBrandModels E = Some tree -> fsOk E 0 = true ->
  (forall car, In car (carsOf tree) -> leafOf E cfg fuel car <> None) ->
  let r := ByCar.scrapeAllCars E cfg fuel (initial previous) in
  ByCar.outcome (fst r) = ByCar.Completed /\
  ByCar.totalProductsScraped (fst r)
  = List.length (Js.sliceTo (offered E cfg fuel (carsOf tree))
                   (ByCar.MAX_TOTAL_PRODUCTS cfg) 0).
Proof.
  intros Hp Hok Hleaf. unfold ByCar.scrapeAllCars. rewrite bind_run.
  rewrite (byCar_brandData_run E (initial previous) tree Hp). cbn [fst snd].
  rewrite bind_run, writeFile_run. cbn [fst snd file fsOps trace initial].
  rewrite Hok. rewrite !bind_run. cbn [console emit fst snd].
  match goal with
  | |- context [ByCar.brandLoop E cfg fuel tree false 0 ?s1] =>
      destruct (byCar_brandLoop_closed fuel tree false 0 s1 Hleaf) as [Ho Ht];
      destruct (ByCar.brandLoop E cfg fuel tree false 0 s1) as [run s2]
  end.
  cbn [fst snd] in *. rewrite Ho. rewrite !bind_run. cbn [console emit ret fst snd].
  split; [exact Ho | exact Ht].
Qed.

End ByCarBudget.

Lemma ExactShape_rows hw total s :
  ExactShape hw total s -> List.length (Csv.dataRows (content s)) = total.
Proof.
  unfold ExactShape. destruct hw.
  - intros (rows & Hlen & Hpos & Hrows & Hfile).
    unfold content, Csv.dataRows. rewrite Hfile, records_unparse.
    destruct (header_among _ (carRows_not_header rows Hrows)) as [_ H2].
    now rewrite H2, length_map.
  - intros [Hfile ->]. unfold content. now rewrite Hfile.
Qed.

(** C2.  In every run of the grouped crawler whose global budget is a number,
    the products counted and the data rows in the output file never exceed
    the budget (a run that ends before its first batch has counted nothing).
    The cut is exact: the year loop adds to the batch the
    products of its leaves in order, the first [n - total] of them and no
    other, so a leaf that fits is kept whole and the leaf that would pass
    the budget is cut to what remains; and a run whose leaf walks all end
    counts the products the leaves offer or the budget, whichever is less,
    and, when no file operation fails, has written as many rows.  With a
    budget of 5 and two leaves of 4 items each, the file holds the 4 rows
    of the first leaf and the first row of the second: 5 rows. *)
Theorem C2_rows_written_within_global_budget :
  (forall (E : Env) (cfg : ByCar.Config) (fuel : nat) (previous : option string)
          (n : nat),
     ByCar.MAX_TOTAL_PRODUCTS cfg = Js.Finite n ->
     let r := ByCar.scrapeAllCars E cfg fuel (initial previous) in
     let total := ByCar.totalProductsScraped (fst r) in
     total <= n /\
     match ByCar.outcome (fst r) with
     | ByCar.ConfigurationFailed => file (snd r) = previous
     | ByCar.InitFailed => total = 0 /\ ByCar.isHeaderWritten (fst r) = false
     | ByCar.Completed | ByCar.OutOfFuel =>
         FileShape (ByCar.isHeaderWritten (fst r)) total (snd r) /\
         List.length (Csv.dataRows (content (snd r))) <= total
     end) /\
  (forall (E : Env) (cfg : ByCar.Config) (fuel : nat) (brandCode modelName : string)
          (yearRanges : list string) (productsForThisBrand : list ByCar.Product)
          (totalProductsScraped n : nat) (s : Sys),
     ByCar.MAX_TOTAL_PRODUCTS cfg = Js.Finite n ->
     (forall yearRange, In yearRange yearRanges ->
        leafOf E cfg fuel (brandCode, modelName, yearRange) <> None) ->
     let r := ByCar.yearLoop E cfg fuel brandCode modelName yearRanges
                productsForThisBrand totalProductsScraped s in
     let leaves :=
       offered E cfg fuel (map (fun y => (brandCode, modelName, y)) yearRanges) in
     snd (fst (fst r))
     = (productsForThisBrand ++ firstn (n - totalProductsScraped) leaves)%list /\
     snd (fst r)
     = totalProductsScraped + Nat.min (n - totalProductsScraped) (List.length leaves)) /\
  (forall (E : Env) (cfg : ByCar.Config) (fuel : nat) (previous : option string)
          (tree : BrandModelsData) (n : nat),
     ByCar.MAX_TOTAL_PRODUCTS cfg = Js.Finite n ->
     ByCar.parseBrandModels E = Some tree -> fsOk E 0 = true ->
     (forall car, In car (carsOf tree) -> leafOf E cfg fuel car <> None) ->
     let r := ByCar.scrapeAllCars E cfg fuel (initial previous) in
     let leaves := offered E cfg fuel (carsOf tree) in
     ByCar.outcome (fst r) = ByCar.Completed /\
     ByCar.totalProductsScraped (fst r) = Nat.min n (List.length leaves) /\
     ((forall k, fsOk E k = true) ->
      (forall t, (0 <? String.length (trim E (String Csv.dquote t)))%nat = true) ->
      List.length (Csv.dataRows (content (snd r))) = Nat.min n (List.length leaves))) /\
  (let r := ByCar.scrapeAllCars Demo.site6 Demo.budget5 6 (initial None) in
   let first := Demo.site6_leaf "2010->2015" in
   let second := Demo.site6_leaf "2016->2020" in
   List.length first = 4 /\ List.length second = 4 /\
   fst r = {| ByCar.outcome := ByCar.Completed; ByCar.isHeaderWritten := true;
              ByCar.totalProductsScraped := 5 |} /\
   Csv.dataRows (content (snd r))
   = map Csv.line (NameSku.mapIndexed ByCar.toRow 0 (first ++ firstn 1 second)) /\
   List.length (Csv.dataRows (content (snd r))) = 5).
Proof.
  split; [|split; [|split]].
  - intros E cfg fuel previous n Hcap r total.
    destruct (ByCar.parseBrandModels E) as [tree|] eqn:Hp.
    + destruct (byCar_run_with_brandData E cfg fuel previous tree Hp)
        as (_ & Hfail & Hok).
      fold r in Hfail, Hok. destruct (fsOk E 0).
      * destruct (Hok eq_refl) as (Ho & Hf & Hb).
        unfold withinBudget in Hb. rewrite Hcap in Hb. split; [exact Hb|].
        destruct Ho as [-> | ->]; (split; [exact Hf | apply (FileShape_rows _ _ _ Hf)]).
      * destruct (Hfail eq_refl) as (Hr & Hfile). subst total. rewrite Hr. cbn.
        split; [lia | now split].
    + destruct (byCar_run_without_brandData E cfg fuel previous Hp) as (Hr & Hfile & _).
      fold r in Hr, Hfile. subst total. rewrite Hr. cbn. split; [lia | exact Hfile].
  - intros E cfg fuel b m years batch total n s Hcap Hleaf r leaves.
    destruct (byCar_yearLoop_closed E cfg fuel b m years batch total s Hleaf)
      as (Hb & Ht & _).
    fold r in Hb, Ht. fold leaves in Hb, Ht. rewrite Hcap in Hb, Ht.
    cbn [Js.sliceTo] in Hb, Ht. rewrite length_firstn in Ht. now split.
  - intros E cfg fuel previous tree n Hcap Hp Hok Hleaf r leaves.
    destruct (byCar_run_closed E cfg fuel previous tree Hp Hok Hleaf) as [Ho Ht].
    fold r in Ho, Ht. fold leaves in Ht. rewrite Hcap in Ht.
    cbn [Js.sliceTo] in Ht. rewrite length_firstn, Nat.sub_0_r in Ht.
    split; [exact Ho | split; [exact Ht|]].
    intros Hfs Htrim.
    pose proof (byCar_run_exact E cfg Hfs Htrim fuel previous Ho) as Hx. fold r in Hx.
    rewrite (ExactShape_rows _ _ _ Hx). exact Ht.
  - vm_compute. repeat split.
Qed.

(** C2 on site 6, whose budget is 5: its two leaf walks end and offer eight
    products; five are counted, five rows are written, and the year loop
    has put the four products of the first leaf and the first product of
    the second in the batch. *)
Lemma C2_budget_witness :
  ByCar.totalProductsScraped
    (fst (ByCar.scrapeAllCars Demo.site6 Demo.budget5 6 (initial None))) <= 5 /\
  snd (fst (fst (ByCar.yearLoop Demo.site6 Demo.budget5 6 "BMW" "3 Series"
                   ["2010->2015"; "2016->2020"] [] 0 (initial None))))
  = (Demo.site6_leaf "2010->2015" ++ firstn 1 (Demo.site6_leaf "2016->2020"))%list /\
  ByCar.totalProductsScraped
    (fst (ByCar.scrapeAllCars Demo.site6 Demo.budget5 6 (initial None)))
  = Nat.min 5 8 /\
  List.length
    (Csv.dataRows (content (snd (ByCar.scrapeAllCars Demo.site6 Demo.budget5 6
                                   (initial None)))))
  = Nat.min 5 8.
Proof.
  assert (Hleaf : forall car, In car (carsOf Demo.site6_tree) ->
                    leafOf Demo.site6 Demo.budget5 6 car <> None).
  { intros car [<- | [<- | []]]; vm_compute; discriminate. }
  pose proof (proj1 C2_rows_written_within_global_budget
                Demo.site6 Demo.budget5 6 None 5 (eq_refl (Js.Finite 5))) as H1.
  pose proof (proj1 (proj2 C2_rows_written_within_global_budget)
                Demo.site6 Demo.budget5 6 "BMW" "3 Series"
                ["2010->2015"; "2016->2020"] [] 0 5 (initial None)
                (eq_refl (Js.Finite 5))) as H2.
  pose proof (proj1 (proj2 (proj2 C2_rows_written_within_global_budget))
                Demo.site6 Demo.budget5 6 None Demo.site6_tree 5
                (eq_refl (Js.Finite 5)) eq_refl eq_refl Hleaf) as H3.
  cbv zeta in H1, H2, H3.
  destruct H1 as [H1 _].
  destruct H2 as [H2 _].
  { intros y [<- | [<- | []]]; vm_compute; discriminate. }
  destruct H3 as (_ & H3 & H4).
  split; [exact H1 | split; [|split]].
  - rewrite H2. vm_compute. reflexivity.
  - rewrite H3. vm_compute. reflexivity.
  - rewrite H4; [vm_compute; reflexivity | intros k; reflexivity | intros t; reflexivity].
Defined.

(* ================================================================== *)
(** * Pictures *)
(* ================================================================== *)

Lemma listedPicture_truthy E base el fallback :
  Js.truthy fallback = true -> Js.truthy (listedPicture E base el fallback) = true.
Proof.
  intros Hf. unfold listedPicture. destruct (Js.oOrNull (imgSrc el)); [|assumption].
  destruct (resolve E _ base) as [u|]; [|assumption].
  now destruct (Js.truthy u) eqn:Hu.
Qed.

(** X18.  In the first crawler and in the grouped crawler, when the
    placeholder picture resolves to a non-empty URL, every listed item gets
    a picture: its own when it has a [src] that resolves to a non-empty URL,
    the placeholder otherwise; so the Images column of its row is never
    empty. *)
Theorem X18_listed_item_always_has_a_picture :
  forall (E : Env) (el : ItemElement) (s : Sys) (placeholder : string),
    resolve E "/img/default-image.png" NameSku.BASE_URL = Some placeholder ->
    Js.truthy placeholder = true ->
    (let b := fst (NameSku.scrapeItem E el s) in
     NameSku.b_imageUrl b = Some (listedPicture E NameSku.BASE_URL el placeholder) /\
     forall i code,
       field "Images" (NameSku.toRow i (NameSku.withDetails b code)) <> "") /\
    (forall brandCode modelName yearRange,
       let p := fst (ByCar.scrapeItem E brandCode modelName yearRange el s) in
       ByCar.imageUrl p = Some (listedPicture E ByCar.BASE_URL el placeholder) /\
       forall i, field "Images" (ByCar.toRow i p) <> "").
Proof.
  intros E el s ph Hph Ht.
  assert (Hrow : forall u, Js.truthy u = true -> Js.orElse (Some u) "" <> "").
  { intros u Hu. cbn [Js.orElse]. rewrite Hu. intros ->. discriminate Hu. }
  split.
  - assert (Hb : NameSku.b_imageUrl (fst (NameSku.scrapeItem E el s))
                 = Some (listedPicture E NameSku.BASE_URL el ph)).
    { unfold NameSku.scrapeItem, listedPicture. rewrite !bind_run. cbn [ret fst NameSku.b_imageUrl].
      rewrite Hph.
      destruct (Js.oOrNull (imgSrc el)) as [src|]; cbn [ret fst Js.otruthy negb];
        [|reflexivity].
      destruct (resolve E src NameSku.BASE_URL) as [u|];
        [|rewrite bind_run; reflexivity].
      cbn [ret fst Js.otruthy]. now destruct (Js.truthy u). }
    cbv zeta. split; [exact Hb|]. intros i code.
    unfold NameSku.toRow. cbn [field Csv.row Csv.COLUMNS combine find fst snd
                               String.eqb Ascii.eqb Bool.eqb].
    cbn [NameSku.withDetails NameSku.imageUrl]. rewrite Hb.
    apply Hrow, listedPicture_truthy, Ht.
  - intros b m y.
    assert (Hb : ByCar.imageUrl (fst (ByCar.scrapeItem E b m y el s))
                 = Some (listedPicture E ByCar.BASE_URL el ph)).
    { unfold ByCar.scrapeItem, listedPicture. rewrite !bind_run. cbn [ret fst ByCar.imageUrl].
      change ByCar.BASE_URL with NameSku.BASE_URL. rewrite Hph.
      destruct (Js.oOrNull (imgSrc el)) as [src|]; cbn [ret fst Js.otruthy negb];
        [|reflexivity].
      destruct (resolve E src NameSku.BASE_URL) as [u|];
        [|rewrite bind_run; reflexivity].
      cbn [ret fst Js.otruthy]. now destruct (Js.truthy u). }
    cbv zeta. split; [exact Hb|]. intros i.
    unfold ByCar.toRow. cbn [field Csv.row Csv.COLUMNS combine find fst snd
                             String.eqb Ascii.eqb Bool.eqb].
    rewrite Hb. apply Hrow, listedPicture_truthy, Ht.
Qed.

(** X18 on the second item of site 1, which has a picture of its own. *)
Lemma X18_picture_witness :
  NameSku.b_imageUrl
    (fst (NameSku.scrapeItem Demo.site1 (Demo.item "Oil Filter" "OF-2" "7" None)
            (initial None)))
  = Some "https://www.fastdeliverycarparts.com/img/p/1.jpg".
Proof.
  apply (proj1 (X18_listed_item_always_has_a_picture Demo.site1
                  (Demo.item "Oil Filter" "OF-2" "7" None) (initial None)
                  "https://www.fastdeliverycarparts.com/img/default-image.png"
                  eq_refl eq_refl)).
Defined.

Lemma urlSku_thumbImages_prefix (E : Env) main ts :
  forall acc s, exists more,
    fst (UrlSku.thumbImages E main ts acc s) = (acc ++ more)%list.
Proof.
  induction ts as [|[p f] rest IH]; intros acc s; cbn [UrlSku.thumbImages].
  - exists []. cbn. now rewrite app_nil_r.
  - destruct (Js.oOrNull p); [|apply IH].
    destruct (Js.oOrNull f); [|apply IH].
    destruct (resolve E _ UrlSku.BASE_URL) as [u|].
    + destruct (_ && _); [|apply IH].
      destruct (IH (acc ++ [u])%list s) as [more Hm]. exists (u :: more).
      rewrite Hm, <- app_assoc. reflexivity.
    + rewrite bind_run. apply IH.
Qed.

(** X19.  In the second crawler, when the main picture of a fetched item
    page resolves and is not the placeholder, it is the first picture of the
    product, with its size segment removed; the thumbnails come after it. *)
Theorem X19_main_picture_comes_first :
  forall (E : Env) (url : string) (doc : DetailDoc) (s : Sys) (src u : string),
    Js.truthy url = true -> detailPage E url = Some doc ->
    Js.oOrNull (mainImgSrc doc) = Some src ->
    resolve E src UrlSku.BASE_URL = Some u ->
    Js.includes (Js.dropSizeSegment u) UrlSku.PLACEHOLDER_NAME = false ->
    exists more,
      UrlSku.d_imageUrls (fst (UrlSku.scrapeProductDetails E url s))
      = Js.dropSizeSegment u :: more.
Proof.
  intros E url doc s src u Ht Hdoc Hsrc Hres Hreal.
  unfold UrlSku.scrapeProductDetails, getDetail. rewrite Ht. cbn [negb].
  rewrite !bind_run. cbn [console emit ret fst snd]. rewrite Hdoc.
  rewrite !bind_run. unfold UrlSku.mainImage at 1 2. rewrite Hsrc, Hres, Hreal.
  cbn [negb ret fst snd]. rewrite bind_run.
  match goal with
  | |- context [UrlSku.thumbImages E ?m ?ts ?acc ?s0] =>
      destruct (urlSku_thumbImages_prefix E m ts acc s0) as [more Hm]
  end.
  exists more. cbn [ret fst UrlSku.d_imageUrls]. rewrite Hm. reflexivity.
Qed.

(** X19 on the item page of site 1, whose main picture has a size
    segment. *)
Lemma X19_main_picture_witness :
  exists more,
    UrlSku.d_imageUrls
      (fst (UrlSku.scrapeProductDetails Demo.site1
              "https://www.fastdeliverycarparts.com/detala/101" (initial None)))
    = Js.dropSizeSegment "https://www.fastdeliverycarparts.com/img/p/__300/101.jpg"
      :: more.
Proof.
  apply (X19_main_picture_comes_first Demo.site1
           "https://www.fastdeliverycarparts.com/detala/101"
           (Demo.detailDoc "MC-101" (Some "/img/p/__300/101.jpg") []) (initial None)
           "/img/p/__300/101.jpg"
           "https://www.fastdeliverycarparts.com/img/p/__300/101.jpg");
    reflexivity.
Defined.

(* ================================================================== *)
(** * What a walk has collected stays collected *)
(* ================================================================== *)

Lemma nameSku_pagesLoop_prefix (E : Env) fuel :
  forall cur n all s, exists more,
    fst (fst (NameSku.pagesLoop E fuel cur n all s)) = (all ++ more)%list.
Proof.
  assert (Hnil : forall all : list NameSku.Product, exists more, all = (all ++ more)%list).
  { intros all. exists []. now rewrite app_nil_r. }
  induction fuel as [|fuel IH]; intros cur n all s; cbn [NameSku.pagesLoop].
  - destruct cur; [destruct (_ && _)|]; cbn; apply Hnil.
  - destruct cur as [url|]; [|cbn; apply Hnil].
    destruct (_ && _); [|cbn; apply Hnil].
    rewrite bind_run.
    destruct (NameSku.scrapeCatalogPage E url s) as [[infos next] s1]. cbn [fst snd].
    destruct (_ && _).
    + rewrite bind_run. cbn. apply Hnil.
    + rewrite !bind_run. cbn [console emit fst snd].
      match goal with
      | |- context [NameSku.productsLoop E ?c ?l ?i infos all ?s2] =>
          destruct (nameSku_productsLoop_run E c l i infos all s2) as (Hv & _);
          cbv zeta in Hv; rewrite Hv
      end.
      destruct (Js.strictEq next (Some url)).
      * rewrite bind_run. cbn [ret fst]. eexists. reflexivity.
      * match goal with
        | |- context [NameSku.pagesLoop E fuel next ?c ?a ?s3] =>
            destruct (IH next c a s3) as [more Hm]
        end.
        rewrite Hm, <- app_assoc. eexists. reflexivity.
Qed.

Lemma urlSku_pagesLoop_prefix (E : Env) fuel :
  forall cur n all s, exists more,
    fst (fst (UrlSku.pagesLoop E fuel cur n all s)) = (all ++ more)%list.
Proof.
  assert (Hnil : forall all : list UrlSku.Product, exists more, all = (all ++ more)%list).
  { intros all. exists []. now rewrite app_nil_r. }
  induction fuel as [|fuel IH]; intros cur n all s; cbn [UrlSku.pagesLoop].
  - destruct cur; [destruct (_ && _)|]; cbn; apply Hnil.
  - destruct cur as [url|]; [|cbn; apply Hnil].
    destruct (_ && _); [|cbn; apply Hnil].
    rewrite bind_run.
    destruct (UrlSku.scrapeCatalogPage E url s) as [[infos next] s1]. cbn [fst snd].
    destruct (_ && _).
    + rewrite bind_run. cbn. apply Hnil.
    + rewrite !bind_run. cbn [console emit fst snd].
      match goal with
      | |- context [UrlSku.productsLoop E ?c ?l ?i infos all ?s2] =>
          destruct (urlSku_productsLoop_run E c l i infos all s2) as (Hv & _);
          cbv zeta in Hv; rewrite Hv
      end.
      destruct (Js.strictEq next (Some url)).
      * rewrite bind_run. cbn [ret fst]. eexists. reflexivity.
      * match goal with
        | |- context [UrlSku.pagesLoop E fuel next ?c ?a ?s3] =>
            destruct (IH next c a s3) as [more Hm]
        end.
        rewrite Hm, <- app_assoc. eexists. reflexivity.
Qed.

Lemma byCar_carPagesLoop_prefix (E : Env) (cfg : ByCar.Config) fuel b m y :
  forall cur n pages acc s,
    match fst (ByCar.carPagesLoop E cfg fuel b m y cur n pages acc s) with
    | Some (products, _) => exists more, products = (acc ++ more)%list
    | None => True
    end.
Proof.
  assert (Hnil : forall acc : list ByCar.Product, exists more, acc = (acc ++ more)%list).
  { intros acc. exists []. now rewrite app_nil_r. }
  induction fuel as [|fuel IH]; intros cur n pages acc s; cbn [ByCar.carPagesLoop].
  - destruct (Js.oOrNull cur); [destruct (negb _)|]; cbn; trivial.
  - destruct (Js.oOrNull cur) as [url|]; [|cbn; apply Hnil].
    destruct (negb _); [|cbn; apply Hnil].
    rewrite bind_run.
    destruct (ByCar.scrapeCarCatalogPage E url b m y s) as [[ps next] s1]. cbn [fst snd].
    destruct (_ && _).
    + rewrite bind_run. cbn. apply Hnil.
    + rewrite !bind_run. cbn [console emit fst snd].
      match goal with
      | |- context [ByCar.carProductsLoop E cfg ps acc n ?s2] =>
          destruct (byCar_carProductsLoop_run E cfg ps acc n s2) as (Hv & _);
          cbv zeta in Hv;
          destruct (ByCar.carProductsLoop E cfg ps acc n s2) as [[acc' n'] s3]
      end.
      cbn [fst snd] in *. injection Hv as -> ->.
      match goal with
      | |- context [if Js.reached ?t ?c then _ else _] => destruct (Js.reached t c)
      end.
      * cbn [ret fst]. eexists. reflexivity.
      * rewrite bind_run.
        match goal with
        | |- context [ByCar.carPagesLoop E cfg fuel b m y next ?c ?p ?a ?s4] =>
            specialize (IH next c p a s4);
            destruct (fst (ByCar.carPagesLoop E cfg fuel b m y next c p a s4))
              as [[products count]|]
        end; [|exact I].
        destruct IH as [more ->]. rewrite <- app_assoc. eexists. reflexivity.
Qed.

(** X20.  In each of the three walkers the products collected so far are
    kept: whatever the later pages do, the result of the walk begins with
    the products the walk was entered with, in the same order. *)
Theorem X20_collected_products_are_kept :
  (forall (E : Env) (fuel : nat) (cur : option string) (n : nat)
          (all : list NameSku.Product) (s : Sys),
     exists more,
       fst (fst (NameSku.pagesLoop E fuel cur n all s)) = (all ++ more)%list) /\
  (forall (E : Env) (fuel : nat) (cur : option string) (n : nat)
          (all : list UrlSku.Product) (s : Sys),
     exists more,
       fst (fst (UrlSku.pagesLoop E fuel cur n all s)) = (all ++ more)%list) /\
  (forall (E : Env) (cfg : ByCar.Config) (fuel : nat) (b m y : string)
          (cur : option string) (n pages : nat) (acc : list ByCar.Product) (s : Sys),
     match fst (ByCar.carPagesLoop E cfg fuel b m y cur n pages acc s) with
     | Some (products, _) => exists more, products = (acc ++ more)%list
     | None => True
     end).
Proof.
  split; [|split]; intros.
  - apply nameSku_pagesLoop_prefix.
  - apply urlSku_pagesLoop_prefix.
  - apply byCar_carPagesLoop_prefix.
Qed.

(* ================================================================== *)
(** * The listing extractor of the first and of the grouped crawler *)
(* ================================================================== *)

Lemma nameSku_scrapeItem_name (E : Env) el s :
  let b := fst (NameSku.scrapeItem E el s) in
  NameSku.b_name b = Js.orNull (trim E (productNameText el)) /\
  NameSku.b_sku b = option_map (dashWhitespace E) (Js.orNull (trim E (productNameText el))).
Proof. unfold NameSku.scrapeItem. rewrite !bind_run. cbn. split; reflexivity. Qed.

Lemma byCar_scrapeItem_name (E : Env) b m y el s :
  let p := fst (ByCar.scrapeItem E b m y el s) in
  ByCar.name p = Js.orNull (trim E (productNameText el)) /\
  ByCar.sku p = option_map (dashWhitespace E) (Js.orNull (trim E (productNameText el))).
Proof. unfold ByCar.scrapeItem. rewrite !bind_run. cbn. split; reflexivity. Qed.

(** X21.  In the first crawler and in the grouped crawler the listing
    extractor yields one summary for every catalogue item of the page, in
    page order, an item without any data included: the name of the summary
    is the trimmed product name, null when that is empty, and its SKU is
    that name with its white space turned into dashes. *)
Theorem X21_one_summary_per_listed_item :
  forall (E : Env) (els : list ItemElement) (s : Sys),
    let nameOf := fun el => Js.orNull (trim E (productNameText el)) in
    let skuOf := fun el => option_map (dashWhitespace E) (nameOf el) in
    (let summaries := fst (NameSku.scrapeItems E els s) in
     map NameSku.b_name summaries = map nameOf els /\
     map NameSku.b_sku summaries = map skuOf els) /\
    (forall brandCode modelName yearRange,
       let products := fst (ByCar.scrapeItems E brandCode modelName yearRange els s) in
       map ByCar.name products = map nameOf els /\
       map ByCar.sku products = map skuOf els).
Proof.
  intros E els. cbv zeta. induction els as [|el rest IH]; intros s.
  - split; [|intros b m y]; split; reflexivity.
  - split.
    + cbn [NameSku.scrapeItems]. rewrite !bind_run. cbn [ret fst map].
      destruct (nameSku_scrapeItem_name E el s) as [-> ->].
      destruct (IH (snd (NameSku.scrapeItem E el s))) as [[-> ->] _]. now split.
    + intros b m y. cbn [ByCar.scrapeItems]. rewrite !bind_run. cbn [ret fst map].
      destruct (byCar_scrapeItem_name E b m y el s) as [-> ->].
      destruct (IH (snd (ByCar.scrapeItem E b m y el s))) as [_ H].
      destruct (H b m y) as [-> ->]. now split.
Qed.

(* ================================================================== *)
(** * A walk that does not end *)
(* ================================================================== *)

(** X22.  With no cap per car, the walk of a car does not end on a site
    whose pagination never runs out: if from the start URL on every listing
    page has an item and a next link to such a page again, then whatever
    number of pages the walk is allowed, it is still walking when they are
    used up. *)
Theorem X22_uncapped_walk_of_endless_pagination_never_ends :
  forall (E : Env) (cfg : ByCar.Config) (b m y : string) (endless : string -> Prop),
    ByCar.MAX_PRODUCTS_PER_CAR cfg = Js.Infinity ->
    (forall url s,
       endless url ->
       Js.truthy url = true /\
       exists p ps next,
         fst (ByCar.scrapeCarCatalogPage E url b m y s) = (p :: ps, Some next) /\
         endless next) ->
    forall (fuel : nat) (url : string) (n pages : nat) (acc : list ByCar.Product)
           (s : Sys),
      endless url ->
      fst (ByCar.carPagesLoop E cfg fuel b m y (Some url) n pages acc s) = None.
Proof.
  intros E cfg b m y endless Hcap Hstep.
  induction fuel as [|fuel IH]; intros url n pages acc s Hurl;
    destruct (Hstep url s Hurl) as (Ht & p & ps & next & Hpage & Hnext);
    cbn [ByCar.carPagesLoop Js.oOrNull]; unfold Js.orNull; rewrite Ht, Hcap;
    cbn [Js.reached negb].
  - reflexivity.
  - rewrite bind_run.
    destruct (ByCar.scrapeCarCatalogPage E url b m y s) as [[ps' next'] s1].
    cbn [fst snd] in *. injection Hpage as -> ->.
    cbn [List.length Nat.eqb andb]. rewrite !bind_run. cbn [console emit fst snd].
    match goal with
    | |- context [ByCar.carProductsLoop E cfg ?l acc n ?s2] =>
        destruct (ByCar.carProductsLoop E cfg l acc n s2) as [[acc' n'] s3]
    end.
    cbn [fst snd]. rewrite bind_run. now apply IH.
Qed.

(** X22 on site 5, whose two pages link to each other. *)
Lemma X22_endless_walk_witness :
  fst (ByCar.carPagesLoop Demo.site5 ByCar.sourceConfig 50 "BMW" "X5" "2010"
         (Some Demo.x5_page1) 0 0 [] (initial None))
  = None.
Proof.
  apply (X22_uncapped_walk_of_endless_pagination_never_ends Demo.site5
           ByCar.sourceConfig "BMW" "X5" "2010"
           (fun url => url = Demo.x5_page1 \/ url = Demo.x5_page2)).
  - reflexivity.
  - intros url s [-> | ->]; (split; [reflexivity|]); do 3 eexists;
      (split; [vm_compute; reflexivity|]); [right | left]; reflexivity.
  - left. reflexivity.
Defined.

(* ================================================================== *)
(** * A catalogue of one page, from the request to the products *)
(* ================================================================== *)








(* ================================================================== *)
(** * Identifiers and categories of the rows *)
(* ================================================================== *)

Lemma showNat_inj n m : Js.showNat n = Js.showNat m -> n = m.
Proof.
  unfold Js.showNat. intros H. apply Unsigned.to_uint_inj.
  pose proof (NilEmpty.usu (Nat.to_uint n)) as Hn.
  pose proof (NilEmpty.usu (Nat.to_uint m)) as Hm.
  rewrite H in Hn. congruence.
Qed.

Lemma NoDup_map_inj {A B} (f : A -> B) l :
  (forall x y, f x = f y -> x = y) -> NoDup l -> NoDup (map f l).
Proof.
  intros Hf H. induction H as [|x l Hx _ IH]; cbn [map]; constructor; [|exact IH].
  rewrite in_map_iff. intros (y & Hy & Hin). apply Hf in Hy. now subst.
Qed.

Lemma nameSku_ids ps :
  forall i,
    map (field "ID") (NameSku.mapIndexed NameSku.toRow i ps)
    = map (fun j => Js.showNat (j + 1)) (seq i (List.length ps)).
Proof.
  induction ps as [|p ps IH]; intros i; cbn [NameSku.mapIndexed map List.length seq].
  - reflexivity.
  - rewrite IH. reflexivity.
Qed.

(** X24.  The rows the first crawler makes of its products carry the
    identifiers 1, 2, 3, ... in order: the ID column of the row at position
    [j] is the decimal numeral of [j + 1], and no two rows of a file have
    the same ID. *)
Theorem X24_first_crawler_ids_count_from_one :
  forall (products : list NameSku.Product),
    let rows := NameSku.mapIndexed NameSku.toRow 0 products in
    map (field "ID") rows
    = map (fun j => Js.showNat (j + 1)) (seq 0 (List.length products)) /\
    NoDup (map (field "ID") rows).
Proof.
  intros products rows. subst rows. rewrite nameSku_ids. split; [reflexivity|].
  apply NoDup_map_inj; [|apply seq_NoDup].
  intros x y H. apply showNat_inj in H. lia.
Qed.

(** X25.  Every product the walk of a car returns is filed under that car:
    when brand code, model name and year range are not empty, the Categories
    column of its row is the brand label, the model name and the year range
    with its first arrow turned into a dash, joined by [" > "].  The brand
    label is what indexing the brand map with the car's brand code gives
    (the name under that key, or the text of the member of that name that
    every object inherits), else the code. *)
Theorem X25_rows_are_filed_under_their_car :
  forall (E : Env) (cfg : ByCar.Config) (fuel : nat) (brandCode modelName yearRange : string)
         (s : Sys) (products : list ByCar.Product),
    Js.truthy brandCode = true -> Js.truthy modelName = true ->
    Js.truthy yearRange = true ->
    fst (ByCar.scrapeSingleCar E cfg fuel brandCode modelName yearRange s)
      = Some products ->
    Forall (fun p =>
              forall i,
                field "Categories" (ByCar.toRow i p)
                = (brandLabel (Some brandCode) ++ " > " ++ modelName ++ " > "
                   ++ Js.replaceFirst "->" "-" yearRange)%string)
      products.
Proof.
  intros E cfg fuel b m y s products Hb Hm Hy Hrun.
  destruct (byCar_scrapeSingleCar_result E cfg fuel b m y s products Hrun) as [Hcar _].
  eapply Forall_impl; [|exact Hcar].
  intros p (Hpb & Hpm & Hpy) i. unfold ByCar.toRow.
  cbn [field Csv.row Csv.COLUMNS combine find fst snd String.eqb Ascii.eqb Bool.eqb].
  rewrite categoryString_join, Hpb, Hpm, Hpy. cbn [Js.orElse]. rewrite Hm, Hy.
  cbn [filter]. rewrite brandLabel_truthy. cbn [Js.otruthy]. rewrite Hb, Hm.
  rewrite (replaceFirst_truthy "->" "-" y eq_refl Hy). reflexivity.
Qed.

(** X25 on the first leaf of site 6. *)
Lemma X25_category_witness :
  Forall (fun p =>
            forall i,
              field "Categories" (ByCar.toRow i p)
              = (brandLabel (Some "BMW") ++ " > " ++ "3 Series" ++ " > "
                 ++ Js.replaceFirst "->" "-" "2010->2015")%string)
    (Demo.site6_leaf "2010->2015") /\
  (brandLabel (Some "BMW") ++ " > " ++ "3 Series" ++ " > "
   ++ Js.replaceFirst "->" "-" "2010->2015")%string
  = "BMW > 3 Series > 2010-2015".
Proof.
  split; [|reflexivity].
  apply (X25_rows_are_filed_under_their_car Demo.site6 ByCar.sourceConfig 6
           "BMW" "3 Series" "2010->2015" (initial None)); reflexivity.
Defined.
